(** * AiDUT front end (app/static/js/main.js): the execution stream reader,
      the step dispatcher, the pairing poll and the recurring timers.

    The class [AIPhoneAssistant] is embedded as pure functions over an explicit
    [World]: the fields of the object, the part of the page its methods touch,
    the browser's table of interval timers and a log of the outward effects
    (network requests, toasts, console errors).  Every [await] is resolved by a
    reply that the caller passes in, so one call of an async method is one
    function application; tasks interleaved at an [await] are not modelled.

    JavaScript strings are sequences of UTF-16 code units, bytes are
    [Byte.byte], and [TextDecoder] is the UTF-8 decoder of the Encoding
    standard.  [JSON.parse] and the text of engine-made exceptions are
    parameters of the development. *)

From Stdlib Require Import List NArith ZArith Lia Bool.
From Stdlib Require Import String Ascii DecimalString.
From Stdlib.Strings Require Import Byte.
Import ListNotations.

Set Implicit Arguments.
Set Warnings "-register-all".

(** ** Strings *)

Definition jsstring := list N.

Fixpoint jsstring_eqb (a b : jsstring) : bool :=
  match a, b with
  | [], [] => true
  | x :: a', y :: b' => (x =? y)%N && jsstring_eqb a' b'
  | _, _ => false
  end.

(** ** The UTF-8 decoder behind [new TextDecoder()]

    The decoder of the Encoding standard, in replacement mode ([fatal] is not
    set): a state machine fed one byte at a time. *)

Module Utf8.

Record state := {
  code_point : N;
  bytes_seen : N;
  bytes_needed : N;
  lower_boundary : N;
  upper_boundary : N
}.

Definition init : state :=
  {| code_point := 0; bytes_seen := 0; bytes_needed := 0;
     lower_boundary := 0x80; upper_boundary := 0xBF |}.

Definition REPLACEMENT : N := 0xFFFD.

Definition in_range (lo hi b : N) : bool := (lo <=? b)%N && (b <=? hi)%N.

(** A byte read while no sequence is open. *)
Definition lead (b : N) : state * list N :=
  if in_range 0x00 0x7F b then (init, [b])
  else if in_range 0xC2 0xDF b then
    ({| code_point := N.land b 0x1F; bytes_seen := 0; bytes_needed := 1;
        lower_boundary := 0x80; upper_boundary := 0xBF |}, [])
  else if in_range 0xE0 0xEF b then
    ({| code_point := N.land b 0xF; bytes_seen := 0; bytes_needed := 2;
        lower_boundary := if (b =? 0xE0)%N then 0xA0 else 0x80;
        upper_boundary := if (b =? 0xED)%N then 0x9F else 0xBF |}, [])
  else if in_range 0xF0 0xF4 b then
    ({| code_point := N.land b 0x7; bytes_seen := 0; bytes_needed := 3;
        lower_boundary := if (b =? 0xF0)%N then 0x90 else 0x80;
        upper_boundary := if (b =? 0xF4)%N then 0x8F else 0xBF |}, [])
  else (init, [REPLACEMENT]).

(** One byte: the new state and the code points it completes.  A byte that
    breaks an open sequence yields U+FFFD and is then read again as a lead. *)
Definition handler (st : state) (b : N) : state * list N :=
  if (bytes_needed st =? 0)%N then lead b
  else if negb (in_range (lower_boundary st) (upper_boundary st) b) then
    let '(st', out) := lead b in (st', REPLACEMENT :: out)
  else
    let cp := N.lor (N.shiftl (code_point st) 6) (N.land b 0x3F) in
    if (bytes_seen st + 1 =? bytes_needed st)%N then (init, [cp])
    else ({| code_point := cp; bytes_seen := bytes_seen st + 1;
             bytes_needed := bytes_needed st;
             lower_boundary := 0x80; upper_boundary := 0xBF |}, []).

Fixpoint run (st : state) (bs : list byte) : state * list N :=
  match bs with
  | [] => (st, [])
  | b :: rest =>
      let '(st1, out1) := handler st (Byte.to_N b) in
      let '(st2, out2) := run st1 rest in
      (st2, out1 ++ out2)
  end.

End Utf8.

(** A code point as UTF-16 code units. *)
Definition utf16 (cp : N) : jsstring :=
  if (cp <? 0x10000)%N then [cp]
  else
    let v := (cp - 0x10000)%N in
    [(0xD800 + N.shiftr v 10)%N; (0xDC00 + N.land v 0x3FF)%N].

(** [decoder.decode(value, { stream: true })]: the decoder keeps its open
    sequence and its "BOM seen" flag from one call to the next. *)
Record TextDecoder := {
  td_utf8 : Utf8.state;
  td_BOM_seen : bool
}.

Definition new_TextDecoder : TextDecoder :=
  {| td_utf8 := Utf8.init; td_BOM_seen := false |}.

(** The standard's "serialize I/O queue": the first code point of the whole
    stream is dropped when it is U+FEFF. *)
Fixpoint serialize (bom_seen : bool) (cps : list N) : bool * jsstring :=
  match cps with
  | [] => (bom_seen, [])
  | cp :: rest =>
      if negb bom_seen && (cp =? 0xFEFF)%N then serialize true rest
      else let '(b, out) := serialize true rest in (b, utf16 cp ++ out)
  end.

Definition decode_stream (d : TextDecoder) (value : list byte)
  : TextDecoder * jsstring :=
  let '(st, cps) := Utf8.run (td_utf8 d) value in
  let '(bom, text) := serialize (td_BOM_seen d) cps in
  ({| td_utf8 := st; td_BOM_seen := bom |}, text).

(** A literal of the source file, from its UTF-8 bytes. *)
Definition js (s : string) : jsstring :=
  flat_map utf16 (snd (Utf8.run Utf8.init (list_byte_of_string s))).

Arguments js : simpl never.

(** ** Values *)

(** What [JSON.parse] and [response.json()] produce, and [undefined].  Numbers
    are the integers; a fractional number is outside the model. *)
Inductive jsval :=
| JUndefined
| JNull
| JBool (b : bool)
| JNum (z : Z)
| JStr (s : jsstring)
| JArr (items : list jsval)
| JObj (fields : list (jsstring * jsval)).

(** ToBoolean. *)
Definition truthy (v : jsval) : bool :=
  match v with
  | JUndefined | JNull => false
  | JBool b => b
  | JNum z => negb (z =? 0)%Z
  | JStr s => match s with [] => false | _ => true end
  | JArr _ | JObj _ => true
  end.

Fixpoint lookup (k : jsstring) (fields : list (jsstring * jsval)) : jsval :=
  match fields with
  | [] => JUndefined
  | (k', v) :: rest => if jsstring_eqb k k' then v else lookup k rest
  end.

(** [v.k] for the property names the program reads: [None] is the TypeError
    of reading a property of [null] or [undefined]. *)
Definition get (v : jsval) (k : jsstring) : option jsval :=
  match v with
  | JUndefined | JNull => None
  | JObj fields => Some (lookup k fields)
  | _ => Some JUndefined
  end.

(** [a || b]. *)
Definition js_or (a b : jsval) : jsval := if truthy a then a else b.

Definition COMMA : jsstring := [44%N].

(** ToString, as template literals, [+] with a string and [textContent] use. *)
Fixpoint ToString (v : jsval) : jsstring :=
  match v with
  | JUndefined => js "undefined"
  | JNull => js "null"
  | JBool true => js "true"
  | JBool false => js "false"
  | JNum z => js (NilZero.string_of_int (Z.to_int z))
  | JStr s => s
  | JArr items =>
      (fix join (l : list jsval) : jsstring :=
         match l with
         | [] => []
         | e :: rest =>
             let here := match e with
                         | JUndefined | JNull => []
                         | _ => ToString e
                         end in
             match rest with
             | [] => here
             | _ => here ++ COMMA ++ join rest
             end
         end) items
  | JObj _ => js "[object Object]"
  end.

(** ** Texts and payloads that markup leaves alone *)

Definition CR : N := 13%N.
Definition NUL : N := 0%N.
Definition LESS_THAN : N := 60%N.

(** A text that comes back as it is when its escaped form is parsed as
    markup: the parser turns a carriage return into a line feed and drops a
    NUL. *)
Definition plain (s : jsstring) : bool :=
  forallb (fun c => negb (c =? CR)%N && negb (c =? NUL)%N) s.

Definition no_markup (s : jsstring) : bool :=
  forallb (fun c => negb (c =? LESS_THAN)%N) s.

(** A payload that written into markup as [JSON.stringify(v)] makes no
    element: none of its strings and none of its keys has a [<], and nothing
    else of the text that [JSON.stringify] gives can have one. *)
Fixpoint inert (v : jsval) : bool :=
  match v with
  | JStr s => no_markup s
  | JArr items =>
      (fix all (l : list jsval) : bool :=
         match l with
         | [] => true
         | e :: rest => inert e && all rest
         end) items
  | JObj fields =>
      (fix all (l : list (jsstring * jsval)) : bool :=
         match l with
         | [] => true
         | (k, e) :: rest => no_markup k && inert e && all rest
         end) fields
  | _ => true
  end.

(** ** Lines of the stream *)

Definition NL : N := 10%N.

(** [s.split('\n')]: never empty. *)
Fixpoint split_nl (s : jsstring) : list jsstring :=
  match s with
  | [] => [[]]
  | c :: rest =>
      if (c =? NL)%N then [] :: split_nl rest
      else match split_nl rest with
           | [] => [[c]]
           | seg :: segs => (c :: seg) :: segs
           end
  end.

(** [lines.pop()]: the array without its last element, and that element. *)
Definition pop {A} (l : list A) : list A * option A :=
  match rev l with
  | [] => ([], None)
  | x :: r => (rev r, Some x)
  end.

Fixpoint startsWith (s prefix : jsstring) : bool :=
  match prefix, s with
  | [], _ => true
  | p :: prefix', c :: s' => (c =? p)%N && startsWith s' prefix'
  | _ :: _, [] => false
  end.

Definition slice (n : nat) (s : jsstring) : jsstring := skipn n s.

Definition DATA_PREFIX : jsstring := Eval vm_compute in js "data: ".

(** ** The read loop of [executeTask]

    The loop is written once over the state [S] that the dispatcher works on,
    so that it can be run on the page and on a plain list of records. *)

Section Reader.

Variable JSON_parse : jsstring -> option jsval.

Variable S : Type.
(** [this.handleStepResult(data)]; [None] when it throws. *)
Variable handleStepResult : jsval -> S -> option S.
(** [console.error('解析失败:', e)]. *)
Variable console_error : S -> S.

(** The body of [for (const line of lines)]. *)
Definition process_line (s : S) (line : jsstring) : S :=
  if startsWith line DATA_PREFIX then
    match JSON_parse (slice 6 line) with
    | Some data =>
        match handleStepResult data s with
        | Some s' => s'
        | None => console_error s
        end
    | None => console_error s
    end
  else s.

Record reader := {
  rd_decoder : TextDecoder;
  rd_buffer : jsstring;
  rd_sink : S
}.

Definition new_reader (s : S) : reader :=
  {| rd_decoder := new_TextDecoder; rd_buffer := []; rd_sink := s |}.

(** One turn of [while (true)] for a chunk [value] with [done] false. *)
Definition read_chunk (r : reader) (value : list byte) : reader :=
  let '(d, text) := decode_stream (rd_decoder r) value in
  let buffer := rd_buffer r ++ text in
  let '(lines, last) := pop (split_nl buffer) in
  {| rd_decoder := d;
     rd_buffer := match last with Some s => s | None => [] end;
     rd_sink := fold_left process_line lines (rd_sink r) |}.

Definition read_loop (r : reader) (chunks : list (list byte)) : reader :=
  fold_left read_chunk chunks r.

End Reader.

(** Reading a text one code unit at a time, from the open line [cur]: the
    lines completed on the way and the line left open. *)
Fixpoint scan_lines (cur : jsstring) (text : jsstring)
  : list jsstring * jsstring :=
  match text with
  | [] => ([], cur)
  | c :: rest =>
      if (c =? NL)%N then
        let '(lines, last) := scan_lines [] rest in (cur :: lines, last)
      else scan_lines (cur ++ [c]) rest
  end.

(** The records handed to the dispatcher, in the order of the calls. *)
Definition stream_records (JSON_parse : jsstring -> option jsval)
  (chunks : list (list byte)) : list jsval :=
  rd_sink (read_loop JSON_parse (fun data acc => Some (acc ++ [data]))
             (fun acc => acc) (new_reader []) chunks).

(** The record of one complete line, when it has one. *)
Definition line_record (JSON_parse : jsstring -> option jsval)
  (line : jsstring) : option jsval :=
  if startsWith line DATA_PREFIX then JSON_parse (slice 6 line) else None.

Fixpoint omap {A B} (f : A -> option B) (l : list A) : list B :=
  match l with
  | [] => []
  | x :: rest => match f x with
                 | Some y => y :: omap f rest
                 | None => omap f rest
                 end
  end.

(** The text a one-shot decoder makes of the whole body. *)
Definition decode_all (bytes : list byte) : jsstring :=
  snd (decode_stream new_TextDecoder bytes).

Definition terminated (lines : list jsstring) : jsstring :=
  flat_map (fun l => l ++ [NL]) lines.

(** ** The bytes of a text *)

Definition byte_of_N (n : N) : byte :=
  match Byte.of_N n with Some b => b | None => x00 end.

(** Modelled from the spec: the encoder of the server, which is not among
    the sources; the body is "a live sequence of UTF-8 text fragments"
    (section 6).  The UTF-8 bytes of one code point, a Unicode scalar value. *)
Definition utf8_encode_cp (cp : N) : list byte :=
  map byte_of_N
    (if (cp <? 0x80)%N then [cp]
     else if (cp <? 0x800)%N then
       [N.lor 0xC0 (N.shiftr cp 6); N.lor 0x80 (N.land cp 0x3F)]
     else if (cp <? 0x10000)%N then
       [N.lor 0xE0 (N.shiftr cp 12);
        N.lor 0x80 (N.land (N.shiftr cp 6) 0x3F);
        N.lor 0x80 (N.land cp 0x3F)]
     else
       [N.lor 0xF0 (N.shiftr cp 18);
        N.lor 0x80 (N.land (N.shiftr cp 12) 0x3F);
        N.lor 0x80 (N.land (N.shiftr cp 6) 0x3F);
        N.lor 0x80 (N.land cp 0x3F)]).

Definition utf8_encode (cps : list N) : list byte :=
  flat_map utf8_encode_cp cps.

Definition scalar_value (cp : N) : Prop :=
  (cp < 0xD800 \/ (0xE000 <= cp /\ cp < 0x110000))%N.

Definition BOM : N := 0xFEFF%N.

(** The lines as the reader sees them: a byte order mark that opens the body
    is not part of the first line. *)
Definition drop_BOM (lines : list (list N)) : list (list N) :=
  match lines with
  | (cp :: l) :: rest => if (cp =? BOM)%N then l :: rest else lines
  | _ => lines
  end.

(** A line of code points as a string. *)
Definition utf16_string (cps : list N) : jsstring := flat_map utf16 cps.

(** The decoder in the middle of a sequence whose lead byte set no special
    bounds. *)
Definition open_state (cp seen needed : N) : Utf8.state :=
  {| Utf8.code_point := cp; Utf8.bytes_seen := seen;
     Utf8.bytes_needed := needed;
     Utf8.lower_boundary := 0x80; Utf8.upper_boundary := 0xBF |}.

(** The code points of a literal. *)
Definition code_points (s : string) : list N :=
  snd (Utf8.run Utf8.init (list_byte_of_string s)).

(** ** The page, the object and the browser *)

(** The callback handed to [setInterval]. *)
Inductive timer_kind := ScreenRefreshTimer | WirelessPollTimer.

Definition timer_kind_eqb (a b : timer_kind) : bool :=
  match a, b with
  | ScreenRefreshTimer, ScreenRefreshTimer => true
  | WirelessPollTimer, WirelessPollTimer => true
  | _, _ => false
  end.

(** What leaves the page.  [Fetch] carries the object handed to
    [JSON.stringify] for the body, [JUndefined] when there is none. *)
Inductive effect :=
| Fetch (method url : jsstring) (body : jsval)
| Toast (message type : jsstring)
| ConsoleError (label : jsstring).

(** The children of [chatContainer].  A system message keeps the payload of
    its [action-code] element and the two texts of its debug panel.  The
    payload is written into the markup unescaped, so a node stands for the
    element only when its payload is [inert]: markup in a payload would make
    elements of its own inside the message, which [querySelector] finds like
    any other. *)
Inductive chat_node :=
| WelcomeMessage
| Message (role content : jsstring)
| SystemMessage (type text : jsstring) (action : option jsval)
    (debug : option (jsstring * jsstring))
| ThinkingMessage (text : jsstring).

(** The fields set in the constructor; a timer handle is a positive integer,
    [null] is [None]. *)
Record App := {
  isConnected : bool;
  isExecuting : bool;
  screenRefreshInterval : option positive;
  wirelessPollingInterval : option positive
}.

Record ChatPanel := {
  messageInput_value : jsstring;
  messageInput_disabled : bool;
  btnSend_hidden : bool;
  btnStop_hidden : bool;
  chatContainer : list chat_node
}.

Record DevicePanel := {
  deviceScreen_src : jsstring;
  deviceScreen_hidden : bool;
  statusDot_connected : bool;
  deviceInfo_text : jsstring;
  loadingOverlay_hidden : bool;
  loading_text : jsstring
}.

Record ConnectModal := {
  connectModal_hidden : bool;
  deviceSerial_value : jsstring;
  wirelessIdle_hidden : bool;
  wirelessPairing_hidden : bool;
  wirelessSuccess_hidden : bool;
  wirelessQRCode_src : jsstring;
  wirelessStatus_message : jsstring;
  wirelessStatus_className : jsstring;
  wirelessStatus_icon : jsstring;
  wirelessDevice_text : jsstring
}.

(** The live interval timers, the next handle and the effects so far. *)
Record Browser := {
  timers : list (positive * timer_kind);
  next_timer : positive;
  effects : list effect
}.

Record World := {
  app : App;
  chat : ChatPanel;
  device : DevicePanel;
  modal : ConnectModal;
  browser : Browser
}.

Definition upd_app (f : App -> App) (w : World) : World :=
  {| app := f (app w); chat := chat w; device := device w;
     modal := modal w; browser := browser w |}.
Definition upd_chat (f : ChatPanel -> ChatPanel) (w : World) : World :=
  {| app := app w; chat := f (chat w); device := device w;
     modal := modal w; browser := browser w |}.
Definition upd_device (f : DevicePanel -> DevicePanel) (w : World) : World :=
  {| app := app w; chat := chat w; device := f (device w);
     modal := modal w; browser := browser w |}.
Definition upd_modal (f : ConnectModal -> ConnectModal) (w : World) : World :=
  {| app := app w; chat := chat w; device := device w;
     modal := f (modal w); browser := browser w |}.
Definition upd_browser (f : Browser -> Browser) (w : World) : World :=
  {| app := app w; chat := chat w; device := device w;
     modal := modal w; browser := f (browser w) |}.

Definition set_isConnected (v : bool) : World -> World :=
  upd_app (fun a =>
    {| isConnected := v; isExecuting := isExecuting a;
       screenRefreshInterval := screenRefreshInterval a;
       wirelessPollingInterval := wirelessPollingInterval a |}).
Definition set_isExecuting (v : bool) : World -> World :=
  upd_app (fun a =>
    {| isConnected := isConnected a; isExecuting := v;
       screenRefreshInterval := screenRefreshInterval a;
       wirelessPollingInterval := wirelessPollingInterval a |}).
Definition set_screenRefreshInterval (v : option positive) : World -> World :=
  upd_app (fun a =>
    {| isConnected := isConnected a; isExecuting := isExecuting a;
       screenRefreshInterval := v;
       wirelessPollingInterval := wirelessPollingInterval a |}).
Definition set_wirelessPollingInterval (v : option positive) : World -> World :=
  upd_app (fun a =>
    {| isConnected := isConnected a; isExecuting := isExecuting a;
       screenRefreshInterval := screenRefreshInterval a;
       wirelessPollingInterval := v |}).

Definition set_messageInput_value (v : jsstring) : World -> World :=
  upd_chat (fun c =>
    {| messageInput_value := v;
       messageInput_disabled := messageInput_disabled c;
       btnSend_hidden := btnSend_hidden c; btnStop_hidden := btnStop_hidden c;
       chatContainer := chatContainer c |}).
(** The three lines of either branch of [setExecutingState]. *)
Definition set_input_controls (send_hidden stop_hidden disabled : bool)
  : World -> World :=
  upd_chat (fun c =>
    {| messageInput_value := messageInput_value c;
       messageInput_disabled := disabled;
       btnSend_hidden := send_hidden; btnStop_hidden := stop_hidden;
       chatContainer := chatContainer c |}).
Definition upd_chatContainer (f : list chat_node -> list chat_node)
  : World -> World :=
  upd_chat (fun c =>
    {| messageInput_value := messageInput_value c;
       messageInput_disabled := messageInput_disabled c;
       btnSend_hidden := btnSend_hidden c; btnStop_hidden := btnStop_hidden c;
       chatContainer := f (chatContainer c) |}).

Definition set_deviceScreen_src (v : jsstring) : World -> World :=
  upd_device (fun d =>
    {| deviceScreen_src := v; deviceScreen_hidden := deviceScreen_hidden d;
       statusDot_connected := statusDot_connected d;
       deviceInfo_text := deviceInfo_text d;
       loadingOverlay_hidden := loadingOverlay_hidden d;
       loading_text := loading_text d |}).
Definition set_deviceScreen_hidden (v : bool) : World -> World :=
  upd_device (fun d =>
    {| deviceScreen_src := deviceScreen_src d; deviceScreen_hidden := v;
       statusDot_connected := statusDot_connected d;
       deviceInfo_text := deviceInfo_text d;
       loadingOverlay_hidden := loadingOverlay_hidden d;
       loading_text := loading_text d |}).
Definition set_statusDot_connected (v : bool) : World -> World :=
  upd_device (fun d =>
    {| deviceScreen_src := deviceScreen_src d;
       deviceScreen_hidden := deviceScreen_hidden d;
       statusDot_connected := v;
       deviceInfo_text := deviceInfo_text d;
       loadingOverlay_hidden := loadingOverlay_hidden d;
       loading_text := loading_text d |}).
Definition set_deviceInfo_text (v : jsstring) : World -> World :=
  upd_device (fun d =>
    {| deviceScreen_src := deviceScreen_src d;
       deviceScreen_hidden := deviceScreen_hidden d;
       statusDot_connected := statusDot_connected d;
       deviceInfo_text := v;
       loadingOverlay_hidden := loadingOverlay_hidden d;
       loading_text := loading_text d |}).
Definition set_loadingOverlay_hidden (v : bool) : World -> World :=
  upd_device (fun d =>
    {| deviceScreen_src := deviceScreen_src d;
       deviceScreen_hidden := deviceScreen_hidden d;
       statusDot_connected := statusDot_connected d;
       deviceInfo_text := deviceInfo_text d;
       loadingOverlay_hidden := v;
       loading_text := loading_text d |}).
Definition set_loading_text (v : jsstring) : World -> World :=
  upd_device (fun d =>
    {| deviceScreen_src := deviceScreen_src d;
       deviceScreen_hidden := deviceScreen_hidden d;
       statusDot_connected := statusDot_connected d;
       deviceInfo_text := deviceInfo_text d;
       loadingOverlay_hidden := loadingOverlay_hidden d;
       loading_text := v |}).

Definition set_connectModal_hidden (v : bool) : World -> World :=
  upd_modal (fun m =>
    {| connectModal_hidden := v; deviceSerial_value := deviceSerial_value m;
       wirelessIdle_hidden := wirelessIdle_hidden m;
       wirelessPairing_hidden := wirelessPairing_hidden m;
       wirelessSuccess_hidden := wirelessSuccess_hidden m;
       wirelessQRCode_src := wirelessQRCode_src m;
       wirelessStatus_message := wirelessStatus_message m;
       wirelessStatus_className := wirelessStatus_className m;
       wirelessStatus_icon := wirelessStatus_icon m;
       wirelessDevice_text := wirelessDevice_text m |}).
Definition set_deviceSerial_value (v : jsstring) : World -> World :=
  upd_modal (fun m =>
    {| connectModal_hidden := connectModal_hidden m;
       deviceSerial_value := v;
       wirelessIdle_hidden := wirelessIdle_hidden m;
       wirelessPairing_hidden := wirelessPairing_hidden m;
       wirelessSuccess_hidden := wirelessSuccess_hidden m;
       wirelessQRCode_src := wirelessQRCode_src m;
       wirelessStatus_message := wirelessStatus_message m;
       wirelessStatus_className := wirelessStatus_className m;
       wirelessStatus_icon := wirelessStatus_icon m;
       wirelessDevice_text := wirelessDevice_text m |}).
(** The [hidden] class of the three wireless panels. *)
Definition set_wireless_panels (idle pairing success : bool) : World -> World :=
  upd_modal (fun m =>
    {| connectModal_hidden := connectModal_hidden m;
       deviceSerial_value := deviceSerial_value m;
       wirelessIdle_hidden := idle;
       wirelessPairing_hidden := pairing;
       wirelessSuccess_hidden := success;
       wirelessQRCode_src := wirelessQRCode_src m;
       wirelessStatus_message := wirelessStatus_message m;
       wirelessStatus_className := wirelessStatus_className m;
       wirelessStatus_icon := wirelessStatus_icon m;
       wirelessDevice_text := wirelessDevice_text m |}).
Definition set_wirelessQRCode_src (v : jsstring) : World -> World :=
  upd_modal (fun m =>
    {| connectModal_hidden := connectModal_hidden m;
       deviceSerial_value := deviceSerial_value m;
       wirelessIdle_hidden := wirelessIdle_hidden m;
       wirelessPairing_hidden := wirelessPairing_hidden m;
       wirelessSuccess_hidden := wirelessSuccess_hidden m;
       wirelessQRCode_src := v;
       wirelessStatus_message := wirelessStatus_message m;
       wirelessStatus_className := wirelessStatus_className m;
       wirelessStatus_icon := wirelessStatus_icon m;
       wirelessDevice_text := wirelessDevice_text m |}).
Definition set_wirelessStatus (message className icon : jsstring)
  : World -> World :=
  upd_modal (fun m =>
    {| connectModal_hidden := connectModal_hidden m;
       deviceSerial_value := deviceSerial_value m;
       wirelessIdle_hidden := wirelessIdle_hidden m;
       wirelessPairing_hidden := wirelessPairing_hidden m;
       wirelessSuccess_hidden := wirelessSuccess_hidden m;
       wirelessQRCode_src := wirelessQRCode_src m;
       wirelessStatus_message := message;
       wirelessStatus_className := className;
       wirelessStatus_icon := icon;
       wirelessDevice_text := wirelessDevice_text m |}).
Definition set_wirelessDevice_text (v : jsstring) : World -> World :=
  upd_modal (fun m =>
    {| connectModal_hidden := connectModal_hidden m;
       deviceSerial_value := deviceSerial_value m;
       wirelessIdle_hidden := wirelessIdle_hidden m;
       wirelessPairing_hidden := wirelessPairing_hidden m;
       wirelessSuccess_hidden := wirelessSuccess_hidden m;
       wirelessQRCode_src := wirelessQRCode_src m;
       wirelessStatus_message := wirelessStatus_message m;
       wirelessStatus_className := wirelessStatus_className m;
       wirelessStatus_icon := wirelessStatus_icon m;
       wirelessDevice_text := v |}).

Definition perform (e : effect) : World -> World :=
  upd_browser (fun b =>
    {| timers := timers b; next_timer := next_timer b;
       effects := effects b ++ [e] |}).

(** [setInterval(callback, ms)]: a fresh handle, now live. *)
Definition setInterval (k : timer_kind) (w : World) : positive * World :=
  let id := next_timer (browser w) in
  (id, upd_browser (fun b =>
         {| timers := timers b ++ [(id, k)]; next_timer := Pos.succ id;
            effects := effects b |}) w).

Definition clearInterval (id : positive) : World -> World :=
  upd_browser (fun b =>
    {| timers := filter (fun t => negb (Pos.eqb (fst t) id)) (timers b);
       next_timer := next_timer b; effects := effects b |}).

(** The handles of the live timers that run the callback [k]. *)
Definition live (k : timer_kind) (w : World) : list positive :=
  map fst (filter (fun t => timer_kind_eqb (snd t) k) (timers (browser w))).

(** What an awaited request comes back with: [await fetch(...)] followed by
    [await response.json()] either throws an error with a message or yields
    the parsed body. *)
Inductive reply :=
| Rejected (message : jsstring)
| Resolved (data : jsval).

(** How the body of [/api/chat/execute] ends: [reader.read()] reports [done],
    or rejects. *)
Inductive stream_end :=
| EndOfStream
| ReadFailed (message : jsstring).

Inductive execute_reply :=
| FetchFailed (message : jsstring)
| Body (chunks : list (list byte)) (fin : stream_end).

(** ** Small helpers of the language *)

(** [v.k] where [v] cannot be [null]. *)
Definition prop (v : jsval) (k : string) : jsval :=
  match get v (js k) with
  | Some x => x
  | None => JUndefined
  end.

(** [v === 'literal']. *)
Definition is_string (v : jsval) (literal : string) : bool :=
  match v with
  | JStr s => jsstring_eqb s (js literal)
  | _ => false
  end.

(** The text an element shows after [element.textContent = v]. *)
Definition textContent_of (v : jsval) : jsstring :=
  match v with
  | JUndefined | JNull => []
  | _ => ToString v
  end.

(** WhiteSpace and LineTerminator of the language. *)
Definition is_whitespace (c : N) : bool :=
  existsb (N.eqb c)
    [0x09; 0x0A; 0x0B; 0x0C; 0x0D; 0x20; 0xA0; 0x1680; 0x2028; 0x2029;
     0x202F; 0x205F; 0x3000; 0xFEFF]%N
  || Utf8.in_range 0x2000 0x200A c.

Fixpoint trimStart (s : jsstring) : jsstring :=
  match s with
  | [] => []
  | c :: rest => if is_whitespace c then trimStart rest else s
  end.

Definition trim (s : jsstring) : jsstring :=
  rev (trimStart (rev (trimStart s))).

Definition is_empty (s : jsstring) : bool :=
  match s with [] => true | _ => false end.

Definition is_thinking (n : chat_node) : bool :=
  match n with ThinkingMessage _ => true | _ => false end.

Definition is_welcome (n : chat_node) : bool :=
  match n with WelcomeMessage => true | _ => false end.

(** A chat in which no payload has made an element: the elements of class
    [thinking-message] and [welcome-message] are then children of the
    container, and the search of [querySelector] through all descendants
    comes to a search of the list. *)
Definition inert_node (n : chat_node) : bool :=
  match n with
  | SystemMessage _ _ (Some action) _ => inert action
  | _ => true
  end.

Definition inert_chat (l : list chat_node) : bool := forallb inert_node l.

(** [container.querySelector(sel)] followed by [.remove()] when found. *)
Fixpoint remove_first (p : chat_node -> bool) (l : list chat_node)
  : list chat_node :=
  match l with
  | [] => []
  | n :: rest => if p n then rest else n :: remove_first p rest
  end.

(** The first thinking message gets a new text. *)
Fixpoint retext_first_thinking (text : jsstring) (l : list chat_node)
  : list chat_node :=
  match l with
  | [] => []
  | n :: rest =>
      if is_thinking n then ThinkingMessage text :: rest
      else n :: retext_first_thinking text rest
  end.

(** ** The methods of [AIPhoneAssistant] *)

Section Assistant.

Variable JSON_parse : jsstring -> option jsval.
(** [error.message] of the TypeError raised by a property read on [null]. *)
Variable TypeError_message : jsstring.

Definition showToast (message type : jsstring) : World -> World :=
  perform (Toast message type).

Definition console_error (label : string) : World -> World :=
  perform (ConsoleError (js label)).

Definition showLoading (text : jsstring) (w : World) : World :=
  set_loadingOverlay_hidden false (set_loading_text text w).

Definition hideLoading : World -> World := set_loadingOverlay_hidden true.

Definition stopWirelessPolling (w : World) : World :=
  match wirelessPollingInterval (app w) with
  | Some id => set_wirelessPollingInterval None (clearInterval id w)
  | None => w
  end.

Definition startWirelessPolling (w : World) : World :=
  let w := stopWirelessPolling w in
  let '(id, w) := setInterval WirelessPollTimer w in
  set_wirelessPollingInterval (Some id) w.

Definition hideConnectModal (w : World) : World :=
  stopWirelessPolling (set_connectModal_hidden true w).

Definition resetWirelessUI (w : World) : World :=
  let w := set_wireless_panels false true true w in
  set_wirelessStatus (wirelessStatus_message (modal w))
    (js "wireless-status") (wirelessStatus_icon (modal w)) w.

Definition updateWirelessStatus (message type : jsstring) (w : World)
  : World :=
  let icon :=
    if jsstring_eqb type (js "pairing") then js "⏳"
    else if jsstring_eqb type (js "success") then js "✅"
    else if jsstring_eqb type (js "error") then js "❌"
    else wirelessStatus_icon (modal w) in
  set_wirelessStatus message (js "wireless-status " ++ type) icon w.

Definition showWirelessSuccess (ip port : jsval) (w : World) : World :=
  let w := set_wireless_panels (wirelessIdle_hidden (modal w)) true false w in
  set_wirelessDevice_text
    (js "设备地址: " ++ ToString ip ++ js ":" ++ ToString port) w.

Definition refreshScreen (shot : reply) (w : World) : World :=
  if negb (isConnected (app w)) then
    showToast (js "请先连接设备") (js "warning") w
  else
    let w := perform (Fetch (js "GET") (js "/api/device/screenshot")
                        JUndefined) w in
    match shot with
    | Rejected _ => console_error "刷新截图失败:" w
    | Resolved data =>
        match get data (js "success") with
        | None => console_error "刷新截图失败:" w
        | Some ok =>
            if truthy ok then
              set_deviceScreen_src (ToString (prop data "data")) w
            else w
        end
    end.

Definition startScreenRefresh (shot : reply) (w : World) : World :=
  let w := refreshScreen shot w in
  let '(id, w) := setInterval ScreenRefreshTimer w in
  set_screenRefreshInterval (Some id) w.

Definition stopScreenRefresh (w : World) : World :=
  match screenRefreshInterval (app w) with
  | Some id => set_screenRefreshInterval None (clearInterval id w)
  | None => w
  end.

(** The callback of the timer started by [startScreenRefresh]. *)
Definition screenRefreshTick (shot : reply) (w : World) : World :=
  if negb (isExecuting (app w)) then refreshScreen shot w else w.

Definition updateConnectionStatus (connected : bool) (info : jsval)
  (w : World) : World :=
  if connected then
    let w := set_statusDot_connected true w in
    if truthy info then
      set_deviceInfo_text
        (ToString (prop info "brand") ++ js " " ++ ToString (prop info "model"))
        w
    else w
  else set_deviceInfo_text [] (set_statusDot_connected false w).

Definition showScreen : World -> World := set_deviceScreen_hidden false.

Definition connectWirelessDevice (ip port : jsval) (connect shot : reply)
  (w : World) : World :=
  let serial := ToString ip ++ js ":" ++ ToString port in
  let w := hideConnectModal w in
  let w := showLoading (js "正在连接无线设备...") w in
  let w := perform (Fetch (js "POST") (js "/api/device/connect")
                      (JObj [(js "serial", JStr serial)])) w in
  let w :=
    match connect with
    | Rejected m => showToast (js "连接失败: " ++ m) (js "error") w
    | Resolved data =>
        match get data (js "success") with
        | None =>
            showToast (js "连接失败: " ++ TypeError_message) (js "error") w
        | Some ok =>
            if truthy ok then
              let w := set_isConnected true w in
              let w := updateConnectionStatus true (prop data "data") w in
              let w := showScreen w in
              let w := startScreenRefresh shot w in
              showToast (js "无线设备连接成功！") (js "success") w
            else
              showToast
                (textContent_of
                   (js_or (prop data "message") (JStr (js "连接失败"))))
                (js "error") w
        end
    end in
  hideLoading w.

Definition connectDevice (connect shot : reply) (w : World) : World :=
  let serial := trim (deviceSerial_value (modal w)) in
  if is_empty serial then
    showToast (js "请先选择一个设备") (js "warning") w
  else
    let w := hideConnectModal w in
    let w := showLoading (js "正在连接设备...") w in
    let w := perform (Fetch (js "POST") (js "/api/device/connect")
                        (JObj [(js "serial", JStr serial)])) w in
    let w :=
      match connect with
      | Rejected m => showToast (js "连接失败: " ++ m) (js "error") w
      | Resolved data =>
          match get data (js "success") with
          | None =>
              showToast (js "连接失败: " ++ TypeError_message) (js "error")
                w
          | Some ok =>
              if truthy ok then
                let w := set_isConnected true w in
                let w := updateConnectionStatus true (prop data "data") w in
                let w := showScreen w in
                let w := startScreenRefresh shot w in
                showToast (js "设备连接成功！") (js "success") w
              else
                showToast
                  (textContent_of
                     (js_or (prop data "message") (JStr (js "连接失败"))))
                  (js "error") w
          end
      end in
    hideLoading w.

(** [None] when the method throws, which it does on [data.status] alone. *)
Definition handleWirelessStatus (data : jsval) (connect shot : reply)
  (w : World) : option World :=
  match get data (js "status") with
  | None => None
  | Some status =>
      let message := js_or (prop data "message") (JStr []) in
      Some
        (if is_string status "waiting_scan" then
           updateWirelessStatus (js "请使用手机扫描二维码") (js "pairing")
             w
         else if is_string status "pairing" then
           updateWirelessStatus (js "正在配对...") (js "pairing") w
         else if is_string status "pair_success" then
           updateWirelessStatus (js "配对成功，等待连接...") (js "pairing")
             w
         else if is_string status "connecting" then
           updateWirelessStatus (js "正在连接设备...") (js "pairing") w
         else if is_string status "connected" then
           let w := stopWirelessPolling w in
           let w := showWirelessSuccess (prop data "device_ip")
                      (prop data "device_port") w in
           connectWirelessDevice (prop data "device_ip")
             (prop data "device_port") connect shot w
         else if is_string status "pair_failed"
                 || is_string status "connect_failed"
                 || is_string status "error" then
           updateWirelessStatus
             (textContent_of (js_or message (JStr (js "操作失败"))))
             (js "error") w
         else if is_string status "timeout" then
           let w := updateWirelessStatus (js "配对超时，请重试")
                      (js "error") w in
           stopWirelessPolling w
         else w)
  end.

(** The callback of the timer started by [startWirelessPolling]; [connect]
    and [shot] answer the requests made when the status is [connected]. *)
Definition wirelessPollTick (status connect shot : reply) (w : World)
  : World :=
  let w := perform (Fetch (js "GET") (js "/api/device/wireless/status")
                      JUndefined) w in
  match status with
  | Rejected _ => console_error "获取状态失败:" w
  | Resolved data =>
      match get data (js "success") with
      | None => console_error "获取状态失败:" w
      | Some ok =>
          if truthy ok then
            match handleWirelessStatus data connect shot w with
            | Some w' => w'
            | None => console_error "获取状态失败:" w
            end
          else w
      end
  end.

Definition startWirelessPairing (start : reply) (w : World) : World :=
  let w := set_wireless_panels true false true w in
  let w := updateWirelessStatus (js "等待服务启动...") (js "pairing") w in
  let w := perform (Fetch (js "POST") (js "/api/device/wireless/start")
                      (JObj [(js "timeout", JNum 120)])) w in
  match start with
  | Rejected m =>
      updateWirelessStatus (js "启动配对服务失败: " ++ m) (js "error") w
  | Resolved data =>
      match get data (js "success") with
      | None =>
          updateWirelessStatus
            (js "启动配对服务失败: " ++ TypeError_message) (js "error") w
      | Some ok =>
          if truthy ok then
            let w := set_wirelessQRCode_src
                       (ToString (prop data "qr_code")) w in
            let w := updateWirelessStatus (js "请使用手机扫描二维码")
                       (js "pairing") w in
            startWirelessPolling w
          else
            updateWirelessStatus
              (textContent_of
                 (js_or (prop data "message") (JStr (js "启动失败"))))
              (js "error") w
      end
  end.

Definition stopWirelessPairing (stop : reply) (w : World) : World :=
  let w := stopWirelessPolling w in
  let w := perform (Fetch (js "POST") (js "/api/device/wireless/stop")
                      JUndefined) w in
  let w := match stop with
           | Rejected _ => console_error "停止配对失败:" w
           | Resolved _ => w
           end in
  resetWirelessUI w.

Definition setExecutingState (executing : bool) (w : World) : World :=
  let w := set_isExecuting executing w in
  if executing then set_input_controls true false true w
  else set_input_controls false true false w.

(** The text that [escapeHtml(text)] makes an element show.  The escaped text
    is parsed as markup again by [innerHTML]; that gives the text back when
    it is [plain], and the model is of such texts. *)
Definition escapeHtml (text : jsval) : jsstring :=
  if truthy text then ToString text else [].

Definition addMessage (role : jsstring) (content : jsval) : World -> World :=
  upd_chatContainer (fun l => l ++ [Message role (escapeHtml content)]).

(** [addSystemMessage]: the payload goes into the markup as
    [JSON.stringify(action)], unescaped; the node keeps the value, and stands
    for the element when the value is [inert].  The [id] of the debug panel,
    made of the time of the call, is not kept. *)
Definition addSystemMessage (message : jsval) (type : jsstring)
  (action debug : jsval) : World -> World :=
  let node :=
    SystemMessage type (escapeHtml message)
      (if truthy action then Some action else None)
      (if truthy debug then
         Some (escapeHtml (js_or (prop debug "user_message") (JStr [])),
               escapeHtml (js_or (prop debug "raw_response") (JStr [])))
       else None) in
  upd_chatContainer (fun l => l ++ [node]).

(** [updateOrAddThinking] and [removeThinking] look for the first element of
    class [thinking-message] below the container; on an [inert_chat] that is
    the first placeholder of the list.  An existing placeholder gets the
    message as its [textContent], a new one gets it through [escapeHtml]. *)
Definition updateOrAddThinking (message : jsval) (w : World) : World :=
  if existsb is_thinking (chatContainer (chat w)) then
    upd_chatContainer (retext_first_thinking (textContent_of message)) w
  else
    upd_chatContainer (fun l => l ++ [ThinkingMessage (escapeHtml message)]) w.

Definition removeThinking : World -> World :=
  upd_chatContainer (remove_first is_thinking).

(** The [switch (data.type)] of [handleStepResult], for [data] that is not
    [null]. *)
Definition render_step (data : jsval) (w : World) : World :=
  let type := prop data "type" in
  let message := prop data "message" in
  if is_string type "start" || is_string type "info"
     || is_string type "update" then
    addSystemMessage message (js "info") JNull JNull w
  else if is_string type "thinking" then
    updateOrAddThinking message w
  else if is_string type "action" then
    let w := removeThinking w in
    addSystemMessage message (js "action") (prop data "action")
      (prop data "debug") w
  else if is_string type "done" then
    addSystemMessage message (js "success") JNull JNull w
  else if is_string type "completed" then
    addSystemMessage message (js "success") JNull (prop data "debug") w
  else if is_string type "failed" || is_string type "error" then
    let w := removeThinking w in
    addSystemMessage message (js "error") JNull (prop data "debug") w
  else if is_string type "stopped" then
    let w := removeThinking w in
    addSystemMessage message (js "warning") JNull JNull w
  else if is_string type "warning" then
    addSystemMessage message (js "warning") JNull JNull w
  else w.

(** [None] when the method throws, which it does on [data.screenshot] of
    [null] alone. *)
Definition handleStepResult (data : jsval) (w : World) : option World :=
  match get data (js "screenshot") with
  | None => None
  | Some screenshot =>
      let w := if truthy screenshot
               then set_deviceScreen_src (ToString screenshot) w
               else w in
      Some (render_step data w)
  end.

(** The body of [for (const line of lines)] on the page. *)
Definition page_line : World -> jsstring -> World :=
  process_line JSON_parse handleStepResult (console_error "解析失败:").

(** The [try] block of [executeTask] with its [catch]. *)
Definition run_stream (task : jsstring) (net : execute_reply) (w : World)
  : World :=
  let w := perform (Fetch (js "POST") (js "/api/chat/execute")
                      (JObj [(js "task", JStr task)])) w in
  match net with
  | FetchFailed m =>
      addSystemMessage (JStr (js "❌ 执行出错: " ++ m)) (js "error")
        JNull JNull w
  | Body chunks fin =>
      let r := read_loop JSON_parse handleStepResult
                 (console_error "解析失败:") (new_reader w) chunks in
      match fin with
      | EndOfStream => rd_sink r
      | ReadFailed m =>
          addSystemMessage (JStr (js "❌ 执行出错: " ++ m)) (js "error")
            JNull JNull (rd_sink r)
      end
  end.

Definition executeTask (net : execute_reply) (shot : reply) (w : World)
  : World :=
  let task := trim (messageInput_value (chat w)) in
  if is_empty task then w
  else if negb (isConnected (app w)) then
    showToast (js "请先连接设备") (js "warning") w
  else if isExecuting (app w) then
    showToast (js "正在执行中...") (js "warning") w
  else
    let w := set_messageInput_value [] w in
    let w := upd_chatContainer (remove_first is_welcome) w in
    let w := addMessage (js "user") (JStr task) w in
    let w := setExecutingState true w in
    let w := run_stream task net w in
    let w := setExecutingState false w in
    refreshScreen shot w.

End Assistant.

(** A world for the examples: the fields as the constructor sets them, on a
    page that shows the welcome message and no device. *)
Definition initial_World : World :=
  {| app := {| isConnected := false; isExecuting := false;
               screenRefreshInterval := None;
               wirelessPollingInterval := None |};
     chat := {| messageInput_value := []; messageInput_disabled := false;
                btnSend_hidden := false; btnStop_hidden := true;
                chatContainer := [WelcomeMessage] |};
     device := {| deviceScreen_src := []; deviceScreen_hidden := true;
                  statusDot_connected := false; deviceInfo_text := [];
                  loadingOverlay_hidden := true; loading_text := [] |};
     modal := {| connectModal_hidden := true; deviceSerial_value := [];
                 wirelessIdle_hidden := false; wirelessPairing_hidden := true;
                 wirelessSuccess_hidden := true; wirelessQRCode_src := [];
                 wirelessStatus_message := [];
                 wirelessStatus_className := js "wireless-status";
                 wirelessStatus_icon := []; wirelessDevice_text := [] |};
     browser := {| timers := []; next_timer := 1%positive; effects := [] |} |}.

(** A stand-in for [JSON.parse] in the examples: a text that opens with a
    brace is an [info] record carrying the text, anything else is a syntax
    error. *)
Definition sample_parse (s : jsstring) : option jsval :=
  match s with
  | 123%N :: _ =>
      Some (JObj [(js "type", JStr (js "info")); (js "message", JStr s)])
  | _ => None
  end.

(** The placeholders among the children of [chatContainer]. *)
Definition thinking_nodes (l : list chat_node) : list chat_node :=
  filter is_thinking l.

Definition is_fetch (e : effect) : bool :=
  match e with Fetch _ _ _ => true | _ => false end.

(** A request to [/api/device/connect]. *)
Definition is_connect_request (e : effect) : bool :=
  match e with
  | Fetch _ url _ => jsstring_eqb url (js "/api/device/connect")
  | _ => false
  end.

(** Every live poll timer is the one whose handle the object holds. *)
Definition poll_tracked (w : World) : Prop :=
  live WirelessPollTimer w =
  match wirelessPollingInterval (app w) with
  | Some id => [id]
  | None => []
  end.

(** The poll timer and its handle are in [w'] what they are in [w]. *)
Definition same_poll (w w' : World) : Prop :=
  live WirelessPollTimer w' = live WirelessPollTimer w /\
  wirelessPollingInterval (app w') = wirelessPollingInterval (app w).

(** The lines that [connectDevice] and [connectWirelessDevice] have in
    common, from [hideConnectModal] on; the two differ in the serial, in the
    text of the overlay and in the text of the success toast. *)
Definition connect_sequence (TypeError_message : jsstring)
  (serial loading success : jsstring) (connect shot : reply) (w : World)
  : World :=
  let w := hideConnectModal w in
  let w := showLoading loading w in
  let w := perform (Fetch (js "POST") (js "/api/device/connect")
                      (JObj [(js "serial", JStr serial)])) w in
  let w :=
    match connect with
    | Rejected m => showToast (js "连接失败: " ++ m) (js "error") w
    | Resolved data =>
        match get data (js "success") with
        | None =>
            showToast (js "连接失败: " ++ TypeError_message) (js "error") w
        | Some ok =>
            if truthy ok then
              let w := set_isConnected true w in
              let w := updateConnectionStatus true (prop data "data") w in
              let w := showScreen w in
              let w := startScreenRefresh shot w in
              showToast success (js "success") w
            else
              showToast
                (textContent_of
                   (js_or (prop data "message") (JStr (js "连接失败"))))
                (js "error") w
        end
    end in
  hideLoading w.

(** Replies of the examples. *)
Definition status_reply (status : string) : reply :=
  Resolved (JObj [(js "success", JBool true); (js "status", JStr (js status))]).

Definition connected_reply : reply :=
  Resolved (JObj [(js "success", JBool true);
                  (js "status", JStr (js "connected"));
                  (js "device_ip", JStr (js "10.0.0.5"));
                  (js "device_port", JNum 5555)]).

Definition ok_reply : reply :=
  Resolved (JObj [(js "success", JBool true)]).

(** The text of the engine's TypeError in the examples. *)
Definition sample_TypeError : jsstring :=
  js "Cannot read properties of null".

(** A pairing session of the examples: the QR code was requested and the
    poll runs. *)
Definition pairing_World : World :=
  startWirelessPairing sample_TypeError ok_reply initial_World.

(** One tick of the poll in the examples; the connect and screenshot requests
    it may lead to succeed. *)
Definition sample_tick (status : reply) (w : World) : World :=
  wirelessPollTick sample_TypeError status ok_reply ok_reply w.

(** The session after the server reported [waiting_scan], [pairing],
    [pair_success] and [connecting]. *)
Definition connecting_World : World :=
  sample_tick (status_reply "connecting")
    (sample_tick (status_reply "pair_success")
       (sample_tick (status_reply "pairing")
          (sample_tick (status_reply "waiting_scan") pairing_World))).

(** The page of the examples with a device chosen in the USB list. *)
Definition usb_World : World :=
  set_deviceSerial_value (js "emulator-5554")
    (set_connectModal_hidden false initial_World).

(** ** The events of the page

    What the user and the two timers can make happen, each with the replies
    its requests get.  A tick happens only while a timer with that callback
    is live. *)
Inductive event :=
| TypeText (text : jsstring)
| ChooseDevice (serial : jsstring)
| ClickSend (net : execute_reply) (shot : reply)
| ClickConfirmConnect (connect shot : reply)
| ClickStartPair (start : reply)
| ClickStopPair (stop : reply)
| CloseModal
| ClickRefresh (shot : reply)
| RefreshTick (shot : reply)
| PollTick (status connect shot : reply).

Definition fire (JSON_parse : jsstring -> option jsval)
  (TypeError_message : jsstring) (e : event) (w : World) : World :=
  match e with
  | TypeText text => set_messageInput_value text w
  | ChooseDevice serial => set_deviceSerial_value serial w
  | ClickSend net shot => executeTask JSON_parse net shot w
  | ClickConfirmConnect connect shot =>
      connectDevice TypeError_message connect shot w
  | ClickStartPair start => startWirelessPairing TypeError_message start w
  | ClickStopPair stop => stopWirelessPairing stop w
  | CloseModal => hideConnectModal w
  | ClickRefresh shot => refreshScreen shot w
  | RefreshTick shot =>
      match live ScreenRefreshTimer w with
      | [] => w
      | _ :: _ => screenRefreshTick shot w
      end
  | PollTick status connect shot =>
      match live WirelessPollTimer w with
      | [] => w
      | _ :: _ => wirelessPollTick TypeError_message status connect shot w
      end
  end.

Definition run (JSON_parse : jsstring -> option jsval)
  (TypeError_message : jsstring) (es : list event) (w : World) : World :=
  fold_left (fun w e => fire JSON_parse TypeError_message e w) es w.

(** Effects among which there is no request. *)
Definition quiet (es : list effect) : Prop :=
  Forall (fun e => is_fetch e = false) es.

(** The page of the examples with a text typed into the input. *)
Definition typed (text : string) : World :=
  set_messageInput_value (js text) initial_World.

(** The same after a device was connected. *)
Definition connected_typed (text : string) : World :=
  set_isConnected true (typed text).

(** The events of the examples. *)
Definition thinking_event (message : jsstring) : jsval :=
  JObj [(js "type", JStr (js "thinking")); (js "message", JStr message)].

Definition action_event (message : jsstring) (action : jsval) : jsval :=
  JObj [(js "type", JStr (js "action")); (js "message", JStr message);
        (js "action", action)].

(** A body for the examples: four lines, the first with a two-byte
    character; the second has no prefix and the third does not parse. *)
Definition sample_texts : list string :=
  ["data: {é}"; "ping"; "data: oops"; "data: {2}"]%string.

Definition sample_lines : list jsstring := map js sample_texts.

Definition sample_bytes : list byte :=
  flat_map (fun s => list_byte_of_string s ++ [x0a]) sample_texts.

(** Two ways of cutting it: once, between the two bytes of the character,
    and after every byte. *)
Definition cut_in_character : list (list byte) :=
  [firstn 8 sample_bytes; skipn 8 sample_bytes].

Definition byte_by_byte : list (list byte) :=
  map (fun b => [b]) sample_bytes.

Definition unknown_event_with_screenshot : jsval :=
  JObj [(js "type", JStr (js "mystery"));
        (js "screenshot", JStr (js "data:image/png;base64,AAAA"))].

Definition click_action : jsval := JObj [(js "type", JStr (js "click"))].

(** A stream of the examples that breaks after its last chunk. *)
Definition broken_stream : execute_reply :=
  Body cut_in_character (ReadFailed (js "network error")).

(** * The rest of the class *)

(** ** Chat, stop and keys *)

(** [clearChat]: the chat is reset to the welcome message whatever the
    request does. *)
Definition clearChat (clear : reply) (w : World) : World :=
  let w := perform (Fetch (js "POST") (js "/api/chat/clear") JUndefined) w in
  let w := match clear with
           | Rejected _ => console_error "清空失败:" w
           | Resolved _ => w
           end in
  upd_chatContainer (fun _ => [WelcomeMessage]) w.

Definition stopExecution (stop : reply) (w : World) : World :=
  let w := perform (Fetch (js "POST") (js "/api/chat/stop") JUndefined) w in
  match stop with
  | Rejected _ => console_error "停止失败:" w
  | Resolved _ => showToast (js "正在停止...") (js "warning") w
  end.

(** [pressKey]; the refresh that [setTimeout] runs half a second after the
    request is part of the call, with its own reply [shot]. *)
Definition pressKey (key : jsval) (press shot : reply) (w : World) : World :=
  if negb (isConnected (app w)) || isExecuting (app w) then w
  else
    let w := perform (Fetch (js "POST") (js "/api/device/keyevent")
                        (JObj [(js "key", key)])) w in
    match press with
    | Rejected _ => console_error "按键失败:" w
    | Resolved _ => refreshScreen shot w
    end.

(** [handleScreenClick], the [click] listener of the canvas.  The coordinates
    are scaled in floating point from the layout and rounded; [x] and [y] are
    what the body of the request then carries for them, taken as they come.
    The ring that [showClickEffect] draws removes itself after half a second
    and is not kept; the refresh that [setTimeout] runs half a second after
    the request is part of the call, as in [pressKey]. *)
Definition handleScreenClick (x y : jsval) (click shot : reply) (w : World)
  : World :=
  if negb (isConnected (app w)) || isExecuting (app w) then w
  else
    let w := perform (Fetch (js "POST") (js "/api/device/click")
                        (JObj [(js "x", x); (js "y", y)])) w in
    match click with
    | Rejected _ => console_error "点击失败:" w
    | Resolved _ => refreshScreen shot w
    end.

(** The [keydown] listener of the input, bound in [bindEvents]. *)
Definition keydown (JSON_parse : jsstring -> option jsval) (key : jsstring)
  (shiftKey : bool) (net : execute_reply) (shot : reply) (w : World)
  : World :=
  if jsstring_eqb key (js "Enter") && negb shiftKey
  then executeTask JSON_parse net shot w
  else w.

(** The [click] listener of a quick button whose [data-msg] is [msg]. *)
Definition quickButton (JSON_parse : jsstring -> option jsval) (msg : jsstring)
  (net : execute_reply) (shot : reply) (w : World) : World :=
  executeTask JSON_parse net shot (set_messageInput_value msg w).

(** ** The connect dialog: tabs and the list of devices *)

(** The tab the object remembers, the two panels, and the [select] with its
    options as pairs of value and text; the value the [select] shows is
    [deviceSerial_value]. *)
Record DeviceList := {
  currentTab : jsstring;
  usbPanel_active : bool;
  wirelessPanel_active : bool;
  usbFooter_display : jsstring;
  deviceSerial_options : list (jsstring * jsstring);
  deviceSerial_disabled : bool;
  btnRefreshDevices_disabled : bool;
  deviceListHint_text : jsstring;
  deviceListHint_color : jsstring
}.

Record Page := {
  world : World;
  dialog : DeviceList
}.

Definition on_world (f : World -> World) (p : Page) : Page :=
  {| world := f (world p); dialog := dialog p |}.

(** What [innerHTML], the appended options and the hint come to: the options,
    the value the [select] then shows, the text and the colour of the hint. *)
Record listing := {
  l_options : list (jsstring * jsstring);
  l_value : jsstring;
  l_hint : jsstring;
  l_color : jsstring
}.

(** The [catch] block of [fetchDeviceList]. *)
Definition listing_thrown : listing :=
  {| l_options := [([], js "获取设备列表失败")];
     l_value := [];
     l_hint := js "无法连接到服务器";
     l_color := js "var(--error)" |}.

(** [devices.length]. *)
Definition length_of (v : jsval) : jsval :=
  match v with
  | JArr items => JNum (Z.of_nat (List.length items))
  | JStr s => JNum (Z.of_nat (List.length s))
  | JObj fields => lookup (js "length") fields
  | _ => JUndefined
  end.

(** [v === 0]. *)
Definition is_zero (v : jsval) : bool :=
  match v with
  | JNum z => (z =? 0)%Z
  | _ => false
  end.

(** The options that [devices.forEach] appends; [None] when [device.serial]
    throws. *)
Fixpoint device_options (items : list jsval)
  : option (list (jsstring * jsstring)) :=
  match items with
  | [] => Some []
  | d :: rest =>
      match get d (js "serial") with
      | None => None
      | Some serial =>
          match device_options rest with
          | Some options =>
              Some ((ToString serial, textContent_of serial) :: options)
          | None => None
          end
      end
  end.

(** The value of a [select] whose first option is the selected one. *)
Definition first_value (options : list (jsstring * jsstring)) : jsstring :=
  match options with
  | (v, _) :: _ => v
  | [] => []
  end.

(** [select.value = v]: the first option with that value gets selected, and
    none when there is no such option. *)
Definition select_value (v : jsstring) (options : list (jsstring * jsstring))
  : jsstring :=
  if existsb (fun o => jsstring_eqb (fst o) v) options then v else [].

(** The branch of [fetchDeviceList] for a successful answer, [devices] being
    [data.data]; a value that has no [forEach] ends in the [catch]. *)
Definition list_devices (devices : jsval) : listing :=
  match devices with
  | JUndefined | JNull => listing_thrown
  | _ =>
      if is_zero (length_of devices) then
        {| l_options := [([], js "未发现设备")];
           l_value := [];
           l_hint :=
             js "未发现已连接的设备，请检查 USB 连接和 USB 调试是否已开启";
           l_color := js "var(--error)" |}
      else
        match devices with
        | JArr items =>
            match device_options items with
            | None => listing_thrown
            | Some appended =>
                let n := List.length items in
                let options :=
                  (if (1 <? n)%nat then [([], js "请选择设备...")] else [])
                  ++ appended in
                {| l_options := options;
                   l_value :=
                     if (n =? 1)%nat
                     then select_value
                            (ToString (prop (nth 0 items JUndefined) "serial"))
                            options
                     else first_value options;
                   l_hint := js "发现 " ++ ToString (JNum (Z.of_nat n))
                             ++ js " 个设备";
                   l_color := js "var(--success)" |}
            end
        | _ => listing_thrown
        end
  end.

(** [fetchDeviceList] up to its request: the list is being loaded. *)
Definition fetchDeviceList_loading (p : Page) : Page :=
  {| world :=
       perform (Fetch (js "GET") (js "/api/device/list") JUndefined)
         (set_deviceSerial_value [] (world p));
     dialog :=
       {| currentTab := currentTab (dialog p);
          usbPanel_active := usbPanel_active (dialog p);
          wirelessPanel_active := wirelessPanel_active (dialog p);
          usbFooter_display := usbFooter_display (dialog p);
          deviceSerial_options := [([], js "正在获取设备列表...")];
          deviceSerial_disabled := true;
          btnRefreshDevices_disabled := true;
          deviceListHint_text := js "正在扫描已连接的设备...";
          deviceListHint_color := deviceListHint_color (dialog p) |} |}.

(** The [try], [catch] and [finally] of [fetchDeviceList]. *)
Definition fetchDeviceList_done (answer : reply) (p : Page) : Page :=
  let l :=
    match answer with
    | Rejected _ => listing_thrown
    | Resolved data =>
        match get data (js "success") with
        | None => listing_thrown
        | Some ok =>
            if truthy ok then list_devices (prop data "data")
            else
              {| l_options := [([], js "获取设备列表失败")];
                 l_value := [];
                 l_hint :=
                   textContent_of
                     (js_or (prop data "message")
                        (JStr (js "获取设备列表失败")));
                 l_color := js "var(--error)" |}
        end
    end in
  {| world := set_deviceSerial_value (l_value l) (world p);
     dialog :=
       {| currentTab := currentTab (dialog p);
          usbPanel_active := usbPanel_active (dialog p);
          wirelessPanel_active := wirelessPanel_active (dialog p);
          usbFooter_display := usbFooter_display (dialog p);
          deviceSerial_options := l_options l;
          deviceSerial_disabled := false;
          btnRefreshDevices_disabled := false;
          deviceListHint_text := l_hint l;
          deviceListHint_color := l_color l |} |}.

Definition fetchDeviceList (answer : reply) (p : Page) : Page :=
  fetchDeviceList_done answer (fetchDeviceList_loading p).

(** [switchTab]; the [active] class of the tab buttons, which follows the tab
    like that of the panels, is left out. *)
Definition switchTab (tab : jsstring) (p : Page) : Page :=
  {| world :=
       if jsstring_eqb tab (js "wireless")
       then resetWirelessUI (stopWirelessPolling (world p))
       else world p;
     dialog :=
       {| currentTab := tab;
          usbPanel_active := jsstring_eqb tab (js "usb");
          wirelessPanel_active := jsstring_eqb tab (js "wireless");
          usbFooter_display :=
            if jsstring_eqb tab (js "usb") then js "flex" else js "none";
          deviceSerial_options := deviceSerial_options (dialog p);
          deviceSerial_disabled := deviceSerial_disabled (dialog p);
          btnRefreshDevices_disabled := btnRefreshDevices_disabled (dialog p);
          deviceListHint_text := deviceListHint_text (dialog p);
          deviceListHint_color := deviceListHint_color (dialog p) |} |}.

Definition showConnectModal (answer : reply) (p : Page) : Page :=
  let p := on_world (set_connectModal_hidden false) p in
  let p := switchTab (js "usb") p in
  let p := fetchDeviceList answer p in
  on_world resetWirelessUI p.

(** ** Everything the page reacts to *)

(** The listeners that [bindEvents] binds and the callbacks of the two
    timers, each with the answers to the requests it makes.  Two reactions of
    the page change nothing that the model keeps and are not among them: the
    [input] listener of the text area, which sets its height, and the debug
    button that [addSystemMessage] writes into a message, which switches the
    [hidden] class of that message's panel. *)
Inductive action :=
| Basic (e : event)
| ClickClear (clear : reply)
| ClickStop (stop : reply)
| ClickNav (key : jsval) (press shot : reply)
| ClickScreen (x y : jsval) (click shot : reply)
| ClickQuick (msg : jsstring) (net : execute_reply) (shot : reply)
| KeyDown (key : jsstring) (shiftKey : bool) (net : execute_reply)
    (shot : reply)
| ClickTab (tab : jsstring)
| ClickConnect (answer : reply)
| ClickRefreshDevices (answer : reply).

Definition act (JSON_parse : jsstring -> option jsval)
  (TypeError_message : jsstring) (a : action) (p : Page) : Page :=
  match a with
  | Basic e => on_world (fire JSON_parse TypeError_message e) p
  | ClickClear clear => on_world (clearChat clear) p
  | ClickStop stop => on_world (stopExecution stop) p
  | ClickNav key press shot => on_world (pressKey key press shot) p
  | ClickScreen x y click shot =>
      on_world (handleScreenClick x y click shot) p
  | ClickQuick msg net shot => on_world (quickButton JSON_parse msg net shot) p
  | KeyDown key shiftKey net shot =>
      on_world (keydown JSON_parse key shiftKey net shot) p
  | ClickTab tab => switchTab tab p
  | ClickConnect answer => showConnectModal answer p
  | ClickRefreshDevices answer => fetchDeviceList answer p
  end.

Definition acts (JSON_parse : jsstring -> option jsval)
  (TypeError_message : jsstring) (l : list action) (p : Page) : Page :=
  fold_left (fun p a => act JSON_parse TypeError_message a p) l p.

(** ** What stays true of a page *)

(** A handle is given out once: the live handles are below the next one and
    no two timers share one. *)
Definition handles_fresh (w : World) : Prop :=
  Forall (fun t => (fst t < next_timer (browser w))%positive)
    (timers (browser w)) /\
  NoDup (map fst (timers (browser w))).

Definition one_placeholder (w : World) : Prop :=
  (List.length (thinking_nodes (chatContainer (chat w))) <= 1)%nat.

(** Whether the record of a line, when it is an [action] event, has an inert
    payload; whether all the lines of an answer do; whether the answers of a
    reaction do. *)
Definition inert_record (JSON_parse : jsstring -> option jsval)
  (line : jsstring) : bool :=
  if startsWith line DATA_PREFIX then
    match JSON_parse (slice 6 line) with
    | Some data =>
        if is_string (prop data "type") "action"
        then inert (prop data "action") else true
    | None => true
    end
  else true.

Definition inert_reply (JSON_parse : jsstring -> option jsval)
  (net : execute_reply) : bool :=
  match net with
  | FetchFailed _ => true
  | Body chunks _ =>
      forallb (inert_record JSON_parse)
        (fst (scan_lines [] (decode_all (List.concat chunks))))
  end.

Definition inert_action (JSON_parse : jsstring -> option jsval)
  (a : action) : bool :=
  match a with
  | Basic (ClickSend net _) => inert_reply JSON_parse net
  | ClickQuick _ net _ => inert_reply JSON_parse net
  | KeyDown _ _ net _ => inert_reply JSON_parse net
  | _ => true
  end.

Definition page_ok (w : World) : Prop :=
  poll_tracked w /\ handles_fresh w /\ one_placeholder w /\
  inert_chat (chatContainer (chat w)) = true.

(** Whether a reply says [success]. *)
Definition replied_success (r : reply) : bool :=
  match r with
  | Rejected _ => false
  | Resolved data =>
      match get data (js "success") with
      | Some ok => truthy ok
      | None => false
      end
  end.

(** [v === 'a'] for one of the listed literals. *)
Definition is_one_of (v : jsval) (literals : list string) : bool :=
  existsb (is_string v) literals.

(** The kinds [handleStepResult] knows and the statuses
    [handleWirelessStatus] knows. *)
Definition known_kinds : list string :=
  ["start"; "info"; "update"; "thinking"; "action"; "done"; "completed";
   "failed"; "error"; "stopped"; "warning"]%string.

Definition known_statuses : list string :=
  ["waiting_scan"; "pairing"; "pair_success"; "connecting"; "connected";
   "pair_failed"; "connect_failed"; "error"; "timeout"]%string.

(** More of the examples. *)
Definition sample_Page : Page :=
  {| world := initial_World;
     dialog := {| currentTab := js "usb";
                  usbPanel_active := true;
                  wirelessPanel_active := false;
                  usbFooter_display := js "flex";
                  deviceSerial_options := [];
                  deviceSerial_disabled := false;
                  btnRefreshDevices_disabled := false;
                  deviceListHint_text := [];
                  deviceListHint_color := [] |} |}.

Definition devices_reply (serials : list string) : reply :=
  Resolved
    (JObj [(js "success", JBool true);
           (js "data",
            JArr (map (fun s => JObj [(js "serial", JStr (js s))]) serials))]).

(** The stand-in for [JSON.parse] again, for which the text [null] is a
    document too. *)
Definition sample_parse_null (s : jsstring) : option jsval :=
  if jsstring_eqb s (js "null") then Some JNull else sample_parse s.

(** The timers and the next handle are in [w'] what they are in [w]. *)
Definition same_timers (w w' : World) : Prop :=
  timers (browser w') = timers (browser w) /\
  next_timer (browser w') = next_timer (browser w).

(** The messages of the chat, the thinking placeholder aside. *)
Definition messages (l : list chat_node) : list chat_node :=
  filter (fun n => negb (is_thinking n)) l.

(** What a method that works on the dialog, the device or the timers keeps:
    the chat, a connection once made, and the freshness of the handles. *)
Definition dialog_step (w w' : World) : Prop :=
  chat w' = chat w /\
  (isConnected (app w) = true -> isConnected (app w') = true) /\
  (handles_fresh w -> handles_fresh w').

(** What a method that works on the chat keeps: the connection, the timers,
    and a chat with at most one thinking placeholder. *)
Definition chat_step (w w' : World) : Prop :=
  isConnected (app w') = isConnected (app w) /\
  same_timers w w' /\
  (one_placeholder w -> one_placeholder w').

(** A page to start the examples from: connected, the pairing poll running,
    a task typed. *)
Definition busy_Page : Page :=
  {| world := startWirelessPolling (connected_typed "open settings");
     dialog := dialog sample_Page |}.

(** A stand-in for [JSON.parse] whose records are [action] events, with the
    payload of a click and the text as their message, and an answer for
    it. *)
Definition sample_parse_action (s : jsstring) : option jsval :=
  match s with
  | 123%N :: _ => Some (action_event s click_action)
  | _ => None
  end.

Definition action_stream : execute_reply :=
  Body cut_in_character EndOfStream.

Definition sample_actions : list action :=
  [ClickQuick (js "go home") action_stream ok_reply;
   ClickScreen (JNum 540) (JNum 1200) ok_reply ok_reply;
   ClickTab (js "wireless");
   Basic (ClickStartPair ok_reply);
   Basic (PollTick connected_reply ok_reply ok_reply);
   ClickNav (JStr (js "back")) ok_reply ok_reply;
   ClickClear ok_reply;
   ClickConnect (devices_reply ["emulator-5554"%string]);
   ClickStop ok_reply].

(** * Properties *)

Unset Implicit Arguments.

(** ** Strings and lists *)

Lemma jsstring_eqb_eq (a b : jsstring) : jsstring_eqb a b = true <-> a = b.
Proof.
  revert b. induction a as [|x a IH]; intros [|y b]; simpl;
    try (split; congruence).
  rewrite andb_true_iff, N.eqb_eq, IH. split.
  - now intros [-> ->].
  - intros H. now inversion H.
Qed.

Lemma pop_cons {A} (x : A) (l ls : list A) (last : A) :
  pop l = (ls, Some last) -> pop (x :: l) = (x :: ls, Some last).
Proof.
  unfold pop. intros H. simpl.
  destruct (rev l) as [|y r] eqn:E; [discriminate|].
  inversion H; subst. simpl. now rewrite rev_app_distr.
Qed.

(** ** The decoder reads a body the same however it is cut *)

Lemma Utf8_run_app (a b : list byte) : forall st,
  Utf8.run st (a ++ b) =
  let '(st1, out1) := Utf8.run st a in
  let '(st2, out2) := Utf8.run st1 b in
  (st2, out1 ++ out2).
Proof.
  induction a as [|x a IH]; intros st; simpl.
  - now destruct (Utf8.run st b).
  - destruct (Utf8.handler st (Byte.to_N x)) as [st1 o1].
    rewrite IH. destruct (Utf8.run st1 a) as [st2 o2].
    destruct (Utf8.run st2 b) as [st3 o3]. now rewrite app_assoc.
Qed.

Lemma serialize_app (a b : list N) : forall seen,
  serialize seen (a ++ b) =
  let '(seen1, out1) := serialize seen a in
  let '(seen2, out2) := serialize seen1 b in
  (seen2, out1 ++ out2).
Proof.
  induction a as [|cp a IH]; intros seen; simpl.
  - now destruct (serialize seen b).
  - destruct (negb seen && (cp =? 65279)%N).
    + apply IH.
    + rewrite IH. destruct (serialize true a) as [s1 o1].
      destruct (serialize s1 b) as [s2 o2]. now rewrite app_assoc.
Qed.

Lemma decode_stream_app (d : TextDecoder) (a b : list byte) :
  decode_stream d (a ++ b) =
  let '(d1, t1) := decode_stream d a in
  let '(d2, t2) := decode_stream d1 b in
  (d2, t1 ++ t2).
Proof.
  unfold decode_stream. rewrite Utf8_run_app.
  destruct (Utf8.run (td_utf8 d) a) as [st1 c1].
  destruct (serialize (td_BOM_seen d) c1) as [s1 o1] eqn:E1.
  cbn [td_utf8 td_BOM_seen].
  destruct (Utf8.run st1 b) as [st2 c2].
  rewrite serialize_app, E1.
  now destruct (serialize s1 c2).
Qed.

Lemma decode_stream_nil (d : TextDecoder) : decode_stream d [] = (d, []).
Proof. now destruct d. Qed.

(** ** Encoding then decoding gives the text back *)

Ltac narith := zify; Z.to_euclidean_division_equations; lia.

Lemma to_N_byte_of_N (n : N) : (n < 256)%N -> Byte.to_N (byte_of_N n) = n.
Proof.
  intros H. unfold byte_of_N.
  pose proof (Byte.to_of_N_option_map n) as E.
  destruct (N.leb_spec n 255); [|lia].
  destruct (Byte.of_N n) as [b|]; simpl in E; [congruence|discriminate].
Qed.

Lemma lor_low (c k x : N) :
  (x < 2 ^ k)%N -> N.lor (c * 2 ^ k) x = (c * 2 ^ k + x)%N.
Proof.
  intros H.
  assert (Hz : N.land (c * 2 ^ k) x = 0%N).
  { apply N.bits_inj_0. intros n. rewrite N.land_spec.
    destruct (N.ltb_spec n k).
    - rewrite <- N.shiftl_mul_pow2, N.shiftl_spec_low by assumption.
      reflexivity.
    - rewrite <- (N.mod_small x (2 ^ k)) by assumption.
      rewrite N.mod_pow2_bits_high by assumption. apply andb_false_r. }
  now rewrite <- N.lxor_lor, <- N.add_nocarry_lxor.
Qed.

Lemma land_low (b k : N) : N.land b (N.ones k) = (b mod 2 ^ k)%N.
Proof. apply N.land_ones. Qed.

Lemma lor_C0 x : (x < 32)%N -> N.lor 0xC0 x = (0xC0 + x)%N.
Proof. intros. apply (lor_low 6 5 x). simpl. lia. Qed.
Lemma lor_E0 x : (x < 16)%N -> N.lor 0xE0 x = (0xE0 + x)%N.
Proof. intros. apply (lor_low 14 4 x). simpl. lia. Qed.
Lemma lor_F0 x : (x < 8)%N -> N.lor 0xF0 x = (0xF0 + x)%N.
Proof. intros. apply (lor_low 30 3 x). simpl. lia. Qed.
Lemma lor_80 x : (x < 64)%N -> N.lor 0x80 x = (0x80 + x)%N.
Proof. intros. apply (lor_low 2 6 x). simpl. lia. Qed.
Lemma land_3F b : N.land b 0x3F = (b mod 64)%N.
Proof. apply (land_low b 6). Qed.
Lemma land_1F b : N.land b 0x1F = (b mod 32)%N.
Proof. apply (land_low b 5). Qed.
Lemma land_0F b : N.land b 0xF = (b mod 16)%N.
Proof. apply (land_low b 4). Qed.
Lemma land_07 b : N.land b 0x7 = (b mod 8)%N.
Proof. apply (land_low b 3). Qed.
Lemma shiftl_6 a x : (x < 64)%N -> N.lor (N.shiftl a 6) x = (a * 64 + x)%N.
Proof.
  intros. rewrite N.shiftl_mul_pow2. apply (lor_low a 6 x). simpl. lia.
Qed.
Lemma shiftr_div a k : N.shiftr a k = (a / 2 ^ k)%N.
Proof. apply N.shiftr_div_pow2. Qed.

Ltac bools :=
  repeat match goal with
         | |- context [(?a <=? ?b)%N] => destruct (N.leb_spec a b); try lia
         | |- context [(?a =? ?b)%N] => destruct (N.eqb_spec a b); try lia
         | |- context [(?a <? ?b)%N] => destruct (N.ltb_spec a b); try lia
         end.

Lemma lead_ascii (b : N) : (b < 0x80)%N -> Utf8.lead b = (Utf8.init, [b]).
Proof. intros. unfold Utf8.lead, Utf8.in_range. bools. reflexivity. Qed.

Lemma lead_2 (b : N) :
  (0xC2 <= b <= 0xDF)%N -> Utf8.lead b = (open_state (b mod 32) 0 1, []).
Proof.
  intros. unfold Utf8.lead, Utf8.in_range. bools; simpl.
  now rewrite land_1F.
Qed.

Lemma lead_3 (b : N) :
  (0xE0 <= b <= 0xEF)%N ->
  Utf8.lead b =
  ({| Utf8.code_point := b mod 16; Utf8.bytes_seen := 0;
      Utf8.bytes_needed := 2;
      Utf8.lower_boundary := if (b =? 0xE0)%N then 0xA0 else 0x80;
      Utf8.upper_boundary := if (b =? 0xED)%N then 0x9F else 0xBF |}, []).
Proof.
  intros. unfold Utf8.lead, Utf8.in_range.
  destruct (N.leb_spec 0 b); [|lia]. destruct (N.leb_spec b 127); [lia|].
  destruct (N.leb_spec 194 b); [|lia]. destruct (N.leb_spec b 223); [lia|].
  destruct (N.leb_spec 224 b); [|lia]. destruct (N.leb_spec b 239); [|lia].
  simpl. now rewrite land_0F.
Qed.

Lemma lead_4 (b : N) :
  (0xF0 <= b <= 0xF4)%N ->
  Utf8.lead b =
  ({| Utf8.code_point := b mod 8; Utf8.bytes_seen := 0;
      Utf8.bytes_needed := 3;
      Utf8.lower_boundary := if (b =? 0xF0)%N then 0x90 else 0x80;
      Utf8.upper_boundary := if (b =? 0xF4)%N then 0x8F else 0xBF |}, []).
Proof.
  intros. unfold Utf8.lead, Utf8.in_range.
  destruct (N.leb_spec 0 b); [|lia]. destruct (N.leb_spec b 127); [lia|].
  destruct (N.leb_spec 194 b); [|lia]. destruct (N.leb_spec b 223); [lia|].
  destruct (N.leb_spec 224 b); [|lia]. destruct (N.leb_spec b 239); [lia|].
  destruct (N.leb_spec 240 b); [|lia]. destruct (N.leb_spec b 244); [|lia].
  simpl. now rewrite land_07.
Qed.

Lemma handler_continue (st : Utf8.state) (b : N) :
  Utf8.bytes_needed st <> 0%N ->
  (Utf8.lower_boundary st <= b <= Utf8.upper_boundary st)%N ->
  Utf8.handler st b =
  if (Utf8.bytes_seen st + 1 =? Utf8.bytes_needed st)%N
  then (Utf8.init, [Utf8.code_point st * 64 + b mod 64])%N
  else (open_state (Utf8.code_point st * 64 + b mod 64)
          (Utf8.bytes_seen st + 1) (Utf8.bytes_needed st), []).
Proof.
  intros Hn Hr. unfold Utf8.handler, Utf8.in_range.
  destruct (N.eqb_spec (Utf8.bytes_needed st) 0); [contradiction|].
  destruct (N.leb_spec (Utf8.lower_boundary st) b); [|lia].
  destruct (N.leb_spec b (Utf8.upper_boundary st)); [|lia].
  cbn [negb andb]. rewrite land_3F, shiftl_6 by (apply N.mod_lt; lia).
  reflexivity.
Qed.

Ltac side :=
  cbn [Utf8.lower_boundary Utf8.upper_boundary Utf8.bytes_needed
         Utf8.bytes_seen Utf8.code_point open_state];
  narith.

Ltac continue flag :=
  rewrite handler_continue by side;
  cbn [Utf8.lower_boundary Utf8.upper_boundary Utf8.bytes_needed
         Utf8.bytes_seen Utf8.code_point open_state];
  match goal with
  | |- context [(?a =? ?b)%N] => change (a =? b)%N with flag
  end;
  cbv beta iota zeta.

Ltac finish := cbn [List.app]; do 2 f_equal; narith.

Lemma encode_decode_cp (cp : N) :
  scalar_value cp ->
  Utf8.run Utf8.init (utf8_encode_cp cp) = (Utf8.init, [cp]).
Proof.
  intros Hs. unfold scalar_value in Hs. unfold utf8_encode_cp.
  rewrite !land_3F, !shiftr_div.
  change (2 ^ 6)%N with 64%N. change (2 ^ 12)%N with 4096%N.
  change (2 ^ 18)%N with 262144%N.
  destruct (N.ltb_spec cp 0x80).
  { cbn [map Utf8.run]. rewrite to_N_byte_of_N by lia.
    unfold Utf8.handler. cbn [Utf8.bytes_needed Utf8.init N.eqb].
    now rewrite lead_ascii. }
  destruct (N.ltb_spec cp 0x800).
  { rewrite lor_C0, lor_80 by narith.
    cbn [map Utf8.run]. rewrite !to_N_byte_of_N by narith.
    unfold Utf8.handler at 1. cbn [Utf8.bytes_needed Utf8.init N.eqb].
    rewrite lead_2 by narith.
    continue true. finish. }
  destruct (N.ltb_spec cp 0x10000).
  { rewrite lor_E0, !lor_80 by narith.
    cbn [map Utf8.run]. rewrite !to_N_byte_of_N by narith.
    unfold Utf8.handler at 1. cbn [Utf8.bytes_needed Utf8.init N.eqb].
    rewrite lead_3 by narith.
    rewrite handler_continue;
      cbn [Utf8.lower_boundary Utf8.upper_boundary Utf8.bytes_needed
             Utf8.bytes_seen Utf8.code_point]; [|lia|].
    2:{ destruct (N.eqb_spec (224 + cp / 4096) 224);
          destruct (N.eqb_spec (224 + cp / 4096) 237); narith. }
    change (0 + 1 =? 2)%N with false. cbv beta iota zeta.
    continue true. finish. }
  { rewrite lor_F0, !lor_80 by narith.
    cbn [map Utf8.run]. rewrite !to_N_byte_of_N by narith.
    unfold Utf8.handler at 1. cbn [Utf8.bytes_needed Utf8.init N.eqb].
    rewrite lead_4 by narith.
    rewrite handler_continue;
      cbn [Utf8.lower_boundary Utf8.upper_boundary Utf8.bytes_needed
             Utf8.bytes_seen Utf8.code_point]; [|lia|].
    2:{ destruct (N.eqb_spec (240 + cp / 262144) 240);
          destruct (N.eqb_spec (240 + cp / 262144) 244); narith. }
    change (0 + 1 =? 3)%N with false. cbv beta iota zeta.
    continue false. continue true. finish. }
Qed.

Lemma encode_decode (cps : list N) :
  Forall scalar_value cps ->
  Utf8.run Utf8.init (utf8_encode cps) = (Utf8.init, cps).
Proof.
  induction 1 as [|cp cps Hcp _ IH]; [reflexivity|].
  unfold utf8_encode. simpl.
  rewrite Utf8_run_app, encode_decode_cp by assumption.
  unfold utf8_encode in IH. now rewrite IH.
Qed.

(** ** Splitting on the newline *)

Lemma split_nl_no_NL (b : jsstring) : ~ In NL b -> split_nl b = [b].
Proof.
  induction b as [|c b IH]; intros H; simpl; [reflexivity|].
  destruct (N.eqb_spec c NL) as [->|_]; [exfalso; apply H; now left|].
  rewrite IH; [reflexivity|]. intros Hin; apply H; now right.
Qed.

Lemma split_nl_prefix (b rest : jsstring) :
  ~ In NL b -> split_nl (b ++ NL :: rest) = b :: split_nl rest.
Proof.
  induction b as [|c b IH]; intros H; simpl; [reflexivity|].
  destruct (N.eqb_spec c NL) as [->|_]; [exfalso; apply H; now left|].
  rewrite IH; [reflexivity|]. intros Hin; apply H; now right.
Qed.

Lemma scan_lines_split (text : jsstring) : forall cur,
  ~ In NL cur ->
  pop (split_nl (cur ++ text)) =
  (fst (scan_lines cur text), Some (snd (scan_lines cur text))).
Proof.
  induction text as [|c text IH]; intros cur Hcur; simpl.
  - rewrite app_nil_r, split_nl_no_NL by assumption. reflexivity.
  - destruct (N.eqb_spec c NL) as [->|Hc].
    + rewrite split_nl_prefix by assumption.
      specialize (IH [] (fun H => H)). simpl in IH.
      destruct (scan_lines [] text) as [ls last]. simpl in *.
      now apply pop_cons.
    + replace (cur ++ c :: text) with ((cur ++ [c]) ++ text)
        by now rewrite <- app_assoc.
      apply IH. intros Hin. apply in_app_or in Hin.
      destruct Hin as [Hin|[Hin|[]]]; [now apply Hcur|]. now subst.
Qed.

Lemma scan_lines_app (t1 t2 : jsstring) : forall cur,
  scan_lines cur (t1 ++ t2) =
  let '(l1, mid) := scan_lines cur t1 in
  let '(l2, last) := scan_lines mid t2 in
  (l1 ++ l2, last).
Proof.
  induction t1 as [|c t1 IH]; intros cur; simpl.
  - now destruct (scan_lines cur t2).
  - destruct (c =? NL)%N.
    + rewrite IH. destruct (scan_lines [] t1) as [l1 mid].
      now destruct (scan_lines mid t2).
    + apply IH.
Qed.

Lemma scan_lines_open_no_NL (text : jsstring) : forall cur,
  ~ In NL cur -> ~ In NL (snd (scan_lines cur text)).
Proof.
  induction text as [|c text IH]; intros cur Hcur; simpl; [assumption|].
  destruct (N.eqb_spec c NL) as [->|Hc].
  - specialize (IH [] (fun H => H)).
    now destruct (scan_lines [] text).
  - apply IH. intros Hin. apply in_app_or in Hin.
    destruct Hin as [Hin|[Hin|[]]]; [now apply Hcur|]. now subst.
Qed.

Lemma scan_lines_line (l rest : jsstring) : forall cur,
  ~ In NL l ->
  scan_lines cur (l ++ NL :: rest) =
  ((cur ++ l) :: fst (scan_lines [] rest), snd (scan_lines [] rest)).
Proof.
  induction l as [|c l IH]; intros cur Hl; simpl.
  - rewrite app_nil_r. now destruct (scan_lines [] rest).
  - destruct (N.eqb_spec c NL) as [->|_]; [exfalso; apply Hl; now left|].
    rewrite IH by (intros Hin; apply Hl; now right).
    now rewrite <- app_assoc.
Qed.

Lemma scan_lines_terminated (lines : list jsstring) :
  Forall (fun l => ~ In NL l) lines ->
  scan_lines [] (terminated lines) = (lines, []).
Proof.
  induction 1 as [|l lines Hl _ IH]; simpl; [reflexivity|].
  rewrite <- app_assoc. simpl.
  rewrite scan_lines_line by assumption. now rewrite IH.
Qed.

(** ** The read loop depends on the bytes, not on the chunks *)

Section ReaderFacts.

Variable JSON_parse : jsstring -> option jsval.
Variable S : Type.
Variable handle : jsval -> S -> option S.
Variable cerr : S -> S.

Lemma read_chunk_scan (r : reader S) (value : list byte) :
  ~ In NL (rd_buffer r) ->
  read_chunk JSON_parse handle cerr r value =
  let '(d, text) := decode_stream (rd_decoder r) value in
  let '(lines, last) := scan_lines (rd_buffer r) text in
  {| rd_decoder := d; rd_buffer := last;
     rd_sink := fold_left (process_line JSON_parse handle cerr) lines
                  (rd_sink r) |}.
Proof.
  intros Hb. unfold read_chunk.
  destruct (decode_stream (rd_decoder r) value) as [d text].
  rewrite scan_lines_split by assumption.
  now destruct (scan_lines (rd_buffer r) text).
Qed.

Lemma read_chunk_buffer (r : reader S) (value : list byte) :
  ~ In NL (rd_buffer r) ->
  ~ In NL (rd_buffer (read_chunk JSON_parse handle cerr r value)).
Proof.
  intros Hb. rewrite read_chunk_scan by assumption.
  destruct (decode_stream (rd_decoder r) value) as [d text].
  pose proof (scan_lines_open_no_NL text _ Hb) as H.
  now destruct (scan_lines (rd_buffer r) text).
Qed.

Lemma read_chunk_nil (r : reader S) :
  ~ In NL (rd_buffer r) -> read_chunk JSON_parse handle cerr r [] = r.
Proof.
  intros Hb. rewrite read_chunk_scan by assumption.
  rewrite decode_stream_nil. simpl. now destruct r.
Qed.

Lemma read_chunk_app (r : reader S) (a b : list byte) :
  ~ In NL (rd_buffer r) ->
  read_chunk JSON_parse handle cerr (read_chunk JSON_parse handle cerr r a) b =
  read_chunk JSON_parse handle cerr r (a ++ b).
Proof.
  intros Hb.
  rewrite (read_chunk_scan (read_chunk JSON_parse handle cerr r a))
    by now apply read_chunk_buffer.
  rewrite !(read_chunk_scan r) by assumption.
  rewrite decode_stream_app.
  destruct (decode_stream (rd_decoder r) a) as [d1 t1].
  destruct (scan_lines (rd_buffer r) t1) as [l1 mid] eqn:E1.
  cbn [rd_decoder rd_buffer rd_sink].
  destruct (decode_stream d1 b) as [d2 t2].
  rewrite scan_lines_app, E1.
  destruct (scan_lines mid t2) as [l2 last].
  now rewrite fold_left_app.
Qed.

Lemma read_loop_concat (chunks : list (list byte)) : forall r : reader S,
  ~ In NL (rd_buffer r) ->
  read_loop JSON_parse handle cerr r chunks =
  read_chunk JSON_parse handle cerr r (List.concat chunks).
Proof.
  induction chunks as [|c chunks IH]; intros r Hb; simpl.
  - now rewrite read_chunk_nil.
  - rewrite IH by now apply read_chunk_buffer.
    now apply read_chunk_app.
Qed.

(** From a fresh reader: the complete lines of the decoded body, each
    handled once, in their order. *)
Lemma read_loop_lines (chunks : list (list byte)) (s : S) :
  rd_sink (read_loop JSON_parse handle cerr (new_reader s) chunks) =
  fold_left (process_line JSON_parse handle cerr)
    (fst (scan_lines [] (decode_all (List.concat chunks)))) s.
Proof.
  rewrite read_loop_concat by (simpl; tauto).
  rewrite read_chunk_scan by (simpl; tauto).
  unfold decode_all. simpl.
  destruct (decode_stream new_TextDecoder (List.concat chunks)) as [d text].
  simpl. now destruct (scan_lines [] text).
Qed.

End ReaderFacts.

Lemma record_lines (JSON_parse : jsstring -> option jsval)
  (lines : list jsstring) : forall acc : list jsval,
  fold_left
    (process_line JSON_parse (fun data acc => Some (acc ++ [data]))
       (fun acc => acc)) lines acc =
  acc ++ omap (line_record JSON_parse) lines.
Proof.
  induction lines as [|l lines IH]; intros acc; simpl.
  - now rewrite app_nil_r.
  - rewrite IH. unfold process_line, line_record.
    destruct (startsWith l DATA_PREFIX); [|reflexivity].
    destruct (JSON_parse (slice 6 l)); [|reflexivity].
    now rewrite <- app_assoc.
Qed.

Lemma stream_records_lines (JSON_parse : jsstring -> option jsval)
  (chunks : list (list byte)) :
  stream_records JSON_parse chunks =
  omap (line_record JSON_parse)
    (fst (scan_lines [] (decode_all (List.concat chunks)))).
Proof.
  unfold stream_records. rewrite read_loop_lines. apply record_lines.
Qed.

(** The records of a body whose text is a sequence of terminated lines. *)
Lemma stream_records_of_text (JSON_parse : jsstring -> option jsval)
  (lines : list jsstring) (chunks : list (list byte)) :
  Forall (fun l => ~ In NL l) lines ->
  decode_all (List.concat chunks) = terminated lines ->
  stream_records JSON_parse chunks = omap (line_record JSON_parse) lines.
Proof.
  intros Hlines Htext.
  now rewrite stream_records_lines, Htext, scan_lines_terminated.
Qed.

Lemma serialize_seen (cps : list N) :
  serialize true cps = (true, utf16_string cps).
Proof.
  induction cps as [|cp cps IH]; simpl; [reflexivity|]. now rewrite IH.
Qed.

Lemma utf16_string_terminated (lines : list (list N)) :
  utf16_string (terminated lines) = terminated (map utf16_string lines).
Proof.
  unfold utf16_string.
  induction lines as [|l lines IH]; simpl; [reflexivity|].
  rewrite flat_map_app, flat_map_app, IH. reflexivity.
Qed.

Lemma terminated_scalar (lines : list (list N)) :
  Forall (Forall scalar_value) lines -> Forall scalar_value (terminated lines).
Proof.
  induction 1 as [|l lines Hl _ IH]; simpl; [constructor|].
  apply Forall_app. split; [|exact IH].
  apply Forall_app. split; [exact Hl|].
  repeat constructor.
Qed.

(** What the decoder makes of the encoded lines. *)
Lemma decode_all_lines (lines : list (list N)) :
  Forall (Forall scalar_value) lines ->
  decode_all (utf8_encode (terminated lines)) =
  terminated (map utf16_string (drop_BOM lines)).
Proof.
  intros Hs. unfold decode_all, decode_stream. simpl.
  rewrite encode_decode by now apply terminated_scalar.
  rewrite <- utf16_string_terminated.
  destruct lines as [|[|cp l] rest]; [reflexivity| |].
  - simpl. now rewrite serialize_seen.
  - unfold drop_BOM. simpl. fold BOM.
    destruct (cp =? BOM)%N; rewrite serialize_seen; reflexivity.
Qed.

Lemma utf16_string_no_NL (l : list N) :
  ~ In NL l -> ~ In NL (utf16_string l).
Proof.
  unfold utf16_string. induction l as [|cp l IH]; intros H; simpl; [tauto|].
  intros Hin. apply in_app_or in Hin. destruct Hin as [Hin|Hin].
  - unfold utf16 in Hin. destruct (cp <? 65536)%N.
    + destruct Hin as [Hin|[]]. apply H. now left.
    + unfold NL in Hin. destruct Hin as [Hin|[Hin|[]]]; lia.
  - apply IH; [|exact Hin]. intros Hl. apply H. now right.
Qed.

Lemma drop_BOM_no_NL (lines : list (list N)) :
  Forall (fun l => ~ In NL l) lines ->
  Forall (fun l => ~ In NL l) (map utf16_string (drop_BOM lines)).
Proof.
  intros H.
  assert (Hd : Forall (fun l => ~ In NL l) (drop_BOM lines)).
  { destruct lines as [|[|cp l] rest]; try exact H.
    unfold drop_BOM. destruct (cp =? BOM)%N; [|exact H].
    inversion H as [|? ? Hl Hrest]; subst. constructor; [|exact Hrest].
    intros Hin. apply Hl. now right. }
  clear H. induction Hd as [|l ls Hl _ IH]; simpl; constructor; [|exact IH].
  now apply utf16_string_no_NL.
Qed.

(** C1: the UTF-8 bytes of a sequence of newline-terminated lines give the
    same records however they are cut into chunks (a chunk may end inside a
    line or inside a multi-byte character); the records are those of the
    lines, in the order of the lines; and [executeTask] leaves the same
    page. *)
Theorem stream_records_fragmentation_independent
  (JSON_parse : jsstring -> option jsval)
  (lines : list (list N)) (frags1 frags2 : list (list byte)) :
  Forall (Forall scalar_value) lines ->
  Forall (fun l => ~ In NL l) lines ->
  List.concat frags1 = utf8_encode (terminated lines) ->
  List.concat frags2 = utf8_encode (terminated lines) ->
  stream_records JSON_parse frags1 = stream_records JSON_parse frags2 /\
  stream_records JSON_parse frags1 =
  omap (line_record JSON_parse) (map utf16_string (drop_BOM lines)) /\
  forall (fin : stream_end) (shot : reply) (w : World),
    executeTask JSON_parse (Body frags1 fin) shot w =
    executeTask JSON_parse (Body frags2 fin) shot w.
Proof.
  intros Hscalar Hlines H1 H2.
  split; [|split].
  - rewrite !stream_records_lines. now rewrite H1, H2.
  - apply stream_records_of_text; [now apply drop_BOM_no_NL|].
    rewrite H1. now apply decode_all_lines.
  - intros fin shot w. unfold executeTask, run_stream.
    rewrite !read_loop_lines. now rewrite H1, H2.
Qed.

Lemma stream_records_fragmentation_independent_witness :
  stream_records sample_parse cut_in_character =
  stream_records sample_parse byte_by_byte /\
  stream_records sample_parse cut_in_character =
  omap (line_record sample_parse)
    (map utf16_string (drop_BOM (map code_points sample_texts))) /\
  forall (fin : stream_end) (shot : reply) (w : World),
    executeTask sample_parse (Body cut_in_character fin) shot w =
    executeTask sample_parse (Body byte_by_byte fin) shot w.
Proof.
  apply (stream_records_fragmentation_independent sample_parse
           (map code_points sample_texts)).
  - repeat constructor.
  - repeat constructor; intros H; vm_compute in H; intuition discriminate.
  - vm_compute. reflexivity.
  - vm_compute. reflexivity.
Defined.

(** ** Lines that give no record *)

Section PageLines.

Variable JSON_parse : jsstring -> option jsval.

Lemma page_line_no_prefix (w : World) (line : jsstring) :
  startsWith line DATA_PREFIX = false -> page_line JSON_parse w line = w.
Proof. intros H. unfold page_line, process_line. now rewrite H. Qed.

Lemma page_line_malformed (w : World) (line : jsstring) :
  startsWith line DATA_PREFIX = true ->
  JSON_parse (slice 6 line) = None ->
  page_line JSON_parse w line = console_error "解析失败:" w.
Proof. intros H1 H2. unfold page_line, process_line. now rewrite H1, H2. Qed.

End PageLines.

Lemma omap_app {A B} (f : A -> option B) (l1 l2 : list A) :
  omap f (l1 ++ l2) = omap f l1 ++ omap f l2.
Proof.
  induction l1 as [|x l1 IH]; simpl; [reflexivity|].
  destruct (f x); simpl; now rewrite IH.
Qed.

(** C6: a complete line without the prefix [data: ] gives no record and
    leaves the page as it is; a line with the prefix whose rest does not parse
    gives no record either, costs one console error, and the lines after it
    are handled as if it had not been there. *)
Theorem line_without_record_is_dropped
  (JSON_parse : jsstring -> option jsval)
  (before after : list jsstring) (line : jsstring) :
  startsWith line DATA_PREFIX = false \/
  (startsWith line DATA_PREFIX = true /\ JSON_parse (slice 6 line) = None) ->
  line_record JSON_parse line = None /\
  omap (line_record JSON_parse) (before ++ line :: after) =
  omap (line_record JSON_parse) before ++ omap (line_record JSON_parse) after /\
  (forall chunks : list (list byte),
     Forall (fun l => ~ In NL l) (before ++ line :: after) ->
     decode_all (List.concat chunks) = terminated (before ++ line :: after) ->
     stream_records JSON_parse chunks =
     omap (line_record JSON_parse) before ++
     omap (line_record JSON_parse) after) /\
  forall w : World,
    fold_left (page_line JSON_parse) (before ++ line :: after) w =
    fold_left (page_line JSON_parse) after
      (let w' := fold_left (page_line JSON_parse) before w in
       if startsWith line DATA_PREFIX
       then console_error "解析失败:" w' else w').
Proof.
  intros H.
  assert (Hrec : line_record JSON_parse line = None).
  { unfold line_record. destruct H as [-> | [-> ->]]; reflexivity. }
  assert (Hmap : omap (line_record JSON_parse) (before ++ line :: after) =
                 omap (line_record JSON_parse) before ++
                 omap (line_record JSON_parse) after).
  { rewrite omap_app. simpl. now rewrite Hrec. }
  repeat split; try assumption.
  - intros chunks Hnl Htext.
    rewrite stream_records_lines, Htext, scan_lines_terminated by assumption.
    exact Hmap.
  - intros w. rewrite fold_left_app. simpl.
    destruct H as [H | [H1 H2]].
    + now rewrite page_line_no_prefix, H.
    + now rewrite page_line_malformed, H1.
Qed.

Lemma line_without_record_is_dropped_witness :
  line_record sample_parse (js "data: oops") = None /\
  omap (line_record sample_parse) (map js ["data: {é}"; "ping"]%string ++
                                   js "data: oops" :: [js "data: {2}"]) =
  omap (line_record sample_parse) (map js ["data: {é}"; "ping"]%string) ++
  omap (line_record sample_parse) [js "data: {2}"] /\
  (forall chunks : list (list byte),
     Forall (fun l => ~ In NL l) sample_lines ->
     decode_all (List.concat chunks) = terminated sample_lines ->
     stream_records sample_parse chunks =
     omap (line_record sample_parse) (map js ["data: {é}"; "ping"]%string) ++
     omap (line_record sample_parse) [js "data: {2}"]) /\
  forall w : World,
    fold_left (page_line sample_parse) sample_lines w =
    fold_left (page_line sample_parse) [js "data: {2}"]
      (let w' := fold_left (page_line sample_parse)
                   (map js ["data: {é}"; "ping"]%string) w in
       if startsWith (js "data: oops") DATA_PREFIX
       then console_error "解析失败:" w' else w').
Proof.
  apply (@line_without_record_is_dropped sample_parse
           (map js ["data: {é}"; "ping"]%string) [js "data: {2}"]
           (js "data: oops")).
  right. split; vm_compute; reflexivity.
Defined.

(** ** The dispatcher *)

Ltac split_ifs :=
  repeat match goal with
         | |- context [if ?c then _ else _] => destruct c eqn:?
         end.

Lemma render_step_frame (data : jsval) (w : World) :
  app (render_step data w) = app w /\
  device (render_step data w) = device w /\
  modal (render_step data w) = modal w /\
  browser (render_step data w) = browser w.
Proof.
  unfold render_step, updateOrAddThinking. split_ifs; repeat split.
Qed.

Lemma render_step_chat (data : jsval) (w1 w2 : World) :
  chat w1 = chat w2 -> chat (render_step data w1) = chat (render_step data w2).
Proof.
  intros H. unfold render_step, updateOrAddThinking. rewrite H.
  split_ifs; simpl; now rewrite H.
Qed.

(** C9: an event whose [screenshot] is set (truthy, as [if (data.screenshot)]
    tests it) replaces the frame with it whatever its [type]; the frame is set
    first, the step that renders the message runs on the world so updated,
    leaves the frame alone and renders what it would have rendered without
    the screenshot. *)
Theorem screenshot_updates_frame (data screenshot : jsval) (w : World) :
  get data (js "screenshot") = Some screenshot ->
  truthy screenshot = true ->
  exists w',
    handleStepResult data w = Some w' /\
    w' = render_step data (set_deviceScreen_src (ToString screenshot) w) /\
    deviceScreen_src (device w') = ToString screenshot /\
    chat w' = chat (render_step data w).
Proof.
  intros Hget Htruthy. unfold handleStepResult. rewrite Hget, Htruthy.
  eexists. split; [reflexivity|]. split; [reflexivity|]. split.
  - destruct (render_step_frame data
                (set_deviceScreen_src (ToString screenshot) w))
      as (_ & -> & _). reflexivity.
  - now apply render_step_chat.
Qed.

Lemma screenshot_updates_frame_witness :
  exists w',
    handleStepResult unknown_event_with_screenshot initial_World = Some w' /\
    w' = render_step unknown_event_with_screenshot
           (set_deviceScreen_src
              (ToString (JStr (js "data:image/png;base64,AAAA")))
              initial_World) /\
    deviceScreen_src (device w') =
    ToString (JStr (js "data:image/png;base64,AAAA")) /\
    chat w' = chat (render_step unknown_event_with_screenshot initial_World).
Proof.
  apply (@screenshot_updates_frame unknown_event_with_screenshot
           (JStr (js "data:image/png;base64,AAAA")) initial_World).
  - vm_compute. reflexivity.
  - vm_compute. reflexivity.
Defined.

(** ** The thinking placeholder *)

Lemma existsb_thinking_false (l : list chat_node) :
  existsb is_thinking l = false -> thinking_nodes l = [].
Proof.
  induction l as [|n l IH]; simpl; [reflexivity|].
  destruct (is_thinking n); simpl; [discriminate|exact IH].
Qed.

Lemma existsb_thinking_true (l : list chat_node) :
  existsb is_thinking l = true -> thinking_nodes l <> [].
Proof.
  induction l as [|n l IH]; simpl; [discriminate|].
  destruct (is_thinking n); simpl; [discriminate|exact IH].
Qed.

Lemma thinking_nodes_app (l1 l2 : list chat_node) :
  thinking_nodes (l1 ++ l2) = thinking_nodes l1 ++ thinking_nodes l2.
Proof. apply filter_app. Qed.

Lemma thinking_nodes_retext (text : jsstring) (l : list chat_node) :
  thinking_nodes (retext_first_thinking text l) =
  match thinking_nodes l with
  | [] => []
  | _ :: rest => ThinkingMessage text :: rest
  end.
Proof.
  induction l as [|n l IH]; simpl; [reflexivity|].
  destruct (is_thinking n) eqn:E; simpl; [reflexivity|].
  now rewrite E.
Qed.

Lemma thinking_nodes_remove (l : list chat_node) :
  thinking_nodes (remove_first is_thinking l) = tl (thinking_nodes l).
Proof.
  induction l as [|n l IH]; simpl; [reflexivity|].
  destruct (is_thinking n) eqn:E; simpl; [reflexivity|].
  now rewrite E.
Qed.

Lemma retext_length (text : jsstring) (l : list chat_node) :
  List.length (retext_first_thinking text l) = List.length l.
Proof.
  induction l as [|n l IH]; simpl; [reflexivity|].
  destruct (is_thinking n); simpl; congruence.
Qed.

Lemma escapeHtml_JStr (s : jsstring) : escapeHtml (JStr s) = s.
Proof. now destruct s. Qed.

Lemma handle_thinking (message : jsstring) (w : World) :
  handleStepResult (thinking_event message) w =
  Some (updateOrAddThinking (JStr message) w).
Proof. reflexivity. Qed.

Lemma handle_action (message : jsstring) (action : jsval) (w : World) :
  handleStepResult (action_event message action) w =
  Some (addSystemMessage (JStr message) (js "action") action JUndefined
          (removeThinking w)).
Proof. reflexivity. Qed.

(** At most one placeholder stays at most one, whatever is dispatched. *)
Lemma thinking_at_most_one (data : jsval) (w w' : World) :
  (List.length (thinking_nodes (chatContainer (chat w))) <= 1)%nat ->
  handleStepResult data w = Some w' ->
  (List.length (thinking_nodes (chatContainer (chat w'))) <= 1)%nat.
Proof.
  intros Hle. unfold handleStepResult.
  destruct (get data (js "screenshot")) as [shot|]; [|discriminate].
  intros H; inversion H; subst; clear H.
  assert (Hc : chat (render_step data
                       (if truthy shot
                        then set_deviceScreen_src (ToString shot) w else w)) =
               chat (render_step data w)).
  { apply render_step_chat. now destruct (truthy shot). }
  rewrite Hc. clear Hc.
  unfold render_step, updateOrAddThinking, addSystemMessage, removeThinking.
  split_ifs; simpl;
    rewrite ?thinking_nodes_app, ?thinking_nodes_retext,
      ?thinking_nodes_remove; simpl; rewrite ?app_nil_r;
    try assumption;
    try (destruct (thinking_nodes (chatContainer (chat w)));
         simpl in *; lia).
  rewrite existsb_thinking_false by assumption. simpl. lia.
Qed.

Lemma updateOrAddThinking_chat (v : jsval) (w : World) :
  chatContainer (chat (updateOrAddThinking v w)) =
  if existsb is_thinking (chatContainer (chat w))
  then retext_first_thinking (textContent_of v) (chatContainer (chat w))
  else chatContainer (chat w) ++ [ThinkingMessage (escapeHtml v)].
Proof.
  unfold updateOrAddThinking.
  now destruct (existsb is_thinking (chatContainer (chat w))).
Qed.

Lemma thinking_nodes_exists (l : list chat_node) :
  thinking_nodes l <> [] -> existsb is_thinking l = true.
Proof.
  intros H. destruct (existsb is_thinking l) eqn:E; [reflexivity|].
  now apply existsb_thinking_false in E.
Qed.

Lemma thinking_nodes_after_thinking (s : jsstring) (w : World) :
  (List.length (thinking_nodes (chatContainer (chat w))) <= 1)%nat ->
  thinking_nodes (chatContainer (chat (updateOrAddThinking (JStr s) w))) =
  [ThinkingMessage s].
Proof.
  intros Hle. rewrite updateOrAddThinking_chat.
  destruct (existsb is_thinking (chatContainer (chat w))) eqn:E.
  - rewrite thinking_nodes_retext. apply existsb_thinking_true in E.
    destruct (thinking_nodes (chatContainer (chat w))) as [|n [|n' rest]];
      simpl in *; [congruence|reflexivity|lia].
  - rewrite thinking_nodes_app, existsb_thinking_false by assumption.
    simpl. now rewrite escapeHtml_JStr.
Qed.

(** *** Where the placeholder stands *)

Lemma thinking_split (l : list chat_node) (t : chat_node) :
  thinking_nodes l = [t] ->
  exists pre post,
    l = pre ++ t :: post /\
    thinking_nodes pre = [] /\ thinking_nodes post = [].
Proof.
  induction l as [|n l IH]; simpl; [discriminate|].
  destruct (is_thinking n) eqn:E.
  - intros H. inversion H; subst. exists [], l. now repeat split.
  - intros H. destruct (IH H) as (pre & post & -> & Hpre & Hpost).
    exists (n :: pre), post. simpl. rewrite E. now repeat split.
Qed.

Lemma retext_split (pre post : list chat_node) (t : chat_node)
  (text : jsstring) :
  thinking_nodes pre = [] ->
  is_thinking t = true ->
  retext_first_thinking text (pre ++ t :: post) =
  pre ++ ThinkingMessage text :: post.
Proof.
  intros Hpre Ht. induction pre as [|n pre IH]; simpl.
  - now rewrite Ht.
  - simpl in Hpre. destruct (is_thinking n); [discriminate|].
    now rewrite IH.
Qed.

Lemma remove_split (pre post : list chat_node) (t : chat_node) :
  thinking_nodes pre = [] ->
  is_thinking t = true ->
  remove_first is_thinking (pre ++ t :: post) = pre ++ post.
Proof.
  intros Hpre Ht. induction pre as [|n pre IH]; simpl.
  - now rewrite Ht.
  - simpl in Hpre. destruct (is_thinking n); [discriminate|].
    now rewrite IH.
Qed.

(** *** Payloads that make no element *)

Lemma inert_chat_app (l1 l2 : list chat_node) :
  inert_chat (l1 ++ l2) = inert_chat l1 && inert_chat l2.
Proof. apply forallb_app. Qed.

Lemma inert_chat_retext (text : jsstring) (l : list chat_node) :
  inert_chat l = true -> inert_chat (retext_first_thinking text l) = true.
Proof.
  induction l as [|n l IH]; simpl; [reflexivity|].
  intros H. apply andb_true_iff in H. destruct H as [Hn Hl].
  destruct (is_thinking n); simpl; [exact Hl|].
  now rewrite Hn, IH.
Qed.

Lemma inert_chat_remove (p : chat_node -> bool) (l : list chat_node) :
  inert_chat l = true -> inert_chat (remove_first p l) = true.
Proof.
  induction l as [|n l IH]; simpl; [reflexivity|].
  intros H. apply andb_true_iff in H. destruct H as [Hn Hl].
  destruct (p n); simpl; [exact Hl|].
  now rewrite Hn, IH.
Qed.

Lemma inert_chat_append (n : chat_node) (l : list chat_node) :
  inert_chat l = true -> inert_node n = true -> inert_chat (l ++ [n]) = true.
Proof. intros Hl Hn. rewrite inert_chat_app, Hl. simpl. now rewrite Hn. Qed.

Lemma updateOrAddThinking_inert (v : jsval) (w : World) :
  inert_chat (chatContainer (chat w)) = true ->
  inert_chat (chatContainer (chat (updateOrAddThinking v w))) = true.
Proof.
  intros H. rewrite updateOrAddThinking_chat.
  destruct (existsb is_thinking (chatContainer (chat w))).
  - now apply inert_chat_retext.
  - now apply inert_chat_append.
Qed.

Lemma addSystemMessage_inert (message : jsval) (type : jsstring)
  (action debug : jsval) (w : World) :
  inert_chat (chatContainer (chat w)) = true ->
  (truthy action = true -> inert action = true) ->
  inert_chat
    (chatContainer (chat (addSystemMessage message type action debug w))) =
  true.
Proof.
  intros H Ha. unfold addSystemMessage. simpl.
  apply inert_chat_append; [exact H|]. simpl.
  destruct (truthy action); [now apply Ha|reflexivity].
Qed.

(** C7: for [thinking(a)], [thinking(b)], [action(...)] dispatched in this
    order on a chat with at most one placeholder, there is one placeholder
    after each thinking event; the second rewrites the text of that
    placeholder to [b] where it stands, and the action event removes the
    placeholder and then appends one message of the [action] style.  The
    chat is one in which no payload has made an element, the payload of the
    action is of that kind too, and the texts that go through markup ([a]
    for a new placeholder, [m] for the message) are plain: that is where the
    nodes are the elements of the page.  The second text is set as
    [textContent] and is shown as it is. *)
Theorem thinking_coalesced_then_action (a b m : jsstring) (act : jsval)
  (w : World) :
  (List.length (thinking_nodes (chatContainer (chat w))) <= 1)%nat ->
  inert_chat (chatContainer (chat w)) = true ->
  inert act = true ->
  plain a = true ->
  plain m = true ->
  exists w1 w2 w3 pre post,
    handleStepResult (thinking_event a) w = Some w1 /\
    handleStepResult (thinking_event b) w1 = Some w2 /\
    handleStepResult (action_event m act) w2 = Some w3 /\
    chatContainer (chat w1) = pre ++ ThinkingMessage a :: post /\
    chatContainer (chat w2) = pre ++ ThinkingMessage b :: post /\
    chatContainer (chat w3) =
    pre ++ post ++
    [SystemMessage (js "action") m
       (if truthy act then Some act else None) None] /\
    thinking_nodes pre = [] /\
    thinking_nodes post = [] /\
    thinking_nodes (chatContainer (chat w1)) = [ThinkingMessage a] /\
    thinking_nodes (chatContainer (chat w2)) = [ThinkingMessage b] /\
    thinking_nodes (chatContainer (chat w3)) = [] /\
    inert_chat (chatContainer (chat w1)) = true /\
    inert_chat (chatContainer (chat w2)) = true /\
    inert_chat (chatContainer (chat w3)) = true.
Proof.
  intros Hle Hin Hact _ _.
  pose (w1 := updateOrAddThinking (JStr a) w).
  pose (w2 := updateOrAddThinking (JStr b) w1).
  pose (w3 := addSystemMessage (JStr m) (js "action") act JUndefined
                (removeThinking w2)).
  assert (H1 : thinking_nodes (chatContainer (chat w1)) = [ThinkingMessage a])
    by now apply thinking_nodes_after_thinking.
  assert (H2 : thinking_nodes (chatContainer (chat w2)) = [ThinkingMessage b]).
  { apply thinking_nodes_after_thinking. rewrite H1. simpl. lia. }
  destruct (thinking_split _ _ H1) as (pre & post & E1 & Hpre & Hpost).
  assert (E2 : chatContainer (chat w2) = pre ++ ThinkingMessage b :: post).
  { unfold w2. rewrite updateOrAddThinking_chat.
    rewrite thinking_nodes_exists by (rewrite H1; discriminate).
    rewrite E1. now apply retext_split. }
  assert (E3 : chatContainer (chat w3) =
               pre ++ post ++
               [SystemMessage (js "action") m
                  (if truthy act then Some act else None) None]).
  { unfold w3, addSystemMessage, removeThinking. simpl.
    rewrite escapeHtml_JStr.
    change (chatContainer (chat (updateOrAddThinking (JStr b) w1)))
      with (chatContainer (chat w2)).
    rewrite E2, remove_split by easy. now rewrite <- app_assoc. }
  assert (I1 : inert_chat (chatContainer (chat w1)) = true)
    by now apply updateOrAddThinking_inert.
  assert (I2 : inert_chat (chatContainer (chat w2)) = true)
    by now apply updateOrAddThinking_inert.
  assert (I3 : inert_chat (chatContainer (chat w3)) = true).
  { apply addSystemMessage_inert; [|intros _; exact Hact].
    unfold removeThinking. simpl. now apply inert_chat_remove. }
  exists w1, w2, w3, pre, post.
  split; [apply handle_thinking|].
  split; [apply handle_thinking|].
  split; [apply handle_action|].
  split; [exact E1|]. split; [exact E2|]. split; [exact E3|].
  split; [exact Hpre|]. split; [exact Hpost|].
  split; [exact H1|]. split; [exact H2|].
  split; [|now repeat split].
  rewrite E3, !thinking_nodes_app, Hpre, Hpost. reflexivity.
Qed.

Lemma thinking_coalesced_then_action_witness :
  exists w1 w2 w3 pre post,
    handleStepResult (thinking_event (js "A")) initial_World = Some w1 /\
    handleStepResult (thinking_event (js "B")) w1 = Some w2 /\
    handleStepResult (action_event (js "tap") click_action) w2 = Some w3 /\
    chatContainer (chat w1) = pre ++ ThinkingMessage (js "A") :: post /\
    chatContainer (chat w2) = pre ++ ThinkingMessage (js "B") :: post /\
    chatContainer (chat w3) =
    pre ++ post ++
    [SystemMessage (js "action") (js "tap")
       (if truthy click_action then Some click_action else None) None] /\
    thinking_nodes pre = [] /\
    thinking_nodes post = [] /\
    thinking_nodes (chatContainer (chat w1)) = [ThinkingMessage (js "A")] /\
    thinking_nodes (chatContainer (chat w2)) = [ThinkingMessage (js "B")] /\
    thinking_nodes (chatContainer (chat w3)) = [] /\
    inert_chat (chatContainer (chat w1)) = true /\
    inert_chat (chatContainer (chat w2)) = true /\
    inert_chat (chatContainer (chat w3)) = true.
Proof.
  apply (thinking_coalesced_then_action (js "A") (js "B") (js "tap")
           click_action initial_World).
  - simpl. lia.
  - reflexivity.
  - vm_compute. reflexivity.
  - vm_compute. reflexivity.
  - vm_compute. reflexivity.
Defined.

(** ** Starting a task *)

(** C4, as the code has it: a text that is empty once trimmed returns at
    once and reports nothing; otherwise the task is refused with the warning
    "connect a device first" when no device is connected, and with the warning
    "already executing" when one is connected and a task is running.  A refused
    call leaves the object, the chat, the frame and the timers as they were and
    adds no request to the effects. *)
Theorem start_rejected (JSON_parse : jsstring -> option jsval)
  (net : execute_reply) (shot : reply) (w : World) :
  trim (messageInput_value (chat w)) = [] \/
  isConnected (app w) = false \/ isExecuting (app w) = true ->
  app (executeTask JSON_parse net shot w) = app w /\
  chat (executeTask JSON_parse net shot w) = chat w /\
  device (executeTask JSON_parse net shot w) = device w /\
  modal (executeTask JSON_parse net shot w) = modal w /\
  timers (browser (executeTask JSON_parse net shot w)) = timers (browser w) /\
  effects (browser (executeTask JSON_parse net shot w)) =
  effects (browser w) ++
  (if is_empty (trim (messageInput_value (chat w))) then []
   else if negb (isConnected (app w))
        then [Toast (js "请先连接设备") (js "warning")]
        else [Toast (js "正在执行中...") (js "warning")]).
Proof.
  intros H. unfold executeTask.
  destruct (is_empty (trim (messageInput_value (chat w)))) eqn:Et.
  - rewrite app_nil_r. repeat split.
  - destruct (isConnected (app w)) eqn:Ec; simpl.
    + destruct (isExecuting (app w)) eqn:Ex; simpl.
      * repeat split.
      * exfalso. destruct H as [H | [H | H]]; try discriminate.
        rewrite H in Et. discriminate.
    + repeat split.
Qed.

Lemma start_rejected_witness :
  app (executeTask sample_parse (Body [] EndOfStream) (Rejected [])
         (typed "open settings")) = app (typed "open settings") /\
  chat (executeTask sample_parse (Body [] EndOfStream) (Rejected [])
          (typed "open settings")) = chat (typed "open settings") /\
  device (executeTask sample_parse (Body [] EndOfStream) (Rejected [])
            (typed "open settings")) = device (typed "open settings") /\
  modal (executeTask sample_parse (Body [] EndOfStream) (Rejected [])
           (typed "open settings")) = modal (typed "open settings") /\
  timers (browser (executeTask sample_parse (Body [] EndOfStream)
                     (Rejected []) (typed "open settings"))) =
  timers (browser (typed "open settings")) /\
  effects (browser (executeTask sample_parse (Body [] EndOfStream)
                      (Rejected []) (typed "open settings"))) =
  effects (browser (typed "open settings")) ++
  (if is_empty (trim (messageInput_value (chat (typed "open settings"))))
   then []
   else if negb (isConnected (app (typed "open settings")))
        then [Toast (js "请先连接设备") (js "warning")]
        else [Toast (js "正在执行中...") (js "warning")]).
Proof.
  apply (@start_rejected sample_parse (Body [] EndOfStream) (Rejected [])
           (typed "open settings")).
  right. left. reflexivity.
Defined.

(** With only blanks in the input and no device connected, the call returns
    before the connection is looked at: nothing is reported. *)
Lemma blank_text_not_reported_counterexample :
  isConnected (app (typed "  ")) = false /\
  executeTask sample_parse (Body [] EndOfStream) (Rejected []) (typed "  ") =
  typed "  " /\
  executeTask sample_parse (Body [] EndOfStream) (Rejected []) (typed "  ") <>
  showToast (js "请先连接设备") (js "warning") (typed "  ").
Proof.
  split; [reflexivity|]. split; [reflexivity|].
  intros H. apply (f_equal (fun x => effects (browser x))) in H.
  vm_compute in H. discriminate H.
Qed.

(** ** The end of an execution *)

Section Execution.

Variable JSON_parse : jsstring -> option jsval.

Lemma handleStepResult_frame (data : jsval) (w w' : World) :
  handleStepResult data w = Some w' ->
  app w' = app w /\ modal w' = modal w /\ browser w' = browser w.
Proof.
  unfold handleStepResult.
  destruct (get data (js "screenshot")) as [shot|]; [|discriminate].
  intros H; inversion H; subst; clear H.
  destruct (render_step_frame data
              (if truthy shot then set_deviceScreen_src (ToString shot) w
               else w)) as (-> & _ & -> & ->).
  now destruct (truthy shot).
Qed.

Lemma page_line_effects (w : World) (line : jsstring) :
  app (page_line JSON_parse w line) = app w /\
  exists errs,
    effects (browser (page_line JSON_parse w line)) =
    effects (browser w) ++ errs /\ quiet errs.
Proof.
  assert (Herr : app (console_error "解析失败:" w) = app w /\
                 exists errs,
                   effects (browser (console_error "解析失败:" w)) =
                   effects (browser w) ++ errs /\ quiet errs).
  { split; [reflexivity|]. eexists. split; [reflexivity|].
    now repeat constructor. }
  assert (Hsame : app w = app w /\
                  exists errs,
                    effects (browser w) = effects (browser w) ++ errs /\
                    quiet errs).
  { split; [reflexivity|]. exists []. split; [now rewrite app_nil_r|].
    constructor. }
  unfold page_line, process_line.
  destruct (startsWith line DATA_PREFIX); [|exact Hsame].
  destruct (JSON_parse (slice 6 line)) as [data|]; [|exact Herr].
  destruct (handleStepResult data w) as [w'|] eqn:E; [|exact Herr].
  apply handleStepResult_frame in E. destruct E as (-> & _ & ->).
  exact Hsame.
Qed.

Lemma page_lines_effects (lines : list jsstring) : forall w : World,
  app (fold_left (page_line JSON_parse) lines w) = app w /\
  exists errs,
    effects (browser (fold_left (page_line JSON_parse) lines w)) =
    effects (browser w) ++ errs /\ quiet errs.
Proof.
  induction lines as [|l lines IH]; intros w; simpl.
  - split; [reflexivity|]. exists []. split; [now rewrite app_nil_r|].
    constructor.
  - destruct (IH (page_line JSON_parse w l)) as (Ha & e2 & He2 & Hq2).
    destruct (page_line_effects w l) as (Ha1 & e1 & He1 & Hq1).
    split; [congruence|]. exists (e1 ++ e2). split.
    + rewrite He2, He1. now rewrite app_assoc.
    + now apply Forall_app.
Qed.

Lemma run_stream_effects (task : jsstring) (net : execute_reply) (w : World) :
  app (run_stream JSON_parse task net w) = app w /\
  exists during,
    effects (browser (run_stream JSON_parse task net w)) =
    effects (browser w) ++
    Fetch (js "POST") (js "/api/chat/execute") (JObj [(js "task", JStr task)])
    :: during /\ quiet during.
Proof.
  unfold run_stream. destruct net as [m | chunks fin].
  - split; [reflexivity|]. exists []. split; [reflexivity|constructor].
  - rewrite read_loop_lines.
    match goal with
    | |- context [fold_left ?f ?ls ?w0] =>
        destruct (page_lines_effects ls w0) as (Ha & errs & He & Hq)
    end.
    unfold page_line in Ha, He.
    destruct fin as [|m]; (split; [exact Ha|]); exists errs;
      (split; [|exact Hq]); simpl; rewrite He; simpl;
      now rewrite <- app_assoc.
Qed.

Lemma refreshScreen_effects (shot : reply) (w : World) :
  isConnected (app w) = true ->
  app (refreshScreen shot w) = app w /\
  chat (refreshScreen shot w) = chat w /\
  timers (browser (refreshScreen shot w)) = timers (browser w) /\
  exists after,
    effects (browser (refreshScreen shot w)) =
    effects (browser w) ++
    Fetch (js "GET") (js "/api/device/screenshot") JUndefined :: after /\
    quiet after.
Proof.
  intros Hc. unfold refreshScreen. rewrite Hc. simpl.
  assert (Herr : quiet [ConsoleError (js "刷新截图失败:")])
    by now repeat constructor.
  destruct shot as [m | data].
  - repeat split. eexists. split; [|exact Herr]. simpl.
    now rewrite <- app_assoc.
  - destruct (get data (js "success")) as [ok|].
    + destruct (truthy ok); repeat split; exists [];
        (split; [reflexivity|constructor]).
    + repeat split. eexists. split; [|exact Herr]. simpl.
      now rewrite <- app_assoc.
Qed.

End Execution.

(** C8: a task that was started ends, whatever the request and the stream
    do, with the input enabled again, the send button back, [isExecuting]
    false, one request to [/api/chat/execute] (no second attempt) and, after
    it, one request for a screenshot; a rejected request or a rejected read
    adds one error message to what the chat would otherwise show. *)
Theorem execution_always_released (JSON_parse : jsstring -> option jsval)
  (net : execute_reply) (shot : reply) (w : World) :
  trim (messageInput_value (chat w)) <> [] ->
  isConnected (app w) = true ->
  isExecuting (app w) = false ->
  messageInput_disabled (chat (executeTask JSON_parse net shot w)) = false /\
  btnSend_hidden (chat (executeTask JSON_parse net shot w)) = false /\
  btnStop_hidden (chat (executeTask JSON_parse net shot w)) = true /\
  isExecuting (app (executeTask JSON_parse net shot w)) = false /\
  (exists during after,
     effects (browser (executeTask JSON_parse net shot w)) =
     effects (browser w) ++
     Fetch (js "POST") (js "/api/chat/execute")
       (JObj [(js "task", JStr (trim (messageInput_value (chat w))))])
     :: during ++
     Fetch (js "GET") (js "/api/device/screenshot") JUndefined :: after /\
     quiet during /\ quiet after) /\
  match net with
  | FetchFailed m =>
      chatContainer (chat (executeTask JSON_parse net shot w)) =
      remove_first is_welcome (chatContainer (chat w)) ++
      [Message (js "user") (trim (messageInput_value (chat w)));
       SystemMessage (js "error") (js "❌ 执行出错: " ++ m) None None]
  | Body chunks (ReadFailed m) =>
      chatContainer (chat (executeTask JSON_parse net shot w)) =
      chatContainer
        (chat (executeTask JSON_parse (Body chunks EndOfStream) shot w)) ++
      [SystemMessage (js "error") (js "❌ 执行出错: " ++ m) None None]
  | Body chunks EndOfStream => True
  end.
Proof.
  intros Ht Hc Hx. unfold executeTask.
  destruct (is_empty (trim (messageInput_value (chat w)))) eqn:Et.
  { destruct (trim (messageInput_value (chat w))); [congruence|discriminate]. }
  rewrite Hc, Hx. cbn [negb].
  set (task := trim (messageInput_value (chat w))).
  set (w1 := setExecutingState true
               (addMessage (js "user") (JStr task)
                  (upd_chatContainer (remove_first is_welcome)
                     (set_messageInput_value [] w)))).
  assert (Hw1 : forall net', isConnected
            (app (setExecutingState false
                    (run_stream JSON_parse task net' w1))) = true).
  { intros net'. destruct (run_stream_effects JSON_parse task net' w1)
      as (Ha & _). simpl. rewrite Ha. exact Hc. }
  destruct (refreshScreen_effects shot _ (Hw1 net))
    as (Happ & Hchat & _ & after & Heff & Hqa).
  rewrite Happ, Hchat, Heff.
  destruct (run_stream_effects JSON_parse task net w1)
    as (Ha & during & Hd & Hqd).
  repeat split.
  - exists during, after. split; [|now split].
    simpl. rewrite Hd. simpl. now rewrite <- app_assoc.
  - destruct net as [m | chunks [|m]]; [| exact I |].
    + simpl. rewrite !escapeHtml_JStr. now rewrite <- app_assoc.
    + destruct (refreshScreen_effects shot _ (Hw1 (Body chunks EndOfStream)))
        as (_ & -> & _).
      simpl. now rewrite escapeHtml_JStr.
Qed.

Lemma execution_always_released_witness :
  messageInput_disabled
    (chat (executeTask sample_parse broken_stream
             (Rejected []) (connected_typed "open settings"))) = false /\
  btnSend_hidden
    (chat (executeTask sample_parse broken_stream
             (Rejected []) (connected_typed "open settings"))) = false /\
  btnStop_hidden
    (chat (executeTask sample_parse broken_stream
             (Rejected []) (connected_typed "open settings"))) = true /\
  isExecuting
    (app (executeTask sample_parse broken_stream
            (Rejected []) (connected_typed "open settings"))) = false /\
  (exists during after,
     effects
       (browser (executeTask sample_parse
                   broken_stream
                   (Rejected []) (connected_typed "open settings"))) =
     effects (browser (connected_typed "open settings")) ++
     Fetch (js "POST") (js "/api/chat/execute")
       (JObj [(js "task",
               JStr (trim (messageInput_value
                             (chat (connected_typed "open settings")))))])
     :: during ++
     Fetch (js "GET") (js "/api/device/screenshot") JUndefined :: after /\
     quiet during /\ quiet after) /\
  chatContainer
    (chat (executeTask sample_parse
             broken_stream
             (Rejected []) (connected_typed "open settings"))) =
  chatContainer
    (chat (executeTask sample_parse (Body cut_in_character EndOfStream)
             (Rejected []) (connected_typed "open settings"))) ++
  [SystemMessage (js "error") (js "❌ 执行出错: " ++ js "network error")
     None None].
Proof.
  apply (@execution_always_released sample_parse
           broken_stream
           (Rejected []) (connected_typed "open settings")).
  - vm_compute. discriminate.
  - reflexivity.
  - reflexivity.
Defined.

(** ** The pairing poll *)

Section Pairing.

Variable TypeError_message : jsstring.

Lemma live_perform (k : timer_kind) (e : effect) (w : World) :
  live k (perform e w) = live k w.
Proof. reflexivity. Qed.

Lemma live_setInterval (k k' : timer_kind) (w : World) :
  live k (snd (setInterval k' w)) =
  live k w ++ (if timer_kind_eqb k' k then [next_timer (browser w)] else []).
Proof.
  unfold live, setInterval. simpl. rewrite filter_app, map_app. simpl.
  now destruct (timer_kind_eqb k' k).
Qed.

Lemma live_clearInterval (k : timer_kind) (id : positive) (w : World) :
  live k (clearInterval id w) =
  filter (fun i => negb (Pos.eqb i id)) (live k w).
Proof.
  unfold live, clearInterval. simpl.
  induction (timers (browser w)) as [|[i k0] l IH]; simpl; [reflexivity|].
  destruct (Pos.eqb i id) eqn:Ei; simpl;
    destruct (timer_kind_eqb k0 k) eqn:Ek; simpl;
    rewrite ?Ei; simpl; now rewrite IH.
Qed.

Lemma stopWirelessPolling_field (w : World) :
  wirelessPollingInterval (app (stopWirelessPolling w)) = None.
Proof.
  unfold stopWirelessPolling.
  now destruct (wirelessPollingInterval (app w)) eqn:E.
Qed.

Lemma stopWirelessPolling_effects (w : World) :
  effects (browser (stopWirelessPolling w)) = effects (browser w).
Proof.
  unfold stopWirelessPolling.
  now destruct (wirelessPollingInterval (app w)).
Qed.

Lemma stopWirelessPolling_live (w : World) :
  poll_tracked w -> live WirelessPollTimer (stopWirelessPolling w) = [].
Proof.
  unfold poll_tracked, stopWirelessPolling. intros H.
  destruct (wirelessPollingInterval (app w)) as [id|]; [|exact H].
  change (live WirelessPollTimer (clearInterval id w) = []).
  rewrite live_clearInterval, H. simpl. now rewrite Pos.eqb_refl.
Qed.

Lemma stopWirelessPolling_idle (w : World) :
  wirelessPollingInterval (app w) = None -> stopWirelessPolling w = w.
Proof. unfold stopWirelessPolling. now intros ->. Qed.

(** The poll half of the timer discipline: a start cancels the timer the
    object holds, so one poll timer is live afterwards. *)
Lemma startWirelessPolling_one (w : World) :
  poll_tracked w ->
  live WirelessPollTimer (startWirelessPolling w) = [next_timer (browser w)] /\
  poll_tracked (startWirelessPolling w).
Proof.
  intros H. pose proof (stopWirelessPolling_live w H) as Hs.
  assert (Hn : next_timer (browser (stopWirelessPolling w)) =
               next_timer (browser w)).
  { unfold stopWirelessPolling.
    now destruct (wirelessPollingInterval (app w)). }
  unfold startWirelessPolling.
  pose proof (live_setInterval WirelessPollTimer WirelessPollTimer
                (stopWirelessPolling w)) as Hl.
  destruct (setInterval WirelessPollTimer (stopWirelessPolling w))
    as [id w2] eqn:E.
  assert (Hid : id = next_timer (browser w)).
  { unfold setInterval in E. inversion E. exact Hn. }
  simpl in Hl. rewrite Hs, Hn in Hl. simpl in Hl.
  unfold poll_tracked.
  change (live WirelessPollTimer (set_wirelessPollingInterval (Some id) w2))
    with (live WirelessPollTimer w2).
  rewrite Hl. simpl. now rewrite Hid.
Qed.

Lemma updateConnectionStatus_frame (info : jsval) (w : World) :
  app (updateConnectionStatus true info w) = app w /\
  modal (updateConnectionStatus true info w) = modal w /\
  browser (updateConnectionStatus true info w) = browser w.
Proof. unfold updateConnectionStatus. now destruct (truthy info). Qed.

Lemma quiet_no_connect (es : list effect) :
  quiet es -> Forall (fun e => is_connect_request e = false) es.
Proof.
  induction 1 as [|e es He _ IH]; constructor; [|exact IH].
  now destruct e.
Qed.

Lemma startScreenRefresh_frame (shot : reply) (w : World) :
  isConnected (app w) = true ->
  wirelessPollingInterval (app (startScreenRefresh shot w)) =
  wirelessPollingInterval (app w) /\
  modal (startScreenRefresh shot w) = modal w /\
  live WirelessPollTimer (startScreenRefresh shot w) =
  live WirelessPollTimer w /\
  exists after,
    effects (browser (startScreenRefresh shot w)) =
    effects (browser w) ++ after /\
    Forall (fun e => is_connect_request e = false) after.
Proof.
  intros Hc. unfold startScreenRefresh.
  pose proof (live_setInterval WirelessPollTimer ScreenRefreshTimer
                (refreshScreen shot w)) as Hl.
  destruct (setInterval ScreenRefreshTimer (refreshScreen shot w))
    as [id w2] eqn:E.
  unfold setInterval in E. inversion E; subst; clear E.
  simpl in Hl. rewrite app_nil_r in Hl.
  destruct (refreshScreen_effects shot w Hc)
    as (Ha & _ & Ht & after & He & Hq).
  split; [simpl; now rewrite Ha|].
  split.
  { simpl. unfold refreshScreen. rewrite Hc. simpl.
    destruct shot as [m|data]; [reflexivity|].
    destruct (get data (js "success")) as [ok|]; [|reflexivity].
    now destruct (truthy ok). }
  split.
  { etransitivity; [exact Hl|]. unfold live. now rewrite Ht. }
  eexists. split; [simpl; exact He|].
  constructor; [reflexivity|now apply quiet_no_connect].
Qed.

Lemma connectWirelessDevice_sequence (ip port : jsval) (connect shot : reply)
  (w : World) :
  connectWirelessDevice TypeError_message ip port connect shot w =
  connect_sequence TypeError_message
    (ToString ip ++ js ":" ++ ToString port) (js "正在连接无线设备...")
    (js "无线设备连接成功！") connect shot w.
Proof. reflexivity. Qed.

Lemma connectDevice_sequence (connect shot : reply) (w : World) :
  is_empty (trim (deviceSerial_value (modal w))) = false ->
  connectDevice TypeError_message connect shot w =
  connect_sequence TypeError_message
    (trim (deviceSerial_value (modal w))) (js "正在连接设备...")
    (js "设备连接成功！") connect shot w.
Proof. intros H. unfold connectDevice. now rewrite H. Qed.

(** What one connection attempt does to the poll, to the modal and to the
    network. *)
Lemma connect_sequence_once (serial loading success : jsstring)
  (connect shot : reply) (w : World) :
  wirelessPollingInterval
    (app (connect_sequence TypeError_message serial loading success
            connect shot w)) = None /\
  live WirelessPollTimer
    (connect_sequence TypeError_message serial loading success connect shot w) =
  live WirelessPollTimer (stopWirelessPolling w) /\
  wirelessDevice_text
    (modal (connect_sequence TypeError_message serial loading success
              connect shot w)) = wirelessDevice_text (modal w) /\
  exists after,
    effects
      (browser (connect_sequence TypeError_message serial loading success
                  connect shot w)) =
    effects (browser w) ++
    Fetch (js "POST") (js "/api/device/connect")
      (JObj [(js "serial", JStr serial)])
    :: after /\
    Forall (fun e => is_connect_request e = false) after.
Proof.
  unfold connect_sequence, hideConnectModal.
  set (w0 := stopWirelessPolling (set_connectModal_hidden true w)).
  assert (H0 : wirelessPollingInterval (app w0) = None)
    by apply stopWirelessPolling_field.
  assert (L0 : live WirelessPollTimer w0 =
               live WirelessPollTimer (stopWirelessPolling w)).
  { unfold w0, stopWirelessPolling. simpl.
    now destruct (wirelessPollingInterval (app w)). }
  assert (M0 : wirelessDevice_text (modal w0) = wirelessDevice_text (modal w)).
  { unfold w0, stopWirelessPolling. simpl.
    now destruct (wirelessPollingInterval (app w)). }
  assert (E0 : effects (browser w0) = effects (browser w)).
  { unfold w0. now rewrite stopWirelessPolling_effects. }
  assert (Htoast : forall m t,
            Forall (fun e => is_connect_request e = false) [Toast m t])
    by (intros; now repeat constructor).
  destruct connect as [m | data].
  - simpl. rewrite H0, M0, E0. repeat split; [exact L0|].
    eexists. split; [now rewrite <- !app_assoc|]. apply Htoast.
  - destruct (get data (js "success")) as [ok|].
    + destruct (truthy ok).
      * match goal with
        | |- context [updateConnectionStatus true ?i ?x] =>
            destruct (updateConnectionStatus_frame i x) as (Ua & Um & Ub);
            set (wb := updateConnectionStatus true i x) in *
        end.
        clearbody wb. simpl in Ua, Um, Ub.
        assert (Hc : isConnected (app (showScreen wb)) = true)
          by (simpl; now rewrite Ua).
        destruct (startScreenRefresh_frame shot _ Hc)
          as (Hf & Hm & Hl & after & He & Hq).
        set (wd := startScreenRefresh shot (showScreen wb)) in *.
        clearbody wd. simpl in *.
        rewrite Hf, Hm, He, Ua, Um, Ub. simpl.
        rewrite H0, M0, E0. split; [reflexivity|].
        split.
        { etransitivity; [exact Hl|]. unfold live in *. simpl.
          rewrite Ub. exact L0. }
        split; [reflexivity|].
        eexists. split; [now rewrite <- !app_assoc|].
        apply Forall_app. split; [exact Hq|apply Htoast].
      * simpl. rewrite H0, M0, E0. repeat split; [exact L0|].
        eexists. split; [now rewrite <- !app_assoc|]. apply Htoast.
    + simpl. rewrite H0, M0, E0. repeat split; [exact L0|].
      eexists. split; [now rewrite <- !app_assoc|]. apply Htoast.
Qed.

End Pairing.

Lemma handleWirelessStatus_connected (T : jsstring) (data : jsval)
  (connect shot : reply) (w : World) :
  get data (js "status") = Some (JStr (js "connected")) ->
  handleWirelessStatus T data connect shot w =
  Some (connectWirelessDevice T (prop data "device_ip")
          (prop data "device_port") connect shot
          (showWirelessSuccess (prop data "device_ip")
             (prop data "device_port") (stopWirelessPolling w))).
Proof. intros H. unfold handleWirelessStatus. now rewrite H. Qed.

(** C5: a poll that comes back with [success] and the status [connected]
    clears the poll timer, shows the address, and makes one request to
    [/api/device/connect] whose serial is the address as [ip:port]; the
    request follows the status request directly, nothing asks the user. *)
Theorem connected_status_connects_once (T : jsstring) (data ok : jsval)
  (connect shot : reply) (w : World) :
  poll_tracked w ->
  get data (js "success") = Some ok ->
  truthy ok = true ->
  get data (js "status") = Some (JStr (js "connected")) ->
  wirelessPollingInterval
    (app (wirelessPollTick T (Resolved data) connect shot w)) = None /\
  live WirelessPollTimer (wirelessPollTick T (Resolved data) connect shot w) =
  [] /\
  wirelessDevice_text
    (modal (wirelessPollTick T (Resolved data) connect shot w)) =
  js "设备地址: " ++ ToString (prop data "device_ip") ++ js ":" ++
  ToString (prop data "device_port") /\
  exists after,
    effects (browser (wirelessPollTick T (Resolved data) connect shot w)) =
    effects (browser w) ++
    Fetch (js "GET") (js "/api/device/wireless/status") JUndefined
    :: Fetch (js "POST") (js "/api/device/connect")
         (JObj [(js "serial",
                 JStr (ToString (prop data "device_ip") ++ js ":" ++
                       ToString (prop data "device_port")))])
    :: after /\
    Forall (fun e => is_connect_request e = false) after.
Proof.
  intros Hinv Hs Ht Hst. unfold wirelessPollTick.
  rewrite Hs, Ht, (handleWirelessStatus_connected T data connect shot _ Hst).
  set (w0 := perform (Fetch (js "GET") (js "/api/device/wireless/status")
                        JUndefined) w).
  set (ip := prop data "device_ip"). set (port := prop data "device_port").
  set (w1 := showWirelessSuccess ip port (stopWirelessPolling w0)).
  assert (Hf1 : wirelessPollingInterval (app w1) = None)
    by apply (stopWirelessPolling_field w0).
  assert (Hl0 : live WirelessPollTimer (stopWirelessPolling w0) = [])
    by now apply stopWirelessPolling_live.
  rewrite connectWirelessDevice_sequence.
  destruct (connect_sequence_once T (ToString ip ++ js ":" ++ ToString port)
              (js "正在连接无线设备...") (js "无线设备连接成功！") connect shot
              w1)
    as (Hf & Hl & Hm & after & He & Hq).
  rewrite Hf, Hl, Hm, He. rewrite (stopWirelessPolling_idle _ Hf1).
  split; [reflexivity|]. split; [exact Hl0|]. split; [reflexivity|].
  exists after. split; [|exact Hq].
  unfold w1, showWirelessSuccess. simpl.
  rewrite stopWirelessPolling_effects. simpl. now rewrite <- app_assoc.
Qed.

Lemma connected_status_connects_once_witness :
  wirelessPollingInterval (app (sample_tick connected_reply connecting_World)) =
  None /\
  live WirelessPollTimer (sample_tick connected_reply connecting_World) = [] /\
  wirelessDevice_text (modal (sample_tick connected_reply connecting_World)) =
  js "设备地址: " ++ ToString (JStr (js "10.0.0.5")) ++ js ":" ++
  ToString (JNum 5555) /\
  exists after,
    effects (browser (sample_tick connected_reply connecting_World)) =
    effects (browser connecting_World) ++
    Fetch (js "GET") (js "/api/device/wireless/status") JUndefined
    :: Fetch (js "POST") (js "/api/device/connect")
         (JObj [(js "serial",
                 JStr (ToString (JStr (js "10.0.0.5")) ++ js ":" ++
                       ToString (JNum 5555)))])
    :: after /\
    Forall (fun e => is_connect_request e = false) after.
Proof.
  apply (connected_status_connects_once sample_TypeError
           (JObj [(js "success", JBool true);
                  (js "status", JStr (js "connected"));
                  (js "device_ip", JStr (js "10.0.0.5"));
                  (js "device_port", JNum 5555)])
           (JBool true) ok_reply ok_reply connecting_World).
  - vm_compute. reflexivity.
  - vm_compute. reflexivity.
  - reflexivity.
  - vm_compute. reflexivity.
Defined.

(** The run of section 8 of the specification, evaluated: one connect request
    in the whole session, with the serial [10.0.0.5:5555]. *)
Example pairing_run_connects_once :
  filter is_connect_request
    (effects (browser (sample_tick connected_reply connecting_World))) =
  [Fetch (js "POST") (js "/api/device/connect")
     (JObj [(js "serial", JStr (js "10.0.0.5:5555"))])] /\
  live WirelessPollTimer connecting_World = [1%positive] /\
  live WirelessPollTimer (sample_tick connected_reply connecting_World) = [].
Proof. vm_compute. repeat split. Qed.

(** C10: a poll whose answer has a false [success] changes nothing: the
    status request is the only effect (no toast, no console error), the
    status shown, the object and the timers stay as they were, so the poll
    timer goes on ticking. *)
Theorem unsuccessful_poll_ignored (T : jsstring) (data ok : jsval)
  (connect shot : reply) (w : World) :
  get data (js "success") = Some ok ->
  truthy ok = false ->
  wirelessPollTick T (Resolved data) connect shot w =
  perform (Fetch (js "GET") (js "/api/device/wireless/status") JUndefined) w /\
  app (wirelessPollTick T (Resolved data) connect shot w) = app w /\
  modal (wirelessPollTick T (Resolved data) connect shot w) = modal w /\
  timers (browser (wirelessPollTick T (Resolved data) connect shot w)) =
  timers (browser w) /\
  effects (browser (wirelessPollTick T (Resolved data) connect shot w)) =
  effects (browser w) ++
  [Fetch (js "GET") (js "/api/device/wireless/status") JUndefined].
Proof.
  intros Hs Ht. unfold wirelessPollTick. rewrite Hs, Ht. repeat split.
Qed.

Lemma unsuccessful_poll_ignored_witness :
  sample_tick
    (Resolved (JObj [(js "success", JBool false);
                     (js "status", JStr (js "connected"))])) pairing_World =
  perform (Fetch (js "GET") (js "/api/device/wireless/status") JUndefined)
    pairing_World /\
  app (sample_tick
         (Resolved (JObj [(js "success", JBool false);
                          (js "status", JStr (js "connected"))]))
         pairing_World) = app pairing_World /\
  modal (sample_tick
           (Resolved (JObj [(js "success", JBool false);
                            (js "status", JStr (js "connected"))]))
           pairing_World) = modal pairing_World /\
  timers (browser (sample_tick
                     (Resolved (JObj [(js "success", JBool false);
                                      (js "status", JStr (js "connected"))]))
                     pairing_World)) = timers (browser pairing_World) /\
  effects (browser (sample_tick
                      (Resolved (JObj [(js "success", JBool false);
                                       (js "status", JStr (js "connected"))]))
                      pairing_World)) =
  effects (browser pairing_World) ++
  [Fetch (js "GET") (js "/api/device/wireless/status") JUndefined].
Proof.
  apply (unsuccessful_poll_ignored sample_TypeError
           (JObj [(js "success", JBool false);
                  (js "status", JStr (js "connected"))])
           (JBool false) ok_reply ok_reply pairing_World).
  - vm_compute. reflexivity.
  - reflexivity.
Defined.

(** ** Where the code leaves a timer running *)

(** C3, evaluated: after [pair_failed] the poll timer of the session is
    still live and still held by the object, and the next status is handled
    like any other: [pairing] puts the display back to pairing, [connected]
    connects the device.  The [timeout] status, in the same switch, does stop
    the poll. *)
Theorem failed_status_keeps_polling :
  live WirelessPollTimer pairing_World = [1%positive] /\
  live WirelessPollTimer
    (sample_tick (status_reply "pair_failed") pairing_World) = [1%positive] /\
  wirelessPollingInterval
    (app (sample_tick (status_reply "pair_failed") pairing_World)) =
  Some 1%positive /\
  wirelessStatus_className
    (modal (sample_tick (status_reply "pair_failed") pairing_World)) =
  js "wireless-status error" /\
  wirelessStatus_className
    (modal (sample_tick (status_reply "pairing")
              (sample_tick (status_reply "pair_failed") pairing_World))) =
  js "wireless-status pairing" /\
  filter is_connect_request
    (effects (browser (sample_tick connected_reply
                         (sample_tick (status_reply "pair_failed")
                            pairing_World)))) =
  [Fetch (js "POST") (js "/api/device/connect")
     (JObj [(js "serial", JStr (js "10.0.0.5:5555"))])] /\
  live WirelessPollTimer
    (sample_tick (status_reply "timeout") pairing_World) = [].
Proof. vm_compute. repeat split. Qed.

(** The same for [connect_failed] and [error], on any world: the object and
    the timers are left as they are. *)
Lemma failure_status_leaves_poll (T : jsstring) (data : jsval) (name : string)
  (connect shot : reply) (w : World) :
  name = "pair_failed"%string \/ name = "connect_failed"%string \/
  name = "error"%string ->
  get data (js "status") = Some (JStr (js name)) ->
  exists w',
    handleWirelessStatus T data connect shot w = Some w' /\
    app w' = app w /\ browser w' = browser w.
Proof.
  intros Hn Hs. unfold handleWirelessStatus. rewrite Hs.
  eexists. split; [reflexivity|].
  destruct Hn as [-> | [-> | ->]]; split; reflexivity.
Qed.

(** C2, evaluated: [startScreenRefresh] never cancels, so every call adds a
    live refresh timer; after two successful connections two are live and the
    object holds the handle of the second only. *)
Theorem screen_refresh_timers_accumulate :
  (forall (shot : reply) (w : World),
     live ScreenRefreshTimer (startScreenRefresh shot w) =
     live ScreenRefreshTimer w ++ [next_timer (browser w)]) /\
  live ScreenRefreshTimer
    (connectDevice sample_TypeError ok_reply ok_reply usb_World) =
  [1%positive] /\
  live ScreenRefreshTimer
    (connectDevice sample_TypeError ok_reply ok_reply
       (connectDevice sample_TypeError ok_reply ok_reply usb_World)) =
  [1%positive; 2%positive] /\
  screenRefreshInterval
    (app (connectDevice sample_TypeError ok_reply ok_reply
            (connectDevice sample_TypeError ok_reply ok_reply usb_World))) =
  Some 2%positive.
Proof.
  split; [|vm_compute; repeat split].
  intros shot w. unfold startScreenRefresh.
  pose proof (live_setInterval ScreenRefreshTimer ScreenRefreshTimer
                (refreshScreen shot w)) as Hl.
  destruct (setInterval ScreenRefreshTimer (refreshScreen shot w))
    as [id w2] eqn:E.
  unfold setInterval in E. inversion E; subst; clear E.
  simpl in Hl.
  change (live ScreenRefreshTimer
            (set_screenRefreshInterval
               (Some (next_timer (browser (refreshScreen shot w))))
               (snd (setInterval ScreenRefreshTimer (refreshScreen shot w)))))
    with (live ScreenRefreshTimer
            (snd (setInterval ScreenRefreshTimer (refreshScreen shot w)))).
  etransitivity; [exact Hl|].
  unfold refreshScreen.
  destruct (negb (isConnected (app w))); [reflexivity|].
  destruct shot as [m|data]; [reflexivity|].
  destruct (get data (js "success")) as [ok|]; [|reflexivity].
  now destruct (truthy ok).
Qed.

(** ** One poll timer at most, at every moment *)

Section Invariant.

Variable JSON_parse : jsstring -> option jsval.
Variable T : jsstring.

Lemma same_poll_tracked (w w' : World) :
  same_poll w w' -> poll_tracked w -> poll_tracked w'.
Proof. unfold same_poll, poll_tracked. intros [-> ->] H. exact H. Qed.

Lemma same_poll_trans (w1 w2 w3 : World) :
  same_poll w1 w2 -> same_poll w2 w3 -> same_poll w1 w3.
Proof. unfold same_poll. intros [H1 H2] [H3 H4]. split; congruence. Qed.

Lemma refreshScreen_same_poll (shot : reply) (w : World) :
  same_poll w (refreshScreen shot w).
Proof.
  unfold refreshScreen.
  destruct (negb (isConnected (app w))); [now split|].
  destruct shot as [m|data]; [now split|].
  destruct (get data (js "success")) as [ok|]; [|now split].
  destruct (truthy ok); now split.
Qed.

Lemma startScreenRefresh_same_poll (shot : reply) (w : World) :
  same_poll w (startScreenRefresh shot w).
Proof.
  apply same_poll_trans with (refreshScreen shot w);
    [apply refreshScreen_same_poll|].
  unfold startScreenRefresh.
  pose proof (live_setInterval WirelessPollTimer ScreenRefreshTimer
                (refreshScreen shot w)) as Hl.
  destruct (setInterval ScreenRefreshTimer (refreshScreen shot w))
    as [id w2] eqn:E.
  unfold setInterval in E. inversion E; subst; clear E.
  simpl in Hl. rewrite app_nil_r in Hl. split; [exact Hl|reflexivity].
Qed.

Lemma page_line_timers (w : World) (line : jsstring) :
  timers (browser (page_line JSON_parse w line)) = timers (browser w).
Proof.
  unfold page_line, process_line.
  destruct (startsWith line DATA_PREFIX); [|reflexivity].
  destruct (JSON_parse (slice 6 line)) as [data|]; [|reflexivity].
  destruct (handleStepResult data w) as [w'|] eqn:E; [|reflexivity].
  apply handleStepResult_frame in E. destruct E as (_ & _ & ->).
  reflexivity.
Qed.

Lemma page_lines_timers (lines : list jsstring) : forall w : World,
  timers (browser (fold_left (page_line JSON_parse) lines w)) =
  timers (browser w).
Proof.
  induction lines as [|l lines IH]; intros w; simpl; [reflexivity|].
  rewrite IH. apply page_line_timers.
Qed.

Lemma run_stream_same_poll (task : jsstring) (net : execute_reply)
  (w : World) :
  same_poll w (run_stream JSON_parse task net w).
Proof.
  destruct (run_stream_effects JSON_parse task net w) as (Ha & _).
  split; [|now rewrite Ha].
  unfold live. f_equal. f_equal.
  unfold run_stream. destruct net as [m | chunks fin]; [reflexivity|].
  rewrite read_loop_lines.
  pose proof (page_lines_timers
                (fst (scan_lines [] (decode_all (List.concat chunks))))
                (perform
                   (Fetch (js "POST") (js "/api/chat/execute")
                      (JObj [(js "task", JStr task)])) w)) as Ht.
  unfold page_line in Ht.
  destruct fin as [|m]; simpl; exact Ht.
Qed.

Lemma executeTask_same_poll (net : execute_reply) (shot : reply) (w : World) :
  same_poll w (executeTask JSON_parse net shot w).
Proof.
  unfold executeTask.
  destruct (is_empty (trim (messageInput_value (chat w)))); [now split|].
  destruct (negb (isConnected (app w))); [now split|].
  destruct (isExecuting (app w)); [now split|].
  eapply same_poll_trans; [|apply refreshScreen_same_poll].
  set (task := trim (messageInput_value (chat w))).
  set (w1 := setExecutingState true
               (addMessage (js "user") (JStr task)
                  (upd_chatContainer (remove_first is_welcome)
                     (set_messageInput_value [] w)))).
  apply same_poll_trans with w1; [now split|].
  apply same_poll_trans with (run_stream JSON_parse task net w1);
    [apply run_stream_same_poll|now split].
Qed.

Lemma stopWirelessPolling_tracked (w : World) :
  poll_tracked w -> poll_tracked (stopWirelessPolling w).
Proof.
  intros H. unfold poll_tracked.
  now rewrite stopWirelessPolling_live, stopWirelessPolling_field.
Qed.

Lemma connect_sequence_tracked (serial loading success : jsstring)
  (connect shot : reply) (w : World) :
  poll_tracked w ->
  poll_tracked (connect_sequence T serial loading success connect shot w).
Proof.
  intros H.
  destruct (connect_sequence_once T serial loading success connect shot w)
    as (Hf & Hl & _).
  unfold poll_tracked. rewrite Hf, Hl. now apply stopWirelessPolling_live.
Qed.

Lemma handleWirelessStatus_tracked (data : jsval) (connect shot : reply)
  (w w' : World) :
  poll_tracked w ->
  handleWirelessStatus T data connect shot w = Some w' ->
  poll_tracked w'.
Proof.
  intros H. unfold handleWirelessStatus.
  destruct (get data (js "status")) as [status|]; [|discriminate].
  intros E. inversion E; subst; clear E.
  repeat match goal with
         | |- context [if ?c then _ else _] => destruct c
         end;
    try exact H;
    try (apply stopWirelessPolling_tracked; exact H).
  rewrite connectWirelessDevice_sequence. apply connect_sequence_tracked.
  apply (stopWirelessPolling_tracked w H).
Qed.

(** Every event of the page keeps the poll timer tracked. *)
Lemma fire_tracked (e : event) (w : World) :
  poll_tracked w -> poll_tracked (fire JSON_parse T e w).
Proof.
  intros H. destruct e; simpl.
  - exact H.
  - exact H.
  - apply (same_poll_tracked _ _ (executeTask_same_poll net shot w) H).
  - unfold connectDevice.
    destruct (is_empty (trim (deviceSerial_value (modal w)))); [exact H|].
    now apply (connect_sequence_tracked _ _ _ connect shot w).
  - unfold startWirelessPairing.
    destruct start as [m|data]; [exact H|].
    destruct (get data (js "success")) as [ok|]; [|exact H].
    destruct (truthy ok); [|exact H].
    now apply startWirelessPolling_one.
  - unfold stopWirelessPairing.
    destruct stop; exact (stopWirelessPolling_tracked w H).
  - exact (stopWirelessPolling_tracked (set_connectModal_hidden true w) H).
  - apply (same_poll_tracked _ _ (refreshScreen_same_poll shot w) H).
  - destruct (live ScreenRefreshTimer w); [exact H|].
    unfold screenRefreshTick.
    destruct (negb (isExecuting (app w))); [|exact H].
    apply (same_poll_tracked _ _ (refreshScreen_same_poll shot w) H).
  - destruct (live WirelessPollTimer w); [exact H|].
    unfold wirelessPollTick.
    destruct status as [m|data]; [exact H|].
    destruct (get data (js "success")) as [ok|]; [|exact H].
    destruct (truthy ok); [|exact H].
    match goal with
    | |- context [handleWirelessStatus T data connect shot ?x] =>
        destruct (handleWirelessStatus T data connect shot x) as [w'|] eqn:E
    end; [|exact H].
    exact (handleWirelessStatus_tracked data connect shot
             (perform (Fetch (js "GET") (js "/api/device/wireless/status")
                         JUndefined) w) w' H E).
Qed.

(** From the constructor on, whatever happens, at most one poll timer is
    live, and it is the one the object can cancel. *)
Lemma one_poll_timer (es : list event) :
  poll_tracked (run JSON_parse T es initial_World) /\
  (List.length (live WirelessPollTimer (run JSON_parse T es initial_World))
   <= 1)%nat.
Proof.
  assert (H : poll_tracked (run JSON_parse T es initial_World)).
  { unfold run.
    generalize initial_World, (eq_refl : poll_tracked initial_World).
    induction es as [|e es IH]; intros w Hw; simpl; [exact Hw|].
    apply IH. now apply fire_tracked. }
  split; [exact H|]. unfold poll_tracked in H. rewrite H.
  destruct (wirelessPollingInterval
              (app (run JSON_parse T es initial_World))); simpl; lia.
Qed.

End Invariant.

(** * The rest of the class: properties *)
(** * More of the code *)

(** ** The end of the body and records that cannot be handled *)

Lemma scan_lines_no_NL (text : jsstring) : forall cur,
  ~ In NL text -> scan_lines cur text = ([], cur ++ text).
Proof.
  induction text as [|c text IH]; intros cur H; simpl.
  - now rewrite app_nil_r.
  - destruct (N.eqb_spec c NL) as [->|_]; [exfalso; apply H; now left|].
    rewrite IH by (intros Hin; apply H; now right).
    now rewrite <- app_assoc.
Qed.

Lemma scan_lines_tail (lines : list jsstring) (tail : jsstring) :
  Forall (fun l => ~ In NL l) lines ->
  ~ In NL tail ->
  scan_lines [] (terminated lines ++ tail) = (lines, tail).
Proof.
  intros Hl Ht. rewrite scan_lines_app, scan_lines_terminated by assumption.
  rewrite scan_lines_no_NL by assumption. simpl. now rewrite app_nil_r.
Qed.

(** X1: what follows the last newline of the body is never dispatched: a
    body that ends in an unterminated line gives the records of the
    terminated lines only, and [executeTask] leaves the page that the same
    body without that tail leaves. *)
Theorem unterminated_tail_discarded (JSON_parse : jsstring -> option jsval)
  (lines : list jsstring) (tail : jsstring)
  (chunks chunks' : list (list byte)) :
  Forall (fun l => ~ In NL l) lines ->
  ~ In NL tail ->
  decode_all (List.concat chunks) = terminated lines ++ tail ->
  decode_all (List.concat chunks') = terminated lines ->
  stream_records JSON_parse chunks = omap (line_record JSON_parse) lines /\
  forall (fin : stream_end) (shot : reply) (w : World),
    executeTask JSON_parse (Body chunks fin) shot w =
    executeTask JSON_parse (Body chunks' fin) shot w.
Proof.
  intros Hl Ht H H'. split.
  - now rewrite stream_records_lines, H, scan_lines_tail.
  - intros fin shot w. unfold executeTask, run_stream.
    rewrite !read_loop_lines, H, H'.
    now rewrite scan_lines_tail, scan_lines_terminated.
Qed.

Lemma unterminated_tail_discarded_witness :
  stream_records sample_parse
    [sample_bytes; list_byte_of_string "data: {3}"] =
  omap (line_record sample_parse) sample_lines /\
  forall (fin : stream_end) (shot : reply) (w : World),
    executeTask sample_parse
      (Body [sample_bytes; list_byte_of_string "data: {3}"] fin) shot w =
    executeTask sample_parse (Body [sample_bytes] fin) shot w.
Proof.
  apply (unterminated_tail_discarded sample_parse sample_lines
           (js "data: {3}")).
  - repeat constructor; intros H; vm_compute in H; intuition discriminate.
  - intros H; vm_compute in H; intuition discriminate.
  - vm_compute. reflexivity.
  - vm_compute. reflexivity.
Defined.

(** X2: a line whose payload parses to [null] makes [handleStepResult]
    throw inside the [try]: it costs one console error, renders nothing, and
    the lines after it are handled. *)
Theorem null_record_swallowed (JSON_parse : jsstring -> option jsval)
  (before after : list jsstring) (line : jsstring) (w : World) :
  startsWith line DATA_PREFIX = true ->
  JSON_parse (slice 6 line) = Some JNull ->
  page_line JSON_parse w line = console_error "解析失败:" w /\
  fold_left (page_line JSON_parse) (before ++ line :: after) w =
  fold_left (page_line JSON_parse) after
    (console_error "解析失败:" (fold_left (page_line JSON_parse) before w)).
Proof.
  intros Hp Hn.
  assert (H : forall w', page_line JSON_parse w' line =
                         console_error "解析失败:" w').
  { intros w'. unfold page_line, process_line. now rewrite Hp, Hn. }
  split; [apply H|]. rewrite fold_left_app. simpl. now rewrite H.
Qed.

Lemma null_record_swallowed_witness :
  page_line sample_parse_null initial_World (js "data: null") =
  console_error "解析失败:" initial_World /\
  fold_left (page_line sample_parse_null)
    ([js "data: {1}"] ++ js "data: null" :: [js "data: {2}"]) initial_World =
  fold_left (page_line sample_parse_null) [js "data: {2}"]
    (console_error "解析失败:"
       (fold_left (page_line sample_parse_null) [js "data: {1}"]
          initial_World)).
Proof.
  apply (null_record_swallowed sample_parse_null [js "data: {1}"]
           [js "data: {2}"] (js "data: null") initial_World).
  - vm_compute. reflexivity.
  - vm_compute. reflexivity.
Defined.

(** ** What the dispatcher renders *)

Ltac eval_literals :=
  repeat match goal with
         | |- context [is_string (JStr (js ?a)) ?b] =>
             let v := eval vm_compute in (is_string (JStr (js a)) b) in
             change (is_string (JStr (js a)) b) with v
         end;
  cbn [orb].

(** X3: an event whose [type] is none of the eleven the switch lists renders
    nothing; only the frame changes, when the event has a screenshot. *)
Theorem unknown_kind_renders_nothing (data screenshot : jsval) (w : World) :
  get data (js "screenshot") = Some screenshot ->
  is_one_of (prop data "type") known_kinds = false ->
  handleStepResult data w =
  Some (if truthy screenshot
        then set_deviceScreen_src (ToString screenshot) w else w).
Proof.
  intros Hs Hk. unfold handleStepResult. rewrite Hs. f_equal.
  unfold is_one_of, known_kinds in Hk. cbn [existsb] in Hk.
  repeat (apply orb_false_iff in Hk; destruct Hk as [? Hk]).
  unfold render_step.
  repeat match goal with
         | E : is_string _ _ = false |- _ => rewrite E; clear E
         end.
  reflexivity.
Qed.

Lemma unknown_kind_renders_nothing_witness :
  handleStepResult unknown_event_with_screenshot initial_World =
  Some (if truthy (JStr (js "data:image/png;base64,AAAA"))
        then set_deviceScreen_src
               (ToString (JStr (js "data:image/png;base64,AAAA")))
               initial_World
        else initial_World).
Proof.
  apply (unknown_kind_renders_nothing unknown_event_with_screenshot
           (JStr (js "data:image/png;base64,AAAA")) initial_World).
  - vm_compute. reflexivity.
  - vm_compute. reflexivity.
Defined.

(** X4: which results clear the thinking placeholder.  [start], [info],
    [update], [done], [completed] and [warning] append one message and leave
    a pending placeholder where it is; [action], [failed], [error] and
    [stopped] remove the placeholder and then append one message. *)
Theorem placeholder_after_result (data : jsval) (name : string)
  (w w' : World) :
  prop data "type" = JStr (js name) ->
  handleStepResult data w = Some w' ->
  (In name ["start"; "info"; "update"; "done"; "completed"; "warning"]%string ->
   exists node,
     chatContainer (chat w') = chatContainer (chat w) ++ [node] /\
     is_thinking node = false) /\
  (In name ["action"; "failed"; "error"; "stopped"]%string ->
   exists node,
     chatContainer (chat w') =
     remove_first is_thinking (chatContainer (chat w)) ++ [node] /\
     is_thinking node = false).
Proof.
  intros Ht H. unfold handleStepResult in H.
  destruct (get data (js "screenshot")) as [shot|]; [|discriminate].
  inversion H; subst; clear H.
  rewrite (render_step_chat data _ w) by now destruct (truthy shot).
  unfold render_step. rewrite Ht.
  split; intros Hin; simpl in Hin;
    repeat (destruct Hin as [<- | Hin]; [eval_literals; eexists; split;
                                           reflexivity|]);
    contradiction.
Qed.

Lemma placeholder_after_result_witness :
  (In "done"%string
     ["start"; "info"; "update"; "done"; "completed"; "warning"]%string ->
   exists node,
     chatContainer
       (chat (render_step
                (JObj [(js "type", JStr (js "done"))])
                (updateOrAddThinking (JStr (js "A")) initial_World))) =
     chatContainer (chat (updateOrAddThinking (JStr (js "A")) initial_World))
     ++ [node] /\
     is_thinking node = false) /\
  (In "done"%string ["action"; "failed"; "error"; "stopped"]%string ->
   exists node,
     chatContainer
       (chat (render_step
                (JObj [(js "type", JStr (js "done"))])
                (updateOrAddThinking (JStr (js "A")) initial_World))) =
     remove_first is_thinking
       (chatContainer
          (chat (updateOrAddThinking (JStr (js "A")) initial_World)))
     ++ [node] /\
     is_thinking node = false).
Proof.
  apply (placeholder_after_result (JObj [(js "type", JStr (js "done"))])
           "done" (updateOrAddThinking (JStr (js "A")) initial_World)).
  - vm_compute. reflexivity.
  - reflexivity.
Defined.

(** ** Handles and what the timers are left with *)

Lemma same_timers_refl (w : World) : same_timers w w.
Proof. now split. Qed.

Lemma same_timers_trans (w1 w2 w3 : World) :
  same_timers w1 w2 -> same_timers w2 w3 -> same_timers w1 w3.
Proof. unfold same_timers. intros [H1 H2] [H3 H4]. split; congruence. Qed.

Lemma same_timers_fresh (w w' : World) :
  same_timers w w' -> handles_fresh w -> handles_fresh w'.
Proof. unfold same_timers, handles_fresh. intros [-> ->] H. exact H. Qed.

Lemma setInterval_fresh (k : timer_kind) (w : World) :
  handles_fresh w -> handles_fresh (snd (setInterval k w)).
Proof.
  unfold handles_fresh, setInterval. simpl. intros [Hlt Hnd]. split.
  - apply Forall_app. split.
    + eapply Forall_impl; [|exact Hlt]. simpl. intros t Ht. lia.
    + repeat constructor. simpl. lia.
  - rewrite map_app. simpl.
    apply NoDup_app; [exact Hnd|repeat constructor; simpl; tauto|].
    intros a Ha [<-|[]]. apply in_map_iff in Ha.
    destruct Ha as (t & Et & Ht). rewrite Forall_forall in Hlt.
    specialize (Hlt t Ht). lia.
Qed.

Lemma clearInterval_fresh (id : positive) (w : World) :
  handles_fresh w -> handles_fresh (clearInterval id w).
Proof.
  unfold handles_fresh, clearInterval. simpl. intros [Hlt Hnd]. split.
  - rewrite Forall_forall in *. intros t Ht. apply filter_In in Ht.
    now apply Hlt.
  - induction (timers (browser w)) as [|t l IH]; simpl; [constructor|].
    inversion Hnd as [|? ? Hn Hl]; subst.
    inversion Hlt as [|? ? Ht Hlt']; subst.
    destruct (negb (fst t =? id)%positive); simpl; [|now apply IH].
    constructor; [|now apply IH].
    intros Hin. apply Hn. apply in_map_iff in Hin.
    destruct Hin as (t' & Et & Hin). apply filter_In in Hin.
    apply in_map_iff. exists t'. tauto.
Qed.

Lemma clearInterval_absent (id : positive) (w : World) :
  Forall (fun t => (fst t < id)%positive) (timers (browser w)) ->
  timers (browser (clearInterval id w)) = timers (browser w).
Proof.
  unfold clearInterval. simpl.
  induction 1 as [|t l Ht _ IH]; simpl; [reflexivity|].
  destruct (Pos.eqb_spec (fst t) id); [lia|]. simpl. now rewrite IH.
Qed.

Lemma stopWirelessPolling_fresh (w : World) :
  handles_fresh w -> handles_fresh (stopWirelessPolling w).
Proof.
  intros H. unfold stopWirelessPolling.
  destruct (wirelessPollingInterval (app w)) as [id|]; [|exact H].
  exact (clearInterval_fresh id w H).
Qed.

Lemma stopWirelessPolling_next (w : World) :
  next_timer (browser (stopWirelessPolling w)) = next_timer (browser w).
Proof.
  unfold stopWirelessPolling.
  now destruct (wirelessPollingInterval (app w)).
Qed.

Lemma startWirelessPolling_fresh (w : World) :
  handles_fresh w -> handles_fresh (startWirelessPolling w).
Proof.
  intros H. unfold startWirelessPolling.
  pose proof (setInterval_fresh WirelessPollTimer _
                (stopWirelessPolling_fresh w H)) as Hs.
  now destruct (setInterval WirelessPollTimer (stopWirelessPolling w)).
Qed.

Lemma refreshScreen_same_timers (shot : reply) (w : World) :
  same_timers w (refreshScreen shot w).
Proof.
  unfold refreshScreen.
  destruct (negb (isConnected (app w))); [now split|].
  destruct shot as [m|data]; [now split|].
  destruct (get data (js "success")) as [ok|]; [|now split].
  destruct (truthy ok); now split.
Qed.

Lemma startScreenRefresh_fresh (shot : reply) (w : World) :
  handles_fresh w -> handles_fresh (startScreenRefresh shot w).
Proof.
  intros H. unfold startScreenRefresh.
  pose proof (setInterval_fresh ScreenRefreshTimer _
                (same_timers_fresh _ _ (refreshScreen_same_timers shot w) H))
    as Hs.
  now destruct (setInterval ScreenRefreshTimer (refreshScreen shot w)).
Qed.

(** X5: starting the poll and stopping it again leaves the timers that
    stopping alone leaves: the handle given out is the one cancelled, and no
    other timer is touched. *)
Theorem poll_start_then_stop (w : World) :
  handles_fresh w ->
  timers (browser (stopWirelessPolling (startWirelessPolling w))) =
  timers (browser (stopWirelessPolling w)) /\
  wirelessPollingInterval
    (app (stopWirelessPolling (startWirelessPolling w))) = None /\
  (wirelessPollingInterval (app w) = None ->
   timers (browser (stopWirelessPolling (startWirelessPolling w))) =
   timers (browser w)).
Proof.
  intros H.
  assert (E : timers (browser (stopWirelessPolling (startWirelessPolling w)))
              = timers (browser (stopWirelessPolling w))).
  { pose proof (stopWirelessPolling_fresh w H) as [Hlt _].
    unfold startWirelessPolling, setInterval, stopWirelessPolling at 1.
    simpl. rewrite filter_app. simpl. rewrite Pos.eqb_refl. simpl.
    rewrite app_nil_r.
    exact (clearInterval_absent _ (stopWirelessPolling w) Hlt). }
  split; [exact E|]. split; [apply stopWirelessPolling_field|].
  intros Hn. rewrite E. now rewrite (stopWirelessPolling_idle w Hn).
Qed.

Lemma poll_start_then_stop_witness :
  timers (browser (stopWirelessPolling (startWirelessPolling pairing_World))) =
  timers (browser (stopWirelessPolling pairing_World)) /\
  wirelessPollingInterval
    (app (stopWirelessPolling (startWirelessPolling pairing_World))) = None /\
  (wirelessPollingInterval (app pairing_World) = None ->
   timers (browser (stopWirelessPolling (startWirelessPolling pairing_World)))
   = timers (browser pairing_World)).
Proof.
  apply (poll_start_then_stop pairing_World).
  split.
  - repeat constructor.
  - vm_compute. repeat constructor. simpl. tauto.
Defined.

(** X6: [stopScreenRefresh] cancels the timer that the last
    [startScreenRefresh] started, and only that one. *)
Theorem refresh_start_then_stop (shot : reply) (w : World) :
  handles_fresh w ->
  timers (browser (stopScreenRefresh (startScreenRefresh shot w))) =
  timers (browser w) /\
  screenRefreshInterval (app (stopScreenRefresh (startScreenRefresh shot w))) =
  None.
Proof.
  intros H.
  destruct (refreshScreen_same_timers shot w) as [Ht Hn].
  pose proof (same_timers_fresh _ _ (refreshScreen_same_timers shot w) H)
    as [Hlt _].
  unfold startScreenRefresh, setInterval, stopScreenRefresh. simpl.
  rewrite filter_app. simpl. rewrite Pos.eqb_refl. simpl.
  rewrite app_nil_r. split; [|reflexivity].
  rewrite <- Ht. exact (clearInterval_absent _ (refreshScreen shot w) Hlt).
Qed.

Lemma refresh_start_then_stop_witness :
  timers (browser (stopScreenRefresh (startScreenRefresh ok_reply
                                        pairing_World))) =
  timers (browser pairing_World) /\
  screenRefreshInterval
    (app (stopScreenRefresh (startScreenRefresh ok_reply pairing_World))) =
  None.
Proof.
  apply (refresh_start_then_stop ok_reply pairing_World).
  split.
  - repeat constructor.
  - vm_compute. repeat constructor. simpl. tauto.
Defined.

(** ** A task from start to end *)

Lemma page_line_same_timers (JSON_parse : jsstring -> option jsval)
  (w : World) (line : jsstring) :
  same_timers w (page_line JSON_parse w line).
Proof.
  unfold page_line, process_line.
  destruct (startsWith line DATA_PREFIX); [|now split].
  destruct (JSON_parse (slice 6 line)) as [data|]; [|now split].
  destruct (handleStepResult data w) as [w'|] eqn:E; [|now split].
  apply handleStepResult_frame in E. destruct E as (_ & _ & E).
  unfold same_timers. now rewrite E.
Qed.

Lemma page_lines_same_timers (JSON_parse : jsstring -> option jsval)
  (lines : list jsstring) : forall w : World,
  same_timers w (fold_left (page_line JSON_parse) lines w).
Proof.
  induction lines as [|l lines IH]; intros w; simpl; [now split|].
  eapply same_timers_trans; [apply page_line_same_timers|apply IH].
Qed.

Lemma run_stream_same_timers (JSON_parse : jsstring -> option jsval)
  (task : jsstring) (net : execute_reply) (w : World) :
  same_timers w (run_stream JSON_parse task net w).
Proof.
  unfold run_stream. destruct net as [m | chunks fin]; [now split|].
  rewrite read_loop_lines.
  pose proof (page_lines_same_timers JSON_parse
                (fst (scan_lines [] (decode_all (List.concat chunks))))
                (perform
                   (Fetch (js "POST") (js "/api/chat/execute")
                      (JObj [(js "task", JStr task)])) w)) as [Ht Hn].
  unfold page_line in Ht, Hn.
  destruct fin as [|m]; split; simpl; assumption.
Qed.

Lemma executeTask_same_timers (JSON_parse : jsstring -> option jsval)
  (net : execute_reply) (shot : reply) (w : World) :
  same_timers w (executeTask JSON_parse net shot w).
Proof.
  unfold executeTask.
  destruct (is_empty (trim (messageInput_value (chat w)))); [now split|].
  destruct (negb (isConnected (app w))); [now split|].
  destruct (isExecuting (app w)); [now split|].
  eapply same_timers_trans; [|apply refreshScreen_same_timers].
  set (task := trim (messageInput_value (chat w))).
  set (w1 := setExecutingState true
               (addMessage (js "user") (JStr task)
                  (upd_chatContainer (remove_first is_welcome)
                     (set_messageInput_value [] w)))).
  apply same_timers_trans with w1; [now split|].
  apply same_timers_trans with (run_stream JSON_parse task net w1);
    [apply run_stream_same_timers|now split].
Qed.

Lemma refreshScreen_app (shot : reply) (w : World) :
  app (refreshScreen shot w) = app w.
Proof.
  unfold refreshScreen.
  destruct (negb (isConnected (app w))); [reflexivity|].
  destruct shot as [m|data]; [reflexivity|].
  destruct (get data (js "success")) as [ok|]; [|reflexivity].
  now destruct (truthy ok).
Qed.

Lemma executeTask_frame (JSON_parse : jsstring -> option jsval)
  (net : execute_reply) (shot : reply) (w : World) :
  app (executeTask JSON_parse net shot w) = app w /\
  timers (browser (executeTask JSON_parse net shot w)) = timers (browser w) /\
  next_timer (browser (executeTask JSON_parse net shot w)) =
  next_timer (browser w) /\
  modal (executeTask JSON_parse net shot w) = modal w.
Proof.
  destruct (executeTask_same_timers JSON_parse net shot w) as [Ht Hn].
  split; [|split; [exact Ht|split; [exact Hn|]]].
  - unfold executeTask.
    destruct (is_empty (trim (messageInput_value (chat w)))); [reflexivity|].
    destruct (negb (isConnected (app w))); [reflexivity|].
    destruct (isExecuting (app w)) eqn:Ex; [reflexivity|].
    rewrite refreshScreen_app.
    match goal with
    | |- context [run_stream JSON_parse ?t net ?x] =>
        destruct (run_stream_effects JSON_parse t net x) as (Ha & _);
        set (r := run_stream JSON_parse t net x) in *
    end.
    clearbody r. simpl in *. rewrite Ha.
    destruct (app w); simpl in *. now subst.
  - unfold executeTask.
    destruct (is_empty (trim (messageInput_value (chat w)))); [reflexivity|].
    destruct (negb (isConnected (app w))); [reflexivity|].
    destruct (isExecuting (app w)); [reflexivity|].
    assert (Hr : forall s x, modal (refreshScreen s x) = modal x).
    { intros s x. unfold refreshScreen.
      destruct (negb (isConnected (app x))); [reflexivity|].
      destruct s as [m|data]; [reflexivity|].
      destruct (get data (js "success")) as [ok|]; [|reflexivity].
      now destruct (truthy ok). }
    rewrite Hr. simpl.
    unfold run_stream. destruct net as [m | chunks fin]; [reflexivity|].
    rewrite read_loop_lines.
    assert (Hl : forall lines x,
               modal (fold_left (page_line JSON_parse) lines x) = modal x).
    { induction lines as [|l lines IH]; intros x; simpl; [reflexivity|].
      rewrite IH. unfold page_line, process_line.
      destruct (startsWith l DATA_PREFIX); [|reflexivity].
      destruct (JSON_parse (slice 6 l)) as [data|]; [|reflexivity].
      destruct (handleStepResult data x) as [x'|] eqn:E; [|reflexivity].
      apply handleStepResult_frame in E. now destruct E as (_ & -> & _). }
    unfold page_line in Hl.
    destruct fin as [|m]; simpl; now rewrite Hl.
Qed.

(** X7: whatever the request and the stream do, [executeTask] gives the
    object back as it found it (connection, timers' handles, and
    [isExecuting] false again for a call that was accepted), and it neither
    starts nor cancels a timer. *)
Theorem executeTask_restores_object (JSON_parse : jsstring -> option jsval)
  (net : execute_reply) (shot : reply) (w : World) :
  app (executeTask JSON_parse net shot w) = app w /\
  timers (browser (executeTask JSON_parse net shot w)) = timers (browser w) /\
  next_timer (browser (executeTask JSON_parse net shot w)) =
  next_timer (browser w) /\
  modal (executeTask JSON_parse net shot w) = modal w.
Proof. exact (executeTask_frame JSON_parse net shot w). Qed.

(** X8: the refresh timer is skipped, not stopped, while a task runs: a tick
    during the run changes nothing, and the first tick after [executeTask]
    has returned asks for a screenshot again. *)
Theorem refresh_resumes_after_task (JSON_parse : jsstring -> option jsval)
  (net : execute_reply) (shot tick : reply) (w : World) :
  isConnected (app w) = true ->
  isExecuting (app w) = false ->
  screenRefreshTick tick (setExecutingState true w) =
  setExecutingState true w /\
  exists after,
    effects (browser (screenRefreshTick tick
                        (executeTask JSON_parse net shot w))) =
    effects (browser (executeTask JSON_parse net shot w)) ++
    Fetch (js "GET") (js "/api/device/screenshot") JUndefined :: after /\
    quiet after.
Proof.
  intros Hc Hx. split; [reflexivity|].
  destruct (executeTask_frame JSON_parse net shot w) as (Ha & _).
  unfold screenRefreshTick. rewrite Ha, Hx. simpl.
  assert (Hc' : isConnected (app (executeTask JSON_parse net shot w)) = true)
    by now rewrite Ha.
  destruct (refreshScreen_effects tick _ Hc') as (_ & _ & _ & after & He & Hq).
  now exists after.
Qed.

Lemma refresh_resumes_after_task_witness :
  screenRefreshTick ok_reply
    (setExecutingState true (connected_typed "open settings")) =
  setExecutingState true (connected_typed "open settings") /\
  exists after,
    effects (browser (screenRefreshTick ok_reply
                        (executeTask sample_parse broken_stream ok_reply
                           (connected_typed "open settings")))) =
    effects (browser (executeTask sample_parse broken_stream ok_reply
                        (connected_typed "open settings"))) ++
    Fetch (js "GET") (js "/api/device/screenshot") JUndefined :: after /\
    quiet after.
Proof.
  apply (refresh_resumes_after_task sample_parse broken_stream ok_reply
           ok_reply (connected_typed "open settings")); reflexivity.
Defined.

(** ** The pairing session *)

(** X9: the status [timeout] ends the session: the poll timer is cancelled
    and the display shows the time-out as an error; no tick of the poll
    happens afterwards, whatever the server would answer. *)
Theorem timeout_stops_poll (T : jsstring) (data ok : jsval)
  (connect shot : reply) (w : World) :
  poll_tracked w ->
  get data (js "success") = Some ok ->
  truthy ok = true ->
  get data (js "status") = Some (JStr (js "timeout")) ->
  wirelessPollingInterval
    (app (wirelessPollTick T (Resolved data) connect shot w)) = None /\
  live WirelessPollTimer (wirelessPollTick T (Resolved data) connect shot w) =
  [] /\
  wirelessStatus_message
    (modal (wirelessPollTick T (Resolved data) connect shot w)) =
  js "配对超时，请重试" /\
  wirelessStatus_className
    (modal (wirelessPollTick T (Resolved data) connect shot w)) =
  js "wireless-status error" /\
  forall (JSON_parse : jsstring -> option jsval) (status' connect' shot' : reply),
    fire JSON_parse T (PollTick status' connect' shot')
      (wirelessPollTick T (Resolved data) connect shot w) =
    wirelessPollTick T (Resolved data) connect shot w.
Proof.
  intros Hinv Hs Ht Hst. unfold wirelessPollTick. rewrite Hs, Ht.
  unfold handleWirelessStatus. rewrite Hst. eval_literals.
  set (w0 := updateWirelessStatus (js "配对超时，请重试") (js "error")
               (perform (Fetch (js "GET") (js "/api/device/wireless/status")
                           JUndefined) w)).
  assert (Hl : live WirelessPollTimer (stopWirelessPolling w0) = [])
    by (apply stopWirelessPolling_live; exact Hinv).
  split; [apply stopWirelessPolling_field|]. split; [exact Hl|].
  assert (Hm : modal (stopWirelessPolling w0) = modal w0).
  { unfold stopWirelessPolling.
    now destruct (wirelessPollingInterval (app w0)). }
  rewrite Hm. split; [reflexivity|]. split; [reflexivity|].
  intros JSON_parse status' connect' shot'. simpl. now rewrite Hl.
Qed.

Lemma timeout_stops_poll_witness :
  wirelessPollingInterval
    (app (sample_tick (status_reply "timeout") pairing_World)) = None /\
  live WirelessPollTimer (sample_tick (status_reply "timeout") pairing_World) =
  [] /\
  wirelessStatus_message
    (modal (sample_tick (status_reply "timeout") pairing_World)) =
  js "配对超时，请重试" /\
  wirelessStatus_className
    (modal (sample_tick (status_reply "timeout") pairing_World)) =
  js "wireless-status error" /\
  forall (JSON_parse : jsstring -> option jsval) (status' connect' shot' : reply),
    fire JSON_parse sample_TypeError (PollTick status' connect' shot')
      (sample_tick (status_reply "timeout") pairing_World) =
    sample_tick (status_reply "timeout") pairing_World.
Proof.
  apply (timeout_stops_poll sample_TypeError
           (JObj [(js "success", JBool true);
                  (js "status", JStr (js "timeout"))])
           (JBool true) ok_reply ok_reply pairing_World).
  - vm_compute. reflexivity.
  - vm_compute. reflexivity.
  - reflexivity.
  - vm_compute. reflexivity.
Defined.

(** X10: a poll that fails in transport (the request is rejected, or the
    body is [null]) is logged to the console and nothing else: the session,
    its display and its timer stay, so the next tick polls again. *)
Theorem failed_poll_continues (T : jsstring) (status connect shot : reply)
  (w : World) :
  (exists m, status = Rejected m) \/
  (exists data, status = Resolved data /\ get data (js "success") = None) ->
  wirelessPollTick T status connect shot w =
  console_error "获取状态失败:"
    (perform (Fetch (js "GET") (js "/api/device/wireless/status") JUndefined)
       w) /\
  app (wirelessPollTick T status connect shot w) = app w /\
  modal (wirelessPollTick T status connect shot w) = modal w /\
  timers (browser (wirelessPollTick T status connect shot w)) =
  timers (browser w).
Proof.
  intros [[m ->] | (data & -> & H)]; unfold wirelessPollTick;
    [|rewrite H]; repeat split.
Qed.

Lemma failed_poll_continues_witness :
  sample_tick (Resolved JNull) pairing_World =
  console_error "获取状态失败:"
    (perform (Fetch (js "GET") (js "/api/device/wireless/status") JUndefined)
       pairing_World) /\
  app (sample_tick (Resolved JNull) pairing_World) = app pairing_World /\
  modal (sample_tick (Resolved JNull) pairing_World) = modal pairing_World /\
  timers (browser (sample_tick (Resolved JNull) pairing_World)) =
  timers (browser pairing_World).
Proof.
  apply (failed_poll_continues sample_TypeError (Resolved JNull) ok_reply
           ok_reply pairing_World).
  right. exists JNull. split; reflexivity.
Defined.

(** X11: a status that the switch does not list ([idle], or anything
    unknown) changes nothing; the status request is the only effect. *)
Theorem unknown_status_ignored (T : jsstring) (data ok status : jsval)
  (connect shot : reply) (w : World) :
  get data (js "success") = Some ok ->
  truthy ok = true ->
  get data (js "status") = Some status ->
  is_one_of status known_statuses = false ->
  wirelessPollTick T (Resolved data) connect shot w =
  perform (Fetch (js "GET") (js "/api/device/wireless/status") JUndefined) w.
Proof.
  intros Hs Ht Hst Hk. unfold wirelessPollTick. rewrite Hs, Ht.
  unfold handleWirelessStatus. rewrite Hst.
  unfold is_one_of, known_statuses in Hk. cbn [existsb] in Hk.
  repeat (apply orb_false_iff in Hk; destruct Hk as [? Hk]).
  repeat match goal with
         | E : is_string _ _ = false |- _ => rewrite E; clear E
         end.
  reflexivity.
Qed.

Lemma unknown_status_ignored_witness :
  sample_tick (status_reply "idle") pairing_World =
  perform (Fetch (js "GET") (js "/api/device/wireless/status") JUndefined)
    pairing_World.
Proof.
  apply (unknown_status_ignored sample_TypeError
           (JObj [(js "success", JBool true); (js "status", JStr (js "idle"))])
           (JBool true) (JStr (js "idle")) ok_reply ok_reply pairing_World).
  - vm_compute. reflexivity.
  - reflexivity.
  - vm_compute. reflexivity.
  - vm_compute. reflexivity.
Defined.

(** X12: cancelling a pairing stops the poll and puts the panel back to
    idle whether or not the server could be told: one request to the stop
    route, at most a console error, and no tick of the poll afterwards. *)
Theorem stopWirelessPairing_resets (T : jsstring) (stop : reply) (w : World) :
  poll_tracked w ->
  wirelessPollingInterval (app (stopWirelessPairing stop w)) = None /\
  live WirelessPollTimer (stopWirelessPairing stop w) = [] /\
  wirelessIdle_hidden (modal (stopWirelessPairing stop w)) = false /\
  wirelessPairing_hidden (modal (stopWirelessPairing stop w)) = true /\
  wirelessSuccess_hidden (modal (stopWirelessPairing stop w)) = true /\
  wirelessStatus_className (modal (stopWirelessPairing stop w)) =
  js "wireless-status" /\
  effects (browser (stopWirelessPairing stop w)) =
  effects (browser w) ++
  Fetch (js "POST") (js "/api/device/wireless/stop") JUndefined ::
  match stop with
  | Rejected _ => [ConsoleError (js "停止配对失败:")]
  | Resolved _ => []
  end /\
  forall (JSON_parse : jsstring -> option jsval) (status connect shot : reply),
    fire JSON_parse T (PollTick status connect shot)
      (stopWirelessPairing stop w) = stopWirelessPairing stop w.
Proof.
  intros Hinv.
  pose proof (stopWirelessPolling_live w Hinv) as Hl.
  pose proof (stopWirelessPolling_field w) as Hf.
  pose proof (stopWirelessPolling_effects w) as He.
  assert (Hl' : live WirelessPollTimer (stopWirelessPairing stop w) = [])
    by (unfold stopWirelessPairing; destruct stop; exact Hl).
  split; [unfold stopWirelessPairing; destruct stop; exact Hf|].
  split; [exact Hl'|].
  repeat (split; [reflexivity|]).
  split.
  - unfold stopWirelessPairing. destruct stop; simpl; rewrite He;
      now rewrite <- ?app_assoc.
  - intros JSON_parse status connect shot. simpl. now rewrite Hl'.
Qed.

Lemma stopWirelessPairing_resets_witness :
  wirelessPollingInterval
    (app (stopWirelessPairing (Rejected []) pairing_World)) = None /\
  live WirelessPollTimer (stopWirelessPairing (Rejected []) pairing_World) =
  [] /\
  wirelessIdle_hidden (modal (stopWirelessPairing (Rejected []) pairing_World))
  = false /\
  wirelessPairing_hidden
    (modal (stopWirelessPairing (Rejected []) pairing_World)) = true /\
  wirelessSuccess_hidden
    (modal (stopWirelessPairing (Rejected []) pairing_World)) = true /\
  wirelessStatus_className
    (modal (stopWirelessPairing (Rejected []) pairing_World)) =
  js "wireless-status" /\
  effects (browser (stopWirelessPairing (Rejected []) pairing_World)) =
  effects (browser pairing_World) ++
  Fetch (js "POST") (js "/api/device/wireless/stop") JUndefined ::
  [ConsoleError (js "停止配对失败:")] /\
  forall (JSON_parse : jsstring -> option jsval) (status connect shot : reply),
    fire JSON_parse sample_TypeError (PollTick status connect shot)
      (stopWirelessPairing (Rejected []) pairing_World) =
    stopWirelessPairing (Rejected []) pairing_World.
Proof.
  apply (stopWirelessPairing_resets sample_TypeError (Rejected [])
           pairing_World).
  vm_compute. reflexivity.
Defined.

(** X13: asking for a pairing code starts the poll only when the server
    says [success]: then one poll timer is live and held by the object;
    otherwise (rejected request, [null] body, [success] false) no timer is
    started or cancelled and the display shows an error.  Either way the
    pairing panel is shown and one request with a timeout of 120 is made. *)
Theorem startWirelessPairing_outcome (T : jsstring) (start : reply)
  (w : World) :
  poll_tracked w ->
  wirelessIdle_hidden (modal (startWirelessPairing T start w)) = true /\
  wirelessPairing_hidden (modal (startWirelessPairing T start w)) = false /\
  effects (browser (startWirelessPairing T start w)) =
  effects (browser w) ++
  [Fetch (js "POST") (js "/api/device/wireless/start")
     (JObj [(js "timeout", JNum 120)])] /\
  (replied_success start = true ->
   live WirelessPollTimer (startWirelessPairing T start w) =
   [next_timer (browser w)] /\
   wirelessPollingInterval (app (startWirelessPairing T start w)) =
   Some (next_timer (browser w)) /\
   wirelessStatus_className (modal (startWirelessPairing T start w)) =
   js "wireless-status pairing") /\
  (replied_success start = false ->
   timers (browser (startWirelessPairing T start w)) = timers (browser w) /\
   app (startWirelessPairing T start w) = app w /\
   wirelessStatus_className (modal (startWirelessPairing T start w)) =
   js "wireless-status error").
Proof.
  intros Hinv. unfold startWirelessPairing, replied_success.
  destruct start as [m|data].
  { repeat split; try reflexivity; discriminate. }
  destruct (get data (js "success")) as [ok|].
  2:{ repeat split; try reflexivity; discriminate. }
  destruct (truthy ok).
  2:{ repeat split; try reflexivity; discriminate. }
  match goal with
  | |- context [startWirelessPolling ?x] =>
      assert (Hx : poll_tracked x) by exact Hinv;
      destruct (startWirelessPolling_one x Hx) as [Hl Ht];
      set (x0 := x) in *
  end.
  assert (Hm : modal (startWirelessPolling x0) = modal x0).
  { unfold startWirelessPolling, stopWirelessPolling, setInterval.
    now destruct (wirelessPollingInterval (app x0)). }
  assert (He : effects (browser (startWirelessPolling x0)) =
               effects (browser x0)).
  { unfold startWirelessPolling, stopWirelessPolling, setInterval.
    now destruct (wirelessPollingInterval (app x0)). }
  rewrite Hm, He. repeat split; try reflexivity; try discriminate.
  - exact Hl.
  - unfold poll_tracked in Ht. rewrite Hl in Ht.
    destruct (wirelessPollingInterval (app (startWirelessPolling x0)));
      [now inversion Ht|discriminate].
Qed.

Lemma startWirelessPairing_outcome_witness :
  wirelessIdle_hidden
    (modal (startWirelessPairing sample_TypeError ok_reply initial_World)) =
  true /\
  wirelessPairing_hidden
    (modal (startWirelessPairing sample_TypeError ok_reply initial_World)) =
  false /\
  effects
    (browser (startWirelessPairing sample_TypeError ok_reply initial_World)) =
  effects (browser initial_World) ++
  [Fetch (js "POST") (js "/api/device/wireless/start")
     (JObj [(js "timeout", JNum 120)])] /\
  (replied_success ok_reply = true ->
   live WirelessPollTimer
     (startWirelessPairing sample_TypeError ok_reply initial_World) =
   [next_timer (browser initial_World)] /\
   wirelessPollingInterval
     (app (startWirelessPairing sample_TypeError ok_reply initial_World)) =
   Some (next_timer (browser initial_World)) /\
   wirelessStatus_className
     (modal (startWirelessPairing sample_TypeError ok_reply initial_World)) =
   js "wireless-status pairing") /\
  (replied_success ok_reply = false ->
   timers
     (browser (startWirelessPairing sample_TypeError ok_reply initial_World)) =
   timers (browser initial_World) /\
   app (startWirelessPairing sample_TypeError ok_reply initial_World) =
   app initial_World /\
   wirelessStatus_className
     (modal (startWirelessPairing sample_TypeError ok_reply initial_World)) =
   js "wireless-status error").
Proof.
  apply (startWirelessPairing_outcome sample_TypeError ok_reply initial_World).
  reflexivity.
Defined.

(** X14: closing the dialog and switching to the wireless tab both cancel
    the poll; switching to any other tab leaves the page, and a running poll,
    as they are. *)
Theorem leaving_pairing_stops_poll (p : Page) :
  poll_tracked (world p) ->
  live WirelessPollTimer (hideConnectModal (world p)) = [] /\
  wirelessPollingInterval (app (hideConnectModal (world p))) = None /\
  live WirelessPollTimer (world (switchTab (js "wireless") p)) = [] /\
  wirelessPollingInterval (app (world (switchTab (js "wireless") p))) = None /\
  forall tab, tab <> js "wireless" -> world (switchTab tab p) = world p.
Proof.
  intros H.
  split; [exact (stopWirelessPolling_live
                   (set_connectModal_hidden true (world p)) H)|].
  split; [apply stopWirelessPolling_field|].
  split; [exact (stopWirelessPolling_live (world p) H)|].
  split; [exact (stopWirelessPolling_field (world p))|].
  intros tab Ht. unfold switchTab. simpl.
  destruct (jsstring_eqb tab (js "wireless")) eqn:E; [|reflexivity].
  apply jsstring_eqb_eq in E. contradiction.
Qed.

Lemma leaving_pairing_stops_poll_witness :
  live WirelessPollTimer
    (hideConnectModal
       (world {| world := pairing_World; dialog := dialog sample_Page |})) =
  [] /\
  wirelessPollingInterval
    (app (hideConnectModal
            (world {| world := pairing_World;
                      dialog := dialog sample_Page |}))) = None /\
  live WirelessPollTimer
    (world (switchTab (js "wireless")
              {| world := pairing_World; dialog := dialog sample_Page |})) =
  [] /\
  wirelessPollingInterval
    (app (world (switchTab (js "wireless")
                   {| world := pairing_World;
                      dialog := dialog sample_Page |}))) = None /\
  forall tab, tab <> js "wireless" ->
    world (switchTab tab
             {| world := pairing_World; dialog := dialog sample_Page |}) =
    world {| world := pairing_World; dialog := dialog sample_Page |}.
Proof.
  apply (leaving_pairing_stops_poll
           {| world := pairing_World; dialog := dialog sample_Page |}).
  vm_compute. reflexivity.
Defined.

(** ** Connecting a device *)

Lemma refreshScreen_keeps_panel (shot : reply) (w : World) :
  deviceScreen_hidden (device (refreshScreen shot w)) =
  deviceScreen_hidden (device w) /\
  statusDot_connected (device (refreshScreen shot w)) =
  statusDot_connected (device w) /\
  modal (refreshScreen shot w) = modal w.
Proof.
  unfold refreshScreen.
  destruct (negb (isConnected (app w))); [now repeat split|].
  destruct shot as [m|data]; [now repeat split|].
  destruct (get data (js "success")) as [ok|]; [|now repeat split].
  destruct (truthy ok); now repeat split.
Qed.

Lemma startScreenRefresh_adds (shot : reply) (w : World) :
  timers (browser (startScreenRefresh shot w)) =
  timers (browser w) ++ [(next_timer (browser w), ScreenRefreshTimer)] /\
  screenRefreshInterval (app (startScreenRefresh shot w)) =
  Some (next_timer (browser w)) /\
  isConnected (app (startScreenRefresh shot w)) = isConnected (app w) /\
  deviceScreen_hidden (device (startScreenRefresh shot w)) =
  deviceScreen_hidden (device w) /\
  statusDot_connected (device (startScreenRefresh shot w)) =
  statusDot_connected (device w) /\
  modal (startScreenRefresh shot w) = modal w.
Proof.
  destruct (refreshScreen_same_timers shot w) as [Ht Hn].
  destruct (refreshScreen_keeps_panel shot w) as (Hh & Hd & Hm).
  pose proof (refreshScreen_app shot w) as Ha.
  unfold startScreenRefresh, setInterval. simpl.
  rewrite Ht, Hn, Ha, Hh, Hd, Hm. now repeat split.
Qed.

(** X15: a connection attempt with a device chosen closes the dialog, makes
    one request to the connect route with the trimmed serial, and always
    takes the loading overlay away again.  When the answer is not a success
    the page stays unconnected and no refresh timer is started; when it is,
    the page is connected, the screen is shown and one refresh timer is
    added, its handle held by the object. *)
Theorem connectDevice_outcome (T : jsstring) (connect shot : reply)
  (w : World) :
  trim (deviceSerial_value (modal w)) <> [] ->
  loadingOverlay_hidden (device (connectDevice T connect shot w)) = true /\
  connectModal_hidden (modal (connectDevice T connect shot w)) = true /\
  (exists after,
     effects (browser (connectDevice T connect shot w)) =
     effects (browser w) ++
     Fetch (js "POST") (js "/api/device/connect")
       (JObj [(js "serial", JStr (trim (deviceSerial_value (modal w))))])
     :: after /\
     Forall (fun e => is_connect_request e = false) after) /\
  (replied_success connect = false ->
   isConnected (app (connectDevice T connect shot w)) = isConnected (app w) /\
   screenRefreshInterval (app (connectDevice T connect shot w)) =
   screenRefreshInterval (app w) /\
   timers (browser (connectDevice T connect shot w)) =
   timers (browser (stopWirelessPolling w))) /\
  (replied_success connect = true ->
   isConnected (app (connectDevice T connect shot w)) = true /\
   deviceScreen_hidden (device (connectDevice T connect shot w)) = false /\
   statusDot_connected (device (connectDevice T connect shot w)) = true /\
   timers (browser (connectDevice T connect shot w)) =
   timers (browser (stopWirelessPolling w)) ++
   [(next_timer (browser w), ScreenRefreshTimer)] /\
   screenRefreshInterval (app (connectDevice T connect shot w)) =
   Some (next_timer (browser w))).
Proof.
  intros Hs.
  assert (Hne : is_empty (trim (deviceSerial_value (modal w))) = false)
    by (destruct (trim (deviceSerial_value (modal w))); [congruence|easy]).
  rewrite (connectDevice_sequence T connect shot w Hne).
  destruct (connect_sequence_once T (trim (deviceSerial_value (modal w)))
              (js "正在连接设备...") (js "设备连接成功！") connect shot w)
    as (_ & _ & _ & He).
  split; [reflexivity|]. split.
  { unfold connect_sequence, hideConnectModal.
    assert (Hm : forall x, connectModal_hidden
                             (modal (stopWirelessPolling
                                       (set_connectModal_hidden true x))) =
                           true).
    { intros x. unfold stopWirelessPolling. simpl.
      now destruct (wirelessPollingInterval (app x)). }
    destruct connect as [m|data]; [apply Hm|].
    destruct (get data (js "success")) as [ok|]; [|apply Hm].
    destruct (truthy ok); [|apply Hm].
    match goal with
    | |- context [updateConnectionStatus true ?i ?x] =>
        destruct (updateConnectionStatus_frame i x) as (_ & Um & _);
        set (wb := updateConnectionStatus true i x) in *
    end.
    clearbody wb.
    destruct (startScreenRefresh_adds shot (showScreen wb))
      as (_ & _ & _ & _ & _ & Hm').
    simpl in *. rewrite Hm', Um. apply Hm. }
  split; [exact He|].
  assert (Hf : forall x,
             isConnected (app (stopWirelessPolling
                                 (set_connectModal_hidden true x))) =
             isConnected (app x) /\
             screenRefreshInterval
               (app (stopWirelessPolling (set_connectModal_hidden true x))) =
             screenRefreshInterval (app x) /\
             timers (browser (stopWirelessPolling
                                (set_connectModal_hidden true x))) =
             timers (browser (stopWirelessPolling x)) /\
             next_timer (browser (stopWirelessPolling
                                    (set_connectModal_hidden true x))) =
             next_timer (browser x)).
  { intros x. unfold stopWirelessPolling. simpl.
    now destruct (wirelessPollingInterval (app x)). }
  destruct (Hf w) as (Hc & Hr & Ht & Hn).
  unfold replied_success, connect_sequence, hideConnectModal.
  destruct connect as [m|data].
  { split; [intros _|discriminate]. simpl. now rewrite Hc, Hr, Ht. }
  destruct (get data (js "success")) as [ok|].
  2:{ split; [intros _|discriminate]. simpl. now rewrite Hc, Hr, Ht. }
  destruct (truthy ok).
  2:{ split; [intros _|discriminate]. simpl. now rewrite Hc, Hr, Ht. }
  split; [discriminate|intros _].
  match goal with
  | |- context [updateConnectionStatus true ?i ?x] =>
      destruct (updateConnectionStatus_frame i x) as (Ua & _ & Ub);
      assert (Ud : statusDot_connected
                     (device (updateConnectionStatus true i x)) = true)
        by (unfold updateConnectionStatus; now destruct (truthy i));
      set (wb := updateConnectionStatus true i x) in *
  end.
  clearbody wb.
  destruct (startScreenRefresh_adds shot (showScreen wb))
    as (Ht' & Hr' & Hc' & Hh' & Hd' & _).
  simpl in *. rewrite Ht', Hr', Hc', Hh', Hd', Ua, Ub, Ud. simpl.
  now rewrite Ht, Hn.
Qed.

Lemma connectDevice_outcome_witness :
  loadingOverlay_hidden
    (device (connectDevice sample_TypeError ok_reply ok_reply usb_World)) =
  true /\
  connectModal_hidden
    (modal (connectDevice sample_TypeError ok_reply ok_reply usb_World)) =
  true /\
  (exists after,
     effects
       (browser (connectDevice sample_TypeError ok_reply ok_reply usb_World)) =
     effects (browser usb_World) ++
     Fetch (js "POST") (js "/api/device/connect")
       (JObj [(js "serial",
               JStr (trim (deviceSerial_value (modal usb_World))))])
     :: after /\
     Forall (fun e => is_connect_request e = false) after) /\
  (replied_success ok_reply = false ->
   isConnected
     (app (connectDevice sample_TypeError ok_reply ok_reply usb_World)) =
   isConnected (app usb_World) /\
   screenRefreshInterval
     (app (connectDevice sample_TypeError ok_reply ok_reply usb_World)) =
   screenRefreshInterval (app usb_World) /\
   timers
     (browser (connectDevice sample_TypeError ok_reply ok_reply usb_World)) =
   timers (browser (stopWirelessPolling usb_World))) /\
  (replied_success ok_reply = true ->
   isConnected
     (app (connectDevice sample_TypeError ok_reply ok_reply usb_World)) =
   true /\
   deviceScreen_hidden
     (device (connectDevice sample_TypeError ok_reply ok_reply usb_World)) =
   false /\
   statusDot_connected
     (device (connectDevice sample_TypeError ok_reply ok_reply usb_World)) =
   true /\
   timers
     (browser (connectDevice sample_TypeError ok_reply ok_reply usb_World)) =
   timers (browser (stopWirelessPolling usb_World)) ++
   [(next_timer (browser usb_World), ScreenRefreshTimer)] /\
   screenRefreshInterval
     (app (connectDevice sample_TypeError ok_reply ok_reply usb_World)) =
   Some (next_timer (browser usb_World))).
Proof.
  apply (connectDevice_outcome sample_TypeError ok_reply ok_reply usb_World).
  vm_compute. discriminate.
Defined.

(** ** The list of devices *)

Lemma select_value_first (v text : jsstring)
  (rest : list (jsstring * jsstring)) :
  select_value v ((v, text) :: rest) = v.
Proof.
  unfold select_value. simpl.
  now rewrite (proj2 (jsstring_eqb_eq v v) eq_refl).
Qed.

(** X16: a list with exactly one device selects that device: the [select]
    holds its serial as its only option and as its value, and a click on
    "connect" right after sends that serial (trimmed) without any choice by
    the user. *)
Theorem single_device_preselected (T : jsstring) (data ok d serial : jsval)
  (p : Page) :
  get data (js "success") = Some ok ->
  truthy ok = true ->
  prop data "data" = JArr [d] ->
  get d (js "serial") = Some serial ->
  deviceSerial_value (modal (world (fetchDeviceList (Resolved data) p))) =
  ToString serial /\
  deviceSerial_options (dialog (fetchDeviceList (Resolved data) p)) =
  [(ToString serial, textContent_of serial)] /\
  deviceListHint_color (dialog (fetchDeviceList (Resolved data) p)) =
  js "var(--success)" /\
  (trim (ToString serial) <> [] ->
   forall connect shot : reply,
   exists after,
     effects (browser (connectDevice T connect shot
                         (world (fetchDeviceList (Resolved data) p)))) =
     effects (browser (world p)) ++
     Fetch (js "GET") (js "/api/device/list") JUndefined
     :: Fetch (js "POST") (js "/api/device/connect")
          (JObj [(js "serial", JStr (trim (ToString serial)))])
     :: after).
Proof.
  intros Hs Ht Hd Hser.
  assert (Hl : list_devices (JArr [d]) =
               {| l_options := [(ToString serial, textContent_of serial)];
                  l_value := ToString serial;
                  l_hint := js "发现 " ++ ToString (JNum 1) ++ js " 个设备";
                  l_color := js "var(--success)" |}).
  { unfold list_devices. simpl. rewrite Hser. simpl.
    unfold prop. rewrite Hser. now rewrite select_value_first. }
  unfold fetchDeviceList, fetchDeviceList_done.
  rewrite Hs, Ht, Hd, Hl. simpl.
  repeat (split; [reflexivity|]).
  intros Hne connect shot.
  match goal with
  | |- context [connectDevice T connect shot ?x] => set (w := x)
  end.
  assert (Hv : trim (deviceSerial_value (modal w)) = trim (ToString serial))
    by reflexivity.
  assert (He : is_empty (trim (deviceSerial_value (modal w))) = false).
  { rewrite Hv. destruct (trim (ToString serial)); [congruence|easy]. }
  rewrite (connectDevice_sequence T connect shot w He).
  destruct (connect_sequence_once T (trim (deviceSerial_value (modal w)))
              (js "正在连接设备...") (js "设备连接成功！") connect shot w)
    as (_ & _ & _ & after & E & _).
  exists after. rewrite E, Hv. unfold w. simpl.
  now rewrite <- app_assoc.
Qed.

Lemma single_device_preselected_witness :
  deviceSerial_value
    (modal (world (fetchDeviceList (devices_reply ["emulator-5554"%string])
                     sample_Page))) =
  ToString (JStr (js "emulator-5554")) /\
  deviceSerial_options
    (dialog (fetchDeviceList (devices_reply ["emulator-5554"%string])
               sample_Page)) =
  [(ToString (JStr (js "emulator-5554")),
    textContent_of (JStr (js "emulator-5554")))] /\
  deviceListHint_color
    (dialog (fetchDeviceList (devices_reply ["emulator-5554"%string])
               sample_Page)) = js "var(--success)" /\
  (trim (ToString (JStr (js "emulator-5554"))) <> [] ->
   forall connect shot : reply,
   exists after,
     effects
       (browser (connectDevice sample_TypeError connect shot
                   (world (fetchDeviceList
                             (devices_reply ["emulator-5554"%string])
                             sample_Page)))) =
     effects (browser (world sample_Page)) ++
     Fetch (js "GET") (js "/api/device/list") JUndefined
     :: Fetch (js "POST") (js "/api/device/connect")
          (JObj [(js "serial",
                  JStr (trim (ToString (JStr (js "emulator-5554")))))])
     :: after).
Proof.
  apply (single_device_preselected sample_TypeError
           (JObj [(js "success", JBool true);
                  (js "data",
                   JArr [JObj [(js "serial", JStr (js "emulator-5554"))]])])
           (JBool true)
           (JObj [(js "serial", JStr (js "emulator-5554"))])
           (JStr (js "emulator-5554")) sample_Page).
  - vm_compute. reflexivity.
  - reflexivity.
  - vm_compute. reflexivity.
  - vm_compute. reflexivity.
Defined.

Lemma list_devices_value (devices : jsval) :
  (forall d, devices <> JArr [d]) -> l_value (list_devices devices) = [].
Proof.
  intros H. unfold list_devices.
  destruct devices as [ | | b | z | s | items | fields]; try reflexivity;
    try (destruct (is_zero _); reflexivity).
  destruct (is_zero (length_of (JArr items))) eqn:Ez; [reflexivity|].
  destruct (device_options items) as [appended|]; [|reflexivity].
  destruct items as [|d [|d' rest]].
  - discriminate Ez.
  - exfalso. now apply (H d).
  - reflexivity.
Qed.

(** X17: nothing else preselects a device.  After a list that is not a
    successful answer with exactly one device (no device, several devices, a
    refusal, a failure), the [select] shows no serial, and "connect" is
    refused with a warning and without a request until the user chooses. *)
Theorem no_device_preselected (T : jsstring) (answer connect shot : reply)
  (p : Page) :
  (forall data d, answer = Resolved data -> prop data "data" <> JArr [d]) ->
  deviceSerial_value (modal (world (fetchDeviceList answer p))) = [] /\
  connectDevice T connect shot (world (fetchDeviceList answer p)) =
  showToast (js "请先选择一个设备") (js "warning")
    (world (fetchDeviceList answer p)).
Proof.
  intros H.
  assert (Hv : deviceSerial_value (modal (world (fetchDeviceList answer p))) =
               []).
  { unfold fetchDeviceList, fetchDeviceList_done. simpl.
    destruct answer as [m|data]; [reflexivity|].
    destruct (get data (js "success")) as [ok|]; [|reflexivity].
    destruct (truthy ok); [|reflexivity].
    apply list_devices_value. intros d. now apply (H data d). }
  split; [exact Hv|]. unfold connectDevice. now rewrite Hv.
Qed.

Lemma no_device_preselected_witness :
  deviceSerial_value
    (modal (world (fetchDeviceList
                     (devices_reply ["emulator-5554"; "R58M1234"]%string)
                     sample_Page))) = [] /\
  connectDevice sample_TypeError ok_reply ok_reply
    (world (fetchDeviceList
              (devices_reply ["emulator-5554"; "R58M1234"]%string)
              sample_Page)) =
  showToast (js "请先选择一个设备") (js "warning")
    (world (fetchDeviceList
              (devices_reply ["emulator-5554"; "R58M1234"]%string)
              sample_Page)).
Proof.
  apply (no_device_preselected sample_TypeError
           (devices_reply ["emulator-5554"; "R58M1234"]%string)
           ok_reply ok_reply sample_Page).
  intros data d E. inversion E; subst. vm_compute. discriminate.
Defined.

(** X18: however the list request ends, the [select] and the refresh button
    are enabled again, the [select] has at least one option, one request was
    made, and nothing of the page outside the dialog was touched.  While the
    list is loading both controls are disabled. *)
Theorem fetchDeviceList_settles (answer : reply) (p : Page) :
  deviceSerial_disabled (dialog (fetchDeviceList_loading p)) = true /\
  btnRefreshDevices_disabled (dialog (fetchDeviceList_loading p)) = true /\
  deviceSerial_disabled (dialog (fetchDeviceList answer p)) = false /\
  btnRefreshDevices_disabled (dialog (fetchDeviceList answer p)) = false /\
  deviceSerial_options (dialog (fetchDeviceList answer p)) <> [] /\
  effects (browser (world (fetchDeviceList answer p))) =
  effects (browser (world p)) ++
  [Fetch (js "GET") (js "/api/device/list") JUndefined] /\
  app (world (fetchDeviceList answer p)) = app (world p) /\
  chat (world (fetchDeviceList answer p)) = chat (world p) /\
  device (world (fetchDeviceList answer p)) = device (world p) /\
  timers (browser (world (fetchDeviceList answer p))) =
  timers (browser (world p)) /\
  currentTab (dialog (fetchDeviceList answer p)) = currentTab (dialog p).
Proof.
  repeat (split; [reflexivity|]).
  split; [|now repeat split].
  unfold fetchDeviceList, fetchDeviceList_done. simpl.
  destruct answer as [m|data]; [discriminate|].
  destruct (get data (js "success")) as [ok|]; [|discriminate].
  destruct (truthy ok); [|discriminate].
  unfold list_devices.
  destruct (prop data "data") as [ | | b | z | s | items | fields];
    try discriminate; try (destruct (is_zero _); discriminate).
  destruct (is_zero (length_of (JArr items))) eqn:Ez; [discriminate|].
  destruct (device_options items) as [appended|] eqn:Eo; [|discriminate].
  destruct items as [|d rest]; [discriminate Ez|].
  simpl in Eo. destruct (get d (js "serial")); [|discriminate].
  destruct (device_options rest); [|discriminate].
  inversion Eo; subst. simpl. destruct rest; discriminate.
Qed.

(** ** What the stream does to the chat *)

Lemma messages_app (l1 l2 : list chat_node) :
  messages (l1 ++ l2) = messages l1 ++ messages l2.
Proof. apply filter_app. Qed.

Lemma messages_retext (text : jsstring) (l : list chat_node) :
  messages (retext_first_thinking text l) = messages l.
Proof.
  induction l as [|n l IH]; simpl; [reflexivity|].
  destruct (is_thinking n) eqn:E; simpl; [reflexivity|].
  now rewrite E, IH.
Qed.

Lemma messages_remove_thinking (l : list chat_node) :
  messages (remove_first is_thinking l) = messages l.
Proof.
  induction l as [|n l IH]; simpl; [reflexivity|].
  destruct (is_thinking n) eqn:E; simpl; [reflexivity|].
  now rewrite E, IH.
Qed.

Lemma render_step_messages (data : jsval) (w : World) :
  exists added,
    messages (chatContainer (chat (render_step data w))) =
    messages (chatContainer (chat w)) ++ added.
Proof.
  unfold render_step, updateOrAddThinking, addSystemMessage, removeThinking.
  split_ifs; simpl;
    rewrite ?messages_app, ?messages_retext, ?messages_remove_thinking;
    try (eexists; reflexivity).
  all: exists []; now rewrite app_nil_r.
Qed.

Lemma page_line_messages (JSON_parse : jsstring -> option jsval)
  (w : World) (line : jsstring) :
  exists added,
    messages (chatContainer (chat (page_line JSON_parse w line))) =
    messages (chatContainer (chat w)) ++ added.
Proof.
  assert (Hsame : exists added,
             messages (chatContainer (chat w)) =
             messages (chatContainer (chat w)) ++ added)
    by (exists []; now rewrite app_nil_r).
  unfold page_line, process_line.
  destruct (startsWith line DATA_PREFIX); [|exact Hsame].
  destruct (JSON_parse (slice 6 line)) as [data|]; [|exact Hsame].
  unfold handleStepResult.
  destruct (get data (js "screenshot")) as [shot|]; [|exact Hsame].
  rewrite (render_step_chat data _ w) by now destruct (truthy shot).
  apply render_step_messages.
Qed.

Lemma page_lines_messages (JSON_parse : jsstring -> option jsval)
  (lines : list jsstring) : forall w : World,
  exists added,
    messages (chatContainer (chat (fold_left (page_line JSON_parse) lines w)))
    = messages (chatContainer (chat w)) ++ added.
Proof.
  induction lines as [|l lines IH]; intros w; simpl.
  - exists []. now rewrite app_nil_r.
  - destruct (IH (page_line JSON_parse w l)) as (a2 & E2).
    destruct (page_line_messages JSON_parse w l) as (a1 & E1).
    exists (a1 ++ a2). now rewrite E2, E1, app_assoc.
Qed.

Lemma refreshScreen_chat (shot : reply) (w : World) :
  chat (refreshScreen shot w) = chat w.
Proof.
  unfold refreshScreen.
  destruct (negb (isConnected (app w))); [reflexivity|].
  destruct shot as [m|data]; [reflexivity|].
  destruct (get data (js "success")) as [ok|]; [|reflexivity].
  now destruct (truthy ok).
Qed.

Lemma executeTask_messages (JSON_parse : jsstring -> option jsval)
  (net : execute_reply) (shot : reply) (w : World) :
  trim (messageInput_value (chat w)) <> [] ->
  isConnected (app w) = true ->
  isExecuting (app w) = false ->
  exists added,
    messages (chatContainer (chat (executeTask JSON_parse net shot w))) =
    messages (remove_first is_welcome (chatContainer (chat w))) ++
    Message (js "user") (trim (messageInput_value (chat w))) :: added.
Proof.
  intros Ht Hc Hx. unfold executeTask.
  destruct (is_empty (trim (messageInput_value (chat w)))) eqn:Et.
  { destruct (trim (messageInput_value (chat w))); [congruence|discriminate]. }
  rewrite Hc, Hx. cbn [negb]. rewrite refreshScreen_chat.
  set (task := trim (messageInput_value (chat w))).
  set (w1 := setExecutingState true
               (addMessage (js "user") (JStr task)
                  (upd_chatContainer (remove_first is_welcome)
                     (set_messageInput_value [] w)))).
  assert (H1 : messages (chatContainer (chat w1)) =
               messages (remove_first is_welcome (chatContainer (chat w))) ++
               [Message (js "user") task]).
  { unfold w1. simpl. rewrite messages_app. simpl.
    now rewrite escapeHtml_JStr. }
  assert (H : exists added,
             messages (chatContainer (chat (run_stream JSON_parse task net w1)))
             = messages (chatContainer (chat w1)) ++ added).
  { unfold run_stream. destruct net as [m | chunks fin].
    - simpl. rewrite messages_app. eexists. reflexivity.
    - rewrite read_loop_lines.
      match goal with
      | |- context [fold_left ?f ?ls ?x] =>
          destruct (page_lines_messages JSON_parse ls x) as (a & E)
      end.
      unfold page_line in E. destruct fin as [|m].
      + exists a. exact E.
      + simpl. rewrite messages_app. simpl in E. rewrite E.
        eexists. now rewrite <- app_assoc. }
  destruct H as (added & E). exists added.
  change (chatContainer
            (chat (setExecutingState false
                     (run_stream JSON_parse task net w1))))
    with (chatContainer (chat (run_stream JSON_parse task net w1))).
  rewrite E, H1. now rewrite <- app_assoc.
Qed.

Lemma render_step_inert (data : jsval) (w : World) :
  inert_chat (chatContainer (chat w)) = true ->
  (is_string (prop data "type") "action" = true ->
   inert (prop data "action") = true) ->
  inert_chat (chatContainer (chat (render_step data w))) = true.
Proof.
  intros H Ha. unfold render_step, removeThinking.
  destruct (is_string (prop data "type") "start"
            || is_string (prop data "type") "info"
            || is_string (prop data "type") "update");
    [now apply addSystemMessage_inert|].
  destruct (is_string (prop data "type") "thinking");
    [now apply updateOrAddThinking_inert|].
  destruct (is_string (prop data "type") "action").
  { apply addSystemMessage_inert; [|intros _; now apply Ha].
    simpl. now apply inert_chat_remove. }
  destruct (is_string (prop data "type") "done");
    [now apply addSystemMessage_inert|].
  destruct (is_string (prop data "type") "completed");
    [now apply addSystemMessage_inert|].
  destruct (is_string (prop data "type") "failed"
            || is_string (prop data "type") "error").
  { apply addSystemMessage_inert; [|discriminate].
    simpl. now apply inert_chat_remove. }
  destruct (is_string (prop data "type") "stopped").
  { apply addSystemMessage_inert; [|discriminate].
    simpl. now apply inert_chat_remove. }
  destruct (is_string (prop data "type") "warning");
    [now apply addSystemMessage_inert|exact H].
Qed.

Lemma page_line_inert (JSON_parse : jsstring -> option jsval)
  (w : World) (line : jsstring) :
  inert_chat (chatContainer (chat w)) = true ->
  inert_record JSON_parse line = true ->
  inert_chat (chatContainer (chat (page_line JSON_parse w line))) = true.
Proof.
  intros H. unfold inert_record, page_line, process_line.
  destruct (startsWith line DATA_PREFIX); [|intros _; exact H].
  destruct (JSON_parse (slice 6 line)) as [data|]; [|intros _; exact H].
  intros Hr. unfold handleStepResult.
  destruct (get data (js "screenshot")) as [shot|]; [|exact H].
  rewrite (render_step_chat data _ w) by now destruct (truthy shot).
  apply render_step_inert; [exact H|].
  intros Ht. now rewrite Ht in Hr.
Qed.

Lemma page_lines_inert (JSON_parse : jsstring -> option jsval)
  (lines : list jsstring) : forall w : World,
  inert_chat (chatContainer (chat w)) = true ->
  forallb (inert_record JSON_parse) lines = true ->
  inert_chat
    (chatContainer (chat (fold_left (page_line JSON_parse) lines w))) = true.
Proof.
  induction lines as [|l lines IH]; intros w H Hl; simpl; [exact H|].
  simpl in Hl. apply andb_true_iff in Hl. destruct Hl as [Hr Hl].
  apply IH; [|exact Hl]. now apply page_line_inert.
Qed.

Lemma run_stream_inert (JSON_parse : jsstring -> option jsval)
  (task : jsstring) (net : execute_reply) (w : World) :
  inert_chat (chatContainer (chat w)) = true ->
  inert_reply JSON_parse net = true ->
  inert_chat (chatContainer (chat (run_stream JSON_parse task net w))) = true.
Proof.
  intros H Hn. unfold run_stream. destruct net as [m | chunks fin].
  - now apply addSystemMessage_inert.
  - rewrite read_loop_lines. simpl in Hn.
    pose proof (page_lines_inert JSON_parse _
                  (perform
                     (Fetch (js "POST") (js "/api/chat/execute")
                        (JObj [(js "task", JStr task)])) w) H Hn) as Hp.
    unfold page_line in Hp.
    destruct fin as [|m]; [exact Hp|].
    now apply addSystemMessage_inert.
Qed.

Lemma executeTask_inert (JSON_parse : jsstring -> option jsval)
  (net : execute_reply) (shot : reply) (w : World) :
  inert_chat (chatContainer (chat w)) = true ->
  inert_reply JSON_parse net = true ->
  inert_chat (chatContainer (chat (executeTask JSON_parse net shot w))) =
  true.
Proof.
  intros H Hn. unfold executeTask.
  destruct (is_empty (trim (messageInput_value (chat w)))); [exact H|].
  destruct (negb (isConnected (app w))); [exact H|].
  destruct (isExecuting (app w)); [exact H|].
  rewrite refreshScreen_chat.
  set (task := trim (messageInput_value (chat w))).
  set (w1 := setExecutingState true
               (addMessage (js "user") (JStr task)
                  (upd_chatContainer (remove_first is_welcome)
                     (set_messageInput_value [] w)))).
  assert (H1 : inert_chat (chatContainer (chat w1)) = true).
  { unfold w1. simpl. apply inert_chat_append; [|reflexivity].
    now apply inert_chat_remove. }
  exact (run_stream_inert JSON_parse task net w1 H1 Hn).
Qed.

(** X19: a task only ever adds to the messages of the chat.  On a chat in
    which no payload has made an element, and for an answer whose action
    payloads make none, the messages after a call that is accepted are those
    before without the welcome message, then the user's text, then what the
    stream and a failure appended; no earlier message is removed or rewritten
    (only the thinking placeholder is), and the chat is again one in which no
    payload has made an element. *)
Theorem task_only_appends_messages (JSON_parse : jsstring -> option jsval)
  (net : execute_reply) (shot : reply) (w : World) :
  trim (messageInput_value (chat w)) <> [] ->
  isConnected (app w) = true ->
  isExecuting (app w) = false ->
  inert_chat (chatContainer (chat w)) = true ->
  inert_reply JSON_parse net = true ->
  (exists added,
     messages (chatContainer (chat (executeTask JSON_parse net shot w))) =
     messages (remove_first is_welcome (chatContainer (chat w))) ++
     Message (js "user") (trim (messageInput_value (chat w))) :: added) /\
  inert_chat (chatContainer (chat (executeTask JSON_parse net shot w))) =
  true.
Proof.
  intros Ht Hc Hx Hi Hn. split.
  - exact (executeTask_messages JSON_parse net shot w Ht Hc Hx).
  - exact (executeTask_inert JSON_parse net shot w Hi Hn).
Qed.

Lemma task_only_appends_messages_witness :
  (exists added,
     messages
       (chatContainer
          (chat (executeTask sample_parse_action action_stream ok_reply
                   (connected_typed "open settings")))) =
     messages
       (remove_first is_welcome
          (chatContainer (chat (connected_typed "open settings")))) ++
     Message (js "user")
       (trim (messageInput_value (chat (connected_typed "open settings"))))
     :: added) /\
  inert_chat
    (chatContainer
       (chat (executeTask sample_parse_action action_stream ok_reply
                (connected_typed "open settings")))) = true.
Proof.
  apply (task_only_appends_messages sample_parse_action action_stream ok_reply
           (connected_typed "open settings")).
  - vm_compute. discriminate.
  - reflexivity.
  - reflexivity.
  - reflexivity.
  - vm_compute. reflexivity.
Defined.

(** ** What every reaction of the page keeps *)

Lemma dialog_step_refl (w : World) : dialog_step w w.
Proof. split; [reflexivity|split; intros H; exact H]. Qed.

Lemma dialog_step_trans (w1 w2 w3 : World) :
  dialog_step w1 w2 -> dialog_step w2 w3 -> dialog_step w1 w3.
Proof.
  unfold dialog_step. intros (C1 & I1 & F1) (C2 & I2 & F2).
  split; [congruence|split; tauto].
Qed.

Lemma dialog_step_same (w w' : World) :
  chat w' = chat w ->
  isConnected (app w') = isConnected (app w) ->
  same_timers w w' ->
  dialog_step w w'.
Proof.
  intros C I T. split; [exact C|split; [congruence|]].
  now apply same_timers_fresh.
Qed.

Ltac same_step :=
  apply dialog_step_same; [reflexivity|reflexivity|now split].

Lemma stopWirelessPolling_step (w : World) :
  dialog_step w (stopWirelessPolling w).
Proof.
  unfold stopWirelessPolling.
  destruct (wirelessPollingInterval (app w)) as [id|];
    [|apply dialog_step_refl].
  split; [reflexivity|split; [intros H; exact H|]].
  intros H. exact (clearInterval_fresh id w H).
Qed.

Lemma startWirelessPolling_step (w : World) :
  dialog_step w (startWirelessPolling w).
Proof.
  split; [|split].
  - unfold startWirelessPolling.
    destruct (stopWirelessPolling_step w) as (C & _ & _).
    now rewrite <- C.
  - unfold startWirelessPolling.
    destruct (stopWirelessPolling_step w) as (_ & I & _).
    exact I.
  - apply startWirelessPolling_fresh.
Qed.

Lemma hideConnectModal_step (w : World) : dialog_step w (hideConnectModal w).
Proof.
  unfold hideConnectModal.
  eapply dialog_step_trans; [|apply stopWirelessPolling_step]. same_step.
Qed.

Lemma refreshScreen_step (shot : reply) (w : World) :
  dialog_step w (refreshScreen shot w).
Proof.
  apply dialog_step_same.
  - apply refreshScreen_chat.
  - now rewrite refreshScreen_app.
  - apply refreshScreen_same_timers.
Qed.

Lemma startScreenRefresh_step (shot : reply) (w : World) :
  dialog_step w (startScreenRefresh shot w).
Proof.
  split; [|split].
  - unfold startScreenRefresh. simpl. apply refreshScreen_chat.
  - unfold startScreenRefresh. simpl. now rewrite refreshScreen_app.
  - apply startScreenRefresh_fresh.
Qed.

Lemma connect_sequence_step (T serial loading success : jsstring)
  (connect shot : reply) (w : World) :
  dialog_step w (connect_sequence T serial loading success connect shot w).
Proof.
  unfold connect_sequence. cbv zeta.
  set (w1 := perform _ (showLoading loading (hideConnectModal w))).
  assert (H1 : dialog_step w w1).
  { unfold w1. eapply dialog_step_trans; [apply hideConnectModal_step|].
    same_step. }
  clearbody w1.
  eapply dialog_step_trans; [exact H1|].
  eapply dialog_step_trans; [|same_step].
  destruct connect as [m|data]; [same_step|].
  destruct (get data (js "success")) as [ok|]; [|same_step].
  destruct (truthy ok); [|same_step].
  eapply dialog_step_trans; [|same_step].
  eapply dialog_step_trans; [|apply startScreenRefresh_step].
  unfold showScreen, updateConnectionStatus.
  destruct (truthy (prop data "data"));
    (split; [reflexivity|split; [reflexivity|intros H; exact H]]).
Qed.

Lemma connectDevice_step (T : jsstring) (connect shot : reply) (w : World) :
  dialog_step w (connectDevice T connect shot w).
Proof.
  destruct (is_empty (trim (deviceSerial_value (modal w)))) eqn:E.
  - unfold connectDevice. rewrite E. same_step.
  - rewrite (connectDevice_sequence T connect shot w E).
    apply connect_sequence_step.
Qed.

Lemma handleWirelessStatus_step (T : jsstring) (data : jsval)
  (connect shot : reply) (w w' : World) :
  handleWirelessStatus T data connect shot w = Some w' ->
  dialog_step w w'.
Proof.
  unfold handleWirelessStatus.
  destruct (get data (js "status")) as [status|]; [|discriminate].
  intros E. inversion E; subst; clear E.
  split_ifs; try same_step; try apply dialog_step_refl.
  - rewrite connectWirelessDevice_sequence.
    eapply dialog_step_trans; [|apply connect_sequence_step].
    eapply dialog_step_trans; [apply stopWirelessPolling_step|]. same_step.
  - eapply dialog_step_trans; [|apply stopWirelessPolling_step]. same_step.
Qed.

Lemma wirelessPollTick_step (T : jsstring) (status connect shot : reply)
  (w : World) :
  dialog_step w (wirelessPollTick T status connect shot w).
Proof.
  unfold wirelessPollTick.
  destruct status as [m|data]; [same_step|].
  destruct (get data (js "success")) as [ok|]; [|same_step].
  destruct (truthy ok); [|same_step].
  match goal with
  | |- context [handleWirelessStatus T data connect shot ?x] =>
      destruct (handleWirelessStatus T data connect shot x) as [w'|] eqn:E
  end; [|same_step].
  apply handleWirelessStatus_step in E.
  eapply dialog_step_trans; [|exact E]. same_step.
Qed.

Lemma startWirelessPairing_step (T : jsstring) (start : reply) (w : World) :
  dialog_step w (startWirelessPairing T start w).
Proof.
  unfold startWirelessPairing.
  destruct start as [m|data]; [same_step|].
  destruct (get data (js "success")) as [ok|]; [|same_step].
  destruct (truthy ok); [|same_step].
  eapply dialog_step_trans; [|apply startWirelessPolling_step]. same_step.
Qed.

Lemma stopWirelessPairing_step (stop : reply) (w : World) :
  dialog_step w (stopWirelessPairing stop w).
Proof.
  unfold stopWirelessPairing. cbv zeta.
  eapply dialog_step_trans; [apply stopWirelessPolling_step|].
  destruct stop; same_step.
Qed.

Lemma screenRefreshTick_step (shot : reply) (w : World) :
  dialog_step w (screenRefreshTick shot w).
Proof.
  unfold screenRefreshTick.
  destruct (negb (isExecuting (app w)));
    [apply refreshScreen_step|apply dialog_step_refl].
Qed.

Lemma pressKey_step (key : jsval) (press shot : reply) (w : World) :
  dialog_step w (pressKey key press shot w).
Proof.
  unfold pressKey.
  destruct (negb (isConnected (app w)) || isExecuting (app w));
    [apply dialog_step_refl|].
  destruct press as [m|data]; [same_step|].
  eapply dialog_step_trans; [|apply refreshScreen_step]. same_step.
Qed.

Lemma handleScreenClick_step (x y : jsval) (click shot : reply) (w : World) :
  dialog_step w (handleScreenClick x y click shot w).
Proof.
  unfold handleScreenClick.
  destruct (negb (isConnected (app w)) || isExecuting (app w));
    [apply dialog_step_refl|].
  destruct click as [m|data]; [same_step|].
  eapply dialog_step_trans; [|apply refreshScreen_step]. same_step.
Qed.

Lemma stopExecution_step (stop : reply) (w : World) :
  dialog_step w (stopExecution stop w).
Proof. unfold stopExecution. destruct stop; same_step. Qed.

Lemma thinking_nodes_remove_welcome (l : list chat_node) :
  thinking_nodes (remove_first is_welcome l) = thinking_nodes l.
Proof.
  induction l as [|n l IH]; simpl; [reflexivity|].
  destruct n; simpl; try reflexivity; now rewrite IH.
Qed.

Lemma chat_step_refl (w : World) : chat_step w w.
Proof. split; [reflexivity|split; [now split|intros H; exact H]]. Qed.

Ltac chat_same :=
  split; [reflexivity|split; [now split|intros H; exact H]].

Lemma chat_step_trans (w1 w2 w3 : World) :
  chat_step w1 w2 -> chat_step w2 w3 -> chat_step w1 w3.
Proof.
  unfold chat_step. intros (I1 & T1 & P1) (I2 & T2 & P2).
  split; [congruence|split; [|tauto]].
  exact (same_timers_trans _ _ _ T1 T2).
Qed.

Lemma chat_step_append (n : chat_node) (w : World) :
  is_thinking n = false ->
  chat_step w (upd_chatContainer (fun l => l ++ [n]) w).
Proof.
  intros Hn. split; [reflexivity|split; [now split|]].
  unfold one_placeholder. simpl. rewrite thinking_nodes_app. simpl.
  rewrite Hn. now rewrite app_nil_r.
Qed.

Lemma page_line_step (JSON_parse : jsstring -> option jsval)
  (w : World) (line : jsstring) :
  chat_step w (page_line JSON_parse w line).
Proof.
  split; [|split; [apply page_line_same_timers|]].
  - unfold page_line, process_line.
    destruct (startsWith line DATA_PREFIX); [|reflexivity].
    destruct (JSON_parse (slice 6 line)) as [data|]; [|reflexivity].
    destruct (handleStepResult data w) as [w'|] eqn:E; [|reflexivity].
    apply handleStepResult_frame in E. destruct E as (E & _). now rewrite E.
  - unfold page_line, process_line.
    destruct (startsWith line DATA_PREFIX); [|intros H; exact H].
    destruct (JSON_parse (slice 6 line)) as [data|]; [|intros H; exact H].
    destruct (handleStepResult data w) as [w'|] eqn:E; [|intros H; exact H].
    intros H. exact (thinking_at_most_one data w w' H E).
Qed.

Lemma page_lines_step (JSON_parse : jsstring -> option jsval)
  (lines : list jsstring) : forall w : World,
  chat_step w (fold_left (page_line JSON_parse) lines w).
Proof.
  induction lines as [|l lines IH]; intros w; simpl; [apply chat_step_refl|].
  eapply chat_step_trans; [apply page_line_step|apply IH].
Qed.

Lemma run_stream_step (JSON_parse : jsstring -> option jsval)
  (task : jsstring) (net : execute_reply) (w : World) :
  chat_step w (run_stream JSON_parse task net w).
Proof.
  unfold run_stream. destruct net as [m | chunks fin].
  - apply (chat_step_append _ (perform _ w)). reflexivity.
  - rewrite read_loop_lines.
    pose proof (page_lines_step JSON_parse
                  (fst (scan_lines [] (decode_all (List.concat chunks))))
                  (perform
                     (Fetch (js "POST") (js "/api/chat/execute")
                        (JObj [(js "task", JStr task)])) w)) as H.
    unfold page_line in H.
    destruct fin as [|m]; [exact H|].
    eapply chat_step_trans; [exact H|].
    apply chat_step_append. reflexivity.
Qed.

Lemma refreshScreen_chat_step (shot : reply) (w : World) :
  chat_step w (refreshScreen shot w).
Proof.
  split; [now rewrite refreshScreen_app|].
  split; [apply refreshScreen_same_timers|].
  unfold one_placeholder. now rewrite refreshScreen_chat.
Qed.

Lemma executeTask_step (JSON_parse : jsstring -> option jsval)
  (net : execute_reply) (shot : reply) (w : World) :
  chat_step w (executeTask JSON_parse net shot w).
Proof.
  unfold executeTask.
  destruct (is_empty (trim (messageInput_value (chat w))));
    [apply chat_step_refl|].
  destruct (negb (isConnected (app w))); [chat_same|].
  destruct (isExecuting (app w)); [chat_same|].
  eapply chat_step_trans; [|apply refreshScreen_chat_step].
  set (task := trim (messageInput_value (chat w))).
  set (w1 := setExecutingState true
               (addMessage (js "user") (JStr task)
                  (upd_chatContainer (remove_first is_welcome)
                     (set_messageInput_value [] w)))).
  assert (H1 : chat_step w w1).
  { split; [reflexivity|split; [now split|]].
    unfold one_placeholder, w1. simpl.
    rewrite thinking_nodes_app, thinking_nodes_remove_welcome. simpl.
    now rewrite app_nil_r. }
  pose proof (run_stream_step JSON_parse task net w1) as H2.
  clearbody w1.
  eapply chat_step_trans; [exact H1|].
  eapply chat_step_trans; [exact H2|]. chat_same.
Qed.

Lemma clearChat_step (clear : reply) (w : World) :
  chat_step w (clearChat clear w).
Proof.
  unfold clearChat.
  split; [now destruct clear|split; [now destruct clear|]].
  intros _. unfold one_placeholder. simpl. lia.
Qed.

Section Reactions.

Variable JSON_parse : jsstring -> option jsval.
Variable T : jsstring.

Lemma fire_step (e : event) (w : World) :
  dialog_step w (fire JSON_parse T e w) \/
  chat_step w (fire JSON_parse T e w).
Proof.
  destruct e; simpl.
  - right. chat_same.
  - left. same_step.
  - right. apply executeTask_step.
  - left. apply connectDevice_step.
  - left. apply startWirelessPairing_step.
  - left. apply stopWirelessPairing_step.
  - left. apply hideConnectModal_step.
  - left. apply refreshScreen_step.
  - left. destruct (live ScreenRefreshTimer w);
      [apply dialog_step_refl|apply screenRefreshTick_step].
  - left. destruct (live WirelessPollTimer w);
      [apply dialog_step_refl|apply wirelessPollTick_step].
Qed.

Lemma act_step (a : action) (p : Page) :
  dialog_step (world p) (world (act JSON_parse T a p)) \/
  chat_step (world p) (world (act JSON_parse T a p)).
Proof.
  destruct a; simpl.
  - apply fire_step.
  - right. apply clearChat_step.
  - left. apply stopExecution_step.
  - left. apply pressKey_step.
  - left. apply handleScreenClick_step.
  - right. unfold quickButton.
    eapply chat_step_trans; [|apply executeTask_step]. chat_same.
  - right. unfold keydown.
    destruct (jsstring_eqb key (js "Enter") && negb shiftKey);
      [apply executeTask_step|apply chat_step_refl].
  - left. destruct (jsstring_eqb tab (js "wireless"));
      [|apply dialog_step_refl].
    eapply dialog_step_trans; [apply stopWirelessPolling_step|]. same_step.
  - left. same_step.
  - left. same_step.
Qed.

Lemma act_tracked (a : action) (p : Page) :
  poll_tracked (world p) -> poll_tracked (world (act JSON_parse T a p)).
Proof.
  intros H. destruct a; simpl.
  - now apply fire_tracked.
  - unfold clearChat. destruct clear; exact H.
  - unfold stopExecution. destruct stop; exact H.
  - unfold pressKey.
    destruct (negb (isConnected (app (world p))) ||
              isExecuting (app (world p))); [exact H|].
    destruct press as [m|data]; [exact H|].
    match goal with
    | |- poll_tracked (refreshScreen shot ?x) =>
        apply (same_poll_tracked _ _ (refreshScreen_same_poll shot x) H)
    end.
  - unfold handleScreenClick.
    destruct (negb (isConnected (app (world p))) ||
              isExecuting (app (world p))); [exact H|].
    destruct click as [m|data]; [exact H|].
    match goal with
    | |- poll_tracked (refreshScreen shot ?x) =>
        apply (same_poll_tracked _ _ (refreshScreen_same_poll shot x) H)
    end.
  - unfold quickButton.
    match goal with
    | |- poll_tracked (executeTask _ _ _ ?x) =>
        apply (same_poll_tracked _ _
                 (executeTask_same_poll JSON_parse net shot x) H)
    end.
  - unfold keydown.
    destruct (jsstring_eqb key (js "Enter") && negb shiftKey); [|exact H].
    apply (same_poll_tracked _ _
             (executeTask_same_poll JSON_parse net shot (world p)) H).
  - destruct (jsstring_eqb tab (js "wireless")); [|exact H].
    exact (stopWirelessPolling_tracked (world p) H).
  - exact H.
  - exact H.
Qed.

Lemma act_inert (a : action) (p : Page) :
  inert_chat (chatContainer (chat (world p))) = true ->
  inert_action JSON_parse a = true ->
  inert_chat (chatContainer (chat (world (act JSON_parse T a p)))) = true.
Proof.
  intros H Ha.
  assert (Hd : forall w', dialog_step (world p) w' ->
                          inert_chat (chatContainer (chat w')) = true).
  { intros w' (C & _). now rewrite C. }
  destruct a; simpl.
  - destruct e; simpl;
      try (apply Hd;
           first [ apply connectDevice_step
                 | apply startWirelessPairing_step
                 | apply stopWirelessPairing_step
                 | apply hideConnectModal_step
                 | apply refreshScreen_step ]).
    + exact H.
    + exact H.
    + now apply executeTask_inert.
    + apply Hd. destruct (live ScreenRefreshTimer (world p));
        [apply dialog_step_refl|apply screenRefreshTick_step].
    + apply Hd. destruct (live WirelessPollTimer (world p));
        [apply dialog_step_refl|apply wirelessPollTick_step].
  - reflexivity.
  - apply Hd, stopExecution_step.
  - apply Hd, pressKey_step.
  - apply Hd, handleScreenClick_step.
  - unfold quickButton. now apply executeTask_inert.
  - unfold keydown.
    destruct (jsstring_eqb key (js "Enter") && negb shiftKey); [|exact H].
    now apply executeTask_inert.
  - destruct (jsstring_eqb tab (js "wireless")); [|exact H].
    apply Hd. eapply dialog_step_trans; [apply stopWirelessPolling_step|].
    same_step.
  - exact H.
  - exact H.
Qed.

Lemma act_page_ok (a : action) (p : Page) :
  page_ok (world p) ->
  inert_action JSON_parse a = true ->
  page_ok (world (act JSON_parse T a p)).
Proof.
  intros (Ht & Hf & Hp & Hi) Ha. split; [now apply act_tracked|].
  assert (Hi' := act_inert a p Hi Ha).
  destruct (act_step a p) as [(C & _ & F)|(_ & S & P)].
  - split; [now apply F|]. split; [|exact Hi'].
    unfold one_placeholder. now rewrite C.
  - split; [now apply (same_timers_fresh _ _ S)|]. split; [now apply P|].
    exact Hi'.
Qed.

Lemma act_connected (a : action) (p : Page) :
  isConnected (app (world p)) = true ->
  isConnected (app (world (act JSON_parse T a p))) = true.
Proof.
  intros H. destruct (act_step a p) as [(_ & I & _)|(I & _)].
  - now apply I.
  - now rewrite I.
Qed.

End Reactions.

(** X20: whatever reactions of the page follow one another, each with
    whatever answers its own requests get, a page keeps four things together
    as long as no action payload of a stream carries markup: the poll timer
    that is live is the one the object holds the handle of (so at most one),
    no handle is given out twice, the chat shows at most one thinking
    placeholder, and no payload in the chat has made an element. *)
Theorem page_ok_kept (JSON_parse : jsstring -> option jsval) (T : jsstring)
  (l : list action) (p : Page) :
  page_ok (world p) ->
  forallb (inert_action JSON_parse) l = true ->
  page_ok (world (acts JSON_parse T l p)).
Proof.
  unfold acts. revert p.
  induction l as [|a l IH]; intros p H Hl; simpl; [exact H|].
  simpl in Hl. apply andb_true_iff in Hl. destruct Hl as [Ha Hl].
  apply IH; [|exact Hl]. now apply act_page_ok.
Qed.

Lemma page_ok_kept_witness :
  page_ok (world busy_Page) /\
  page_ok
    (world (acts sample_parse_action sample_TypeError sample_actions
              busy_Page)).
Proof.
  assert (H : page_ok (world busy_Page)).
  { split; [reflexivity|]. split; [|split].
    - split; [repeat constructor|].
      simpl. repeat constructor. simpl. tauto.
    - unfold one_placeholder. simpl. lia.
    - reflexivity. }
  split; [exact H|].
  apply (page_ok_kept sample_parse_action sample_TypeError sample_actions
           busy_Page H).
  vm_compute. reflexivity.
Defined.

(** X21: the page has no way back from connected: no listener bound by
    [bindEvents] and no callback of a timer clears [isConnected], whatever
    the answers to its requests, a failed or refused later connection attempt
    included. *)
Theorem connection_never_dropped (JSON_parse : jsstring -> option jsval)
  (T : jsstring) (l : list action) (p : Page) :
  isConnected (app (world p)) = true ->
  isConnected (app (world (acts JSON_parse T l p))) = true.
Proof.
  unfold acts. revert p.
  induction l as [|a l IH]; intros p H; simpl; [exact H|].
  apply IH. now apply act_connected.
Qed.

Lemma connection_never_dropped_witness :
  isConnected
    (app (world (acts sample_parse sample_TypeError
                   [Basic (ClickConfirmConnect (Rejected (js "refused"))
                             ok_reply);
                    ClickScreen (JNum 540) (JNum 1200)
                      (Rejected (js "offline")) ok_reply;
                    Basic (PollTick (status_reply "connect_failed") ok_reply
                             ok_reply)]
                   busy_Page))) = true.
Proof.
  apply (connection_never_dropped sample_parse sample_TypeError _ busy_Page).
  reflexivity.
Defined.

(** ** Stop, quick buttons and clearing *)

(** X22: asking the server to stop does not end the run on the page.  While
    [isExecuting] is set, [stopExecution] leaves the object, the chat and the
    timers as they are, whatever the request does; so after it the refresh
    tick is still skipped, the navigation keys are still ignored, and a new
    task is still turned down with the toast. *)
Theorem stop_does_not_release (JSON_parse : jsstring -> option jsval)
  (stop shot press : reply) (net : execute_reply) (key : jsval) (w : World) :
  isExecuting (app w) = true ->
  isConnected (app w) = true ->
  trim (messageInput_value (chat w)) <> [] ->
  app (stopExecution stop w) = app w /\
  chat (stopExecution stop w) = chat w /\
  same_timers w (stopExecution stop w) /\
  screenRefreshTick shot (stopExecution stop w) = stopExecution stop w /\
  pressKey key press shot (stopExecution stop w) = stopExecution stop w /\
  executeTask JSON_parse net shot (stopExecution stop w) =
  showToast (js "正在执行中...") (js "warning") (stopExecution stop w).
Proof.
  intros Hx Hc Ht.
  assert (Ha : app (stopExecution stop w) = app w) by now destruct stop.
  assert (Hh : chat (stopExecution stop w) = chat w) by now destruct stop.
  split; [exact Ha|]. split; [exact Hh|].
  split; [now destruct stop|].
  unfold screenRefreshTick, pressKey, executeTask.
  rewrite Ha, Hh, Hx, Hc. cbn [negb orb].
  destruct (trim (messageInput_value (chat w))); [congruence|].
  now repeat split.
Qed.

Lemma stop_does_not_release_witness :
  app (stopExecution (Rejected (js "offline"))
         (setExecutingState true (connected_typed "open settings"))) =
  app (setExecutingState true (connected_typed "open settings")) /\
  chat (stopExecution (Rejected (js "offline"))
          (setExecutingState true (connected_typed "open settings"))) =
  chat (setExecutingState true (connected_typed "open settings")) /\
  same_timers (setExecutingState true (connected_typed "open settings"))
    (stopExecution (Rejected (js "offline"))
       (setExecutingState true (connected_typed "open settings"))) /\
  screenRefreshTick ok_reply
    (stopExecution (Rejected (js "offline"))
       (setExecutingState true (connected_typed "open settings"))) =
  stopExecution (Rejected (js "offline"))
    (setExecutingState true (connected_typed "open settings")) /\
  pressKey (JStr (js "back")) ok_reply ok_reply
    (stopExecution (Rejected (js "offline"))
       (setExecutingState true (connected_typed "open settings"))) =
  stopExecution (Rejected (js "offline"))
    (setExecutingState true (connected_typed "open settings")) /\
  executeTask sample_parse broken_stream ok_reply
    (stopExecution (Rejected (js "offline"))
       (setExecutingState true (connected_typed "open settings"))) =
  showToast (js "正在执行中...") (js "warning")
    (stopExecution (Rejected (js "offline"))
       (setExecutingState true (connected_typed "open settings"))).
Proof.
  apply (stop_does_not_release sample_parse (Rejected (js "offline")) ok_reply
           ok_reply broken_stream (JStr (js "back"))
           (setExecutingState true (connected_typed "open settings"))).
  - reflexivity.
  - reflexivity.
  - vm_compute. discriminate.
Defined.

(** X23: a quick button overwrites what the user had typed before the task
    is checked.  When the task is then turned down, because no device is
    connected or a task is running, the draft is gone and the button's text
    is what the input holds; nothing is requested and the chat is as it
    was. *)
Theorem quick_button_replaces_draft (JSON_parse : jsstring -> option jsval)
  (msg : jsstring) (net : execute_reply) (shot : reply) (w : World) :
  trim msg <> [] ->
  isConnected (app w) = false \/ isExecuting (app w) = true ->
  messageInput_value (chat (quickButton JSON_parse msg net shot w)) = msg /\
  chatContainer (chat (quickButton JSON_parse msg net shot w)) =
  chatContainer (chat w) /\
  app (quickButton JSON_parse msg net shot w) = app w /\
  exists text,
    effects (browser (quickButton JSON_parse msg net shot w)) =
    effects (browser w) ++ [Toast text (js "warning")].
Proof.
  intros Hm Hr. unfold quickButton, executeTask.
  change (messageInput_value (chat (set_messageInput_value msg w)))
    with msg.
  change (app (set_messageInput_value msg w)) with (app w).
  destruct (trim msg) as [|c rest] eqn:Em; [congruence|].
  cbn [is_empty].
  destruct (isConnected (app w)) eqn:Ec; cbn [negb].
  - destruct Hr as [Hr|Hr]; [discriminate|]. rewrite Hr.
    repeat split. eexists. reflexivity.
  - repeat split. eexists. reflexivity.
Qed.

Lemma quick_button_replaces_draft_witness :
  messageInput_value
    (chat (quickButton sample_parse (js "go home") broken_stream ok_reply
             (typed "open settings"))) = js "go home" /\
  chatContainer
    (chat (quickButton sample_parse (js "go home") broken_stream ok_reply
             (typed "open settings"))) =
  chatContainer (chat (typed "open settings")) /\
  app (quickButton sample_parse (js "go home") broken_stream ok_reply
         (typed "open settings")) = app (typed "open settings") /\
  exists text,
    effects
      (browser (quickButton sample_parse (js "go home") broken_stream ok_reply
                  (typed "open settings"))) =
    effects (browser (typed "open settings")) ++ [Toast text (js "warning")].
Proof.
  apply (quick_button_replaces_draft sample_parse (js "go home") broken_stream
           ok_reply (typed "open settings")).
  - vm_compute. discriminate.
  - left. reflexivity.
Defined.

(** X24: clearing the chat resets it to the welcome message whether or not
    the server could be told, and keeps the draft and the connection; a task
    accepted right after starts the chat anew: the welcome message goes, and
    the messages are the user's text and what the run appends. *)
Theorem clearChat_then_task (JSON_parse : jsstring -> option jsval)
  (clear shot : reply) (net : execute_reply) (w : World) :
  trim (messageInput_value (chat w)) <> [] ->
  isConnected (app w) = true ->
  isExecuting (app w) = false ->
  chatContainer (chat (clearChat clear w)) = [WelcomeMessage] /\
  exists added,
    messages
      (chatContainer
         (chat (executeTask JSON_parse net shot (clearChat clear w)))) =
    Message (js "user") (trim (messageInput_value (chat w))) :: added.
Proof.
  intros Ht Hc Hx.
  assert (Hv : messageInput_value (chat (clearChat clear w)) =
               messageInput_value (chat w)) by now destruct clear.
  assert (Ha : app (clearChat clear w) = app w) by now destruct clear.
  assert (Hl : chatContainer (chat (clearChat clear w)) = [WelcomeMessage])
    by reflexivity.
  split; [exact Hl|].
  destruct (executeTask_messages JSON_parse net shot (clearChat clear w))
    as (added & E).
  - now rewrite Hv.
  - now rewrite Ha.
  - now rewrite Ha.
  - exists added. rewrite E, Hl, Hv. reflexivity.
Qed.

Lemma clearChat_then_task_witness :
  chatContainer
    (chat (clearChat (Rejected (js "offline"))
             (connected_typed "open settings"))) = [WelcomeMessage] /\
  exists added,
    messages
      (chatContainer
         (chat (executeTask sample_parse broken_stream ok_reply
                  (clearChat (Rejected (js "offline"))
                     (connected_typed "open settings"))))) =
    Message (js "user")
      (trim (messageInput_value (chat (connected_typed "open settings"))))
    :: added.
Proof.
  apply (clearChat_then_task sample_parse (Rejected (js "offline")) ok_reply
           broken_stream (connected_typed "open settings")).
  - vm_compute. discriminate.
  - reflexivity.
  - reflexivity.
Defined.
